(** * frozen-data: the incremental synchronisation engine

    A shallow embedding of [database/datafeed.py], [database/base.py] and
    [database/utils/util.py], and the properties of the specification that
    are settled against it.

    Layout:
    - [Date]      calendar arithmetic behind [pd.Timestamp], [timedelta],
                  [strftime("%Y%m%d")] and [strptime(_, "%Y%m%d")];
    - [Py]        exceptions and the state-and-exception monad of the engine;
    - [Feed]      [TSDataFeed] and [DataFeedFactory];
    - [Manager]   [DataFeedManager];
    - [Limiter]   the [rate_limiter] decorator;
    - [Conn]      [DatabaseConnection], [ConnectionBuilder] and
                  [connection_factory];
    then the theorems, one section per property. *)

From Stdlib Require Import ZArith String Ascii List Lia Bool.
From stdpp Require Import base option list gmap strings.

Local Open Scope string_scope.
Local Open Scope list_scope.
Local Open Scope Z_scope.

(* ===================================================================== *)
(** ** Dates *)
(* ===================================================================== *)

Module Date.

(** A day is its proleptic Gregorian ordinal, as in CPython's [datetime]
    (0001-01-01 is day 1).  A [pd.Timestamp] at midnight is such a day
    inside pandas' nanosecond range. *)

Definition _is_leap (year : Z) : bool :=
  (year mod 4 =? 0) && (negb (year mod 100 =? 0) || (year mod 400 =? 0)).

Definition _days_before_year (year : Z) : Z :=
  let y := year - 1 in y * 365 + y / 4 - y / 100 + y / 400.

Definition _DAYS_IN_MONTH (month : Z) : Z :=
  match month with
  | 1 => 31 | 2 => 28 | 3 => 31 | 4 => 30 | 5 => 31 | 6 => 30
  | 7 => 31 | 8 => 31 | 9 => 30 | 10 => 31 | 11 => 30 | 12 => 31
  | _ => -1
  end.

Definition _DAYS_BEFORE_MONTH (month : Z) : Z :=
  match month with
  | 1 => 0 | 2 => 31 | 3 => 59 | 4 => 90 | 5 => 120 | 6 => 151
  | 7 => 181 | 8 => 212 | 9 => 243 | 10 => 273 | 11 => 304 | 12 => 334
  | _ => -1
  end.

Definition _days_in_month (year month : Z) : Z :=
  if (month =? 2) && _is_leap year then 29 else _DAYS_IN_MONTH month.

Definition _days_before_month (year month : Z) : Z :=
  _DAYS_BEFORE_MONTH month + (if (2 <? month) && _is_leap year then 1 else 0).

Definition _ymd2ord (year month day : Z) : Z :=
  _days_before_year year + _days_before_month year month + day.

Definition _DI400Y : Z := 146097.
Definition _DI100Y : Z := 36524.
Definition _DI4Y : Z := 1461.

Definition _ord2ymd (ordinal : Z) : Z * Z * Z :=
  let n := ordinal - 1 in
  let n400 := n / _DI400Y in
  let n := n mod _DI400Y in
  let year := n400 * 400 + 1 in
  let n100 := n / _DI100Y in
  let n := n mod _DI100Y in
  let n4 := n / _DI4Y in
  let n := n mod _DI4Y in
  let n1 := n / 365 in
  let n := n mod 365 in
  let year := year + n100 * 100 + n4 * 4 + n1 in
  if (n1 =? 4) || (n100 =? 4) then (year - 1, 12, 31)
  else
    let leapyear := (n1 =? 3) && (negb (n4 =? 24) || (n100 =? 3)) in
    let month := Z.shiftr (n + 50) 5 in
    let preceding :=
      _DAYS_BEFORE_MONTH month + (if (2 <? month) && leapyear then 1 else 0) in
    if n <? preceding then
      let month := month - 1 in
      let preceding :=
        preceding
        - (_DAYS_IN_MONTH month + (if (month =? 2) && leapyear then 1 else 0)) in
      (year, month, n - preceding + 1)
    else (year, month, n - preceding + 1).

(** [date(year, month, day)]: the constructor checks its fields. *)
Definition MINYEAR : Z := 1.
Definition MAXYEAR : Z := 9999.

Definition date (year month day : Z) : option Z :=
  if (MINYEAR <=? year) && (year <=? MAXYEAR)
     && (1 <=? month) && (month <=? 12)
     && (1 <=? day) && (day <=? _days_in_month year month)
  then Some (_ymd2ord year month day) else None.

(** Decimal digits. *)
Definition digit_char (d : Z) : ascii := ascii_of_N (Z.to_N (48 + d mod 10)).

Definition digit_val (c : ascii) : option Z :=
  let n := Z.of_N (N_of_ascii c) in
  if (48 <=? n) && (n <=? 57) then Some (n - 48) else None.

(** [strftime("%Y%m%d")]: four digits of year, two of month, two of day. *)
Definition strftime (d : Z) : string :=
  let '(y, m, dd) := _ord2ymd d in
  String (digit_char (y / 1000)) (String (digit_char (y / 100))
  (String (digit_char (y / 10)) (String (digit_char y)
  (String (digit_char (m / 10)) (String (digit_char m)
  (String (digit_char (dd / 10)) (String (digit_char dd) EmptyString))))))).

(** [strptime(s, "%Y%m%d")].  The format compiles to the regular expression
    [(\d\d\d\d)(1[0-2]|0[1-9]|[1-9])(3[01]|[12]\d|0[1-9]|[1-9]| [1-9])],
    matched at the start of [s] with the alternatives tried in order; the
    whole string must then have been consumed. *)
Definition digits2 (a b : ascii) : option Z :=
  match digit_val a, digit_val b with
  | Some x, Some y => Some (10 * x + y)
  | _, _ => None
  end.

(** The ways the month group can match a prefix of [s], in the order the
    regular expression tries them, each with the rest of the string. *)
Definition month_matches (s : string) : list (Z * string) :=
  match s with
  | String a rest1 =>
      let two :=
        match rest1 with
        | String b rest2 =>
            match digits2 a b with
            | Some m => if (1 <=? m) && (m <=? 12) then [(m, rest2)] else []
            | None => []
            end
        | EmptyString => []
        end in
      let one :=
        match digit_val a with
        | Some m => if 1 <=? m then [(m, rest1)] else []
        | None => []
        end in
      two ++ one
  | EmptyString => []
  end.

Definition space : ascii := ascii_of_N 32.

Definition day_matches (s : string) : list (Z * string) :=
  match s with
  | String a rest1 =>
      let two :=
        match rest1 with
        | String b rest2 =>
            match digits2 a b with
            | Some d => if (1 <=? d) && (d <=? 31) then [(d, rest2)] else []
            | None =>
                if Ascii.eqb a space then
                  match digit_val b with
                  | Some d => if 1 <=? d then [(d, rest2)] else []
                  | None => []
                  end
                else []
            end
        | EmptyString => []
        end in
      let one :=
        match digit_val a with
        | Some d => if 1 <=? d then [(d, rest1)] else []
        | None => []
        end in
      match two with
      | (d, r) :: _ =>
          (* [3[01]|[12]\d|0[1-9]] come before [[1-9]], [ [1-9]] after *)
          if Ascii.eqb a space then one ++ two else two ++ one
      | [] => one
      end
  | EmptyString => []
  end.

(** A literal of the format: [sep] is [None] for ["%Y%m%d"] and the dash
    for ["%Y-%m-%d"]. *)
Definition skip (sep : option ascii) (s : string) : list string :=
  match sep, s with
  | None, _ => [s]
  | Some c, String a rest => if Ascii.eqb a c then [rest] else []
  | Some _, EmptyString => []
  end.

(** First way to match month then day, backtracking over the month. *)
Definition md_match (sep : option ascii) (s : string) : option (Z * Z * string) :=
  head (flat_map (fun '(m, r) =>
                    flat_map (fun r1 => map (fun '(d, r2) => (m, d, r2)) (day_matches r1))
                             (skip sep r))
                 (flat_map month_matches (skip sep s))).

Definition strptime_sep (sep : option ascii) (s : string) : option Z :=
  match s with
  | String y1 (String y2 (String y3 (String y4 rest))) =>
      match digits2 y1 y2, digits2 y3 y4 with
      | Some hi, Some lo =>
          match md_match sep rest with
          | Some (m, d, EmptyString) => date (100 * hi + lo) m d
          | _ => None
          end
      | _, _ => None
      end
  | _ => None
  end.

(** [strptime(s, "%Y%m%d")] and [strptime(s, "%Y-%m-%d")] *)
Definition strptime (s : string) : option Z := strptime_sep None s.
Definition strptime_dash (s : string) : option Z := strptime_sep (Some "-"%char) s.

(** [strftime("%Y-%m-%d")] *)
Definition strftime_dash (d : Z) : string :=
  let '(y, m, dd) := _ord2ymd d in
  String (digit_char (y / 1000)) (String (digit_char (y / 100))
  (String (digit_char (y / 10)) (String (digit_char y)
  (String "-"%char (String (digit_char (m / 10)) (String (digit_char m)
  (String "-"%char (String (digit_char (dd / 10)) (String (digit_char dd)
  EmptyString))))))))).

(** [pd.Timestamp] holds nanoseconds since 1970 in 64 bits: midnights from
    1677-09-22 to 2262-04-11. *)
Definition Timestamp_min : Z := _ymd2ord 1677 9 22.
Definition Timestamp_max : Z := _ymd2ord 2262 4 11.

Definition in_bounds (d : Z) : bool := (Timestamp_min <=? d) && (d <=? Timestamp_max).

(** [P] on the [n] days from [lo] on. *)
Fixpoint all_from (n : nat) (lo : Z) (P : Z -> bool) : bool :=
  match n with
  | O => true
  | S k => if P lo then all_from k (lo + 1) P else false
  end.

(** The two halves of [_ord2ymd]: the year, by the 400-, 100-, 4- and
    1-year cycles, and the month and day inside the year. *)
Definition year_split (n : Z) : Z * Z * Z * Z * Z :=
  let n400 := n / _DI400Y in
  let n := n mod _DI400Y in
  let n100 := n / _DI100Y in
  let n := n mod _DI100Y in
  let n4 := n / _DI4Y in
  let n := n mod _DI4Y in
  let n1 := n / 365 in
  let n := n mod 365 in
  (n400, n100, n4, n1, n).

Definition month_day (leapyear : bool) (n : Z) : Z * Z :=
  let month := Z.shiftr (n + 50) 5 in
  let preceding :=
    _DAYS_BEFORE_MONTH month + (if (2 <? month) && leapyear then 1 else 0) in
  if n <? preceding then
    let month := month - 1 in
    let preceding :=
      preceding
      - (_DAYS_IN_MONTH month + (if (month =? 2) && leapyear then 1 else 0)) in
    (month, n - preceding + 1)
  else (month, n - preceding + 1).

(** [month_day] names a day of the year that exists and is the [n]-th. *)
Definition month_day_ok (leapyear : bool) (n : Z) : bool :=
  let '(m, dd) := month_day leapyear n in
  (1 <=? m) && (m <=? 12) && (1 <=? dd)
  && (dd <=? (if (m =? 2) && leapyear then 29 else _DAYS_IN_MONTH m)) && (dd <=? 31)
  && (_DAYS_BEFORE_MONTH m + (if (2 <? m) && leapyear then 1 else 0) + dd =? n + 1).

(** The month and day as [strftime] writes them, and whether they are read
    back. *)
Definition md_text (m dd : Z) : string :=
  String (digit_char (m / 10)) (String (digit_char m)
  (String (digit_char (dd / 10)) (String (digit_char dd) EmptyString))).

Definition md_ok (m dd : Z) : bool :=
  match md_match None (md_text m dd) with
  | Some (m', dd', EmptyString) => (m' =? m) && (dd' =? dd)
  | _ => false
  end.

End Date.

(* ===================================================================== *)
(** ** Python values, exceptions and effects *)
(* ===================================================================== *)

Module Py.

(** The exceptions the engine can meet.  [SourceError] stands for whatever
    the external data-source client raises, [BackendError] for what a
    storage driver raises. *)
Inductive exn : Type :=
| LookupError (msg : string)
| KeyError (key : string)
| IndexError
| TypeError
| ValueError
| OverflowError
| AttributeError
| AssertionError
| UnboundLocalError (var : string)
| NotImplementedError
| OutOfBoundsDatetime
| SourceError (msg : string)
| BackendError (msg : string).

Inductive result (A : Type) : Type :=
| Ok (a : A)
| Raise (e : exn).
Arguments Ok {A} a.
Arguments Raise {A} e.

Definition is_ok {A} (r : result A) : bool :=
  match r with Ok _ => true | Raise _ => false end.

(** ASCII [str.lower]. *)
Definition lower_char (c : ascii) : ascii :=
  let n := N_of_ascii c in
  if ((65 <=? n) && (n <=? 90))%N then ascii_of_N (n + 32) else c.

Fixpoint lower (s : string) : string :=
  match s with
  | EmptyString => EmptyString
  | String c s' => String (lower_char c) (lower s')
  end.

(** [c in s] for a one-character [c]. *)
Fixpoint contains_char (c : ascii) (s : string) : bool :=
  match s with
  | EmptyString => false
  | String a s' => Ascii.eqb a c || contains_char c s'
  end.

(** [' '.join(s.split('_'))]: every underscore becomes a space. *)
Fixpoint spaced (s : string) : string :=
  match s with
  | EmptyString => EmptyString
  | String c s' => String (if Ascii.eqb c "_"%char then " "%char else c) (spaced s')
  end.

(** [DataFrame.drop_duplicates()]: the first of each group of equal rows
    stays. *)
Fixpoint drop_duplicates_from {A} `{EqDecision A} (seen l : list A) : list A :=
  match l with
  | [] => []
  | x :: l' =>
      if decide (x ∈ seen) then drop_duplicates_from seen l'
      else x :: drop_duplicates_from (x :: seen) l'
  end.

Definition drop_duplicates {A} `{EqDecision A} (l : list A) : list A :=
  drop_duplicates_from [] l.

End Py.
Export Py.

(* ===================================================================== *)
(** ** The world around the engine *)
(* ===================================================================== *)

(** A row of a frame of the data source, dates still text.  [bar] is a row
    of the endpoints keyed by [trade_date] (and of [stock_basic], keyed by
    [list_date]); [dividend] rows may lack their [ex_date]. *)
Record bar := Bar { bar_code : string; bar_date : string; bar_vals : list Z }.
Record div := Div { div_code : string; div_ex_date : option string; div_vals : list Z }.

#[global] Instance bar_eq_dec : EqDecision bar.
Proof. solve_decision. Defined.
#[global] Instance div_eq_dec : EqDecision div.
Proof. solve_decision. Defined.

(** A row as it is stored: the date column is a [pd.Timestamp]. *)
Record row := Row { ts_code : string; date : Z; vals : list Z }.

#[global] Instance row_eq_dec : EqDecision row.
Proof. solve_decision. Defined.

(** What one call of the data source does. *)
Inductive reply (R : Type) : Type :=
| Raises (e : exn)
| ReturnsNone
| Frame (rows : list R).
Arguments Raises {R} e.
Arguments ReturnsNone {R}.
Arguments Frame {R} rows.

(** The tushare client, one field per endpoint the feed uses. *)
Record Source := {
  pro_bar : option string -> string -> string -> string -> string -> reply bar;
  stk_limit : option string -> string -> string -> reply bar;
  daily_basic : option string -> string -> string -> reply bar;
  dividend : option string -> reply div;
  suspend_d : string -> reply bar;
  stock_basic : string -> reply bar
}.

(** The calls made to the data source, in order. *)
Inductive api_call : Type :=
| Call_pro_bar (ts_code : option string) (start_date end_date asset adj : string)
| Call_stk_limit (ts_code : option string) (start_date end_date : string)
| Call_daily_basic (ts_code : option string) (start_date end_date : string)
| Call_dividend (ts_code : option string)
| Call_suspend_d (trade_date : string)
| Call_stock_basic (list_status : string).

#[global] Instance api_call_eq_dec : EqDecision api_call.
Proof. solve_decision. Defined.

(** A value of a [max_date] column: a [pd.Timestamp], text, or null. *)
Inductive cell : Type :=
| CTimestamp (d : Z)
| CStr (s : string)
| CNull.

(** The trading calendar ([utils/calendar.py]) rests on holiday tables of
    third-party packages; the engine sees it through these two functions. *)
Record Calendar := {
  next_trade_day : cell -> result Z;
  get_trade_day : cell -> cell -> result (list Z)
}.

Record World := {
  src : Source;
  cal : Calendar;
  today : Z          (* the day [datetime.datetime.today()] falls on *)
}.

(** Storage.  A table has one date column, whose name the schema fixes, and
    rows.  Uniqueness constraints of the concrete stores are not modelled:
    a table is the list of the rows handed to [insert], in order, so a key
    that occurs twice is a row the engine tried to store twice. *)
Record table := Table { t_date_col : string; t_rows : list row }.

Inductive level := INFO | WARNING.

Record state := State {
  db : gmap string table;
  log : list (level * string);
  calls : list api_call;
  inserts : list (string * list row)
}.

Definition M (A : Type) : Type := state -> result A * state.

Definition ret {A} (a : A) : M A := fun s => (Ok a, s).
Definition raise {A} (e : exn) : M A := fun s => (Raise e, s).
Definition bind {A B} (m : M A) (k : A -> M B) : M B :=
  fun s => match m s with
           | (Ok a, s') => k a s'
           | (Raise e, s') => (Raise e, s')
           end.
Definition lift {A} (r : result A) : M A := fun s => (r, s).

Declare Scope py_scope.
Delimit Scope py_scope with py.
Notation "x <- m ;; k" := (bind m (fun x => k))
  (at level 100, m at next level, right associativity) : py_scope.
Notation "m ;; k" := (bind m (fun _ => k))
  (at level 100, right associativity) : py_scope.
Local Open Scope py_scope.

(** [for x in l: body(x)] *)
Fixpoint for_each {A} (l : list A) (body : A -> M unit) : M unit :=
  match l with
  | [] => ret tt
  | x :: l' => body x ;; for_each l' body
  end.

Fixpoint map_M {A B} (f : A -> M B) (l : list A) : M (list B) :=
  match l with
  | [] => ret []
  | x :: l' => y <- f x ;; ys <- map_M f l' ;; ret (y :: ys)
  end.

Definition get_db : M (gmap string table) := fun s => (Ok (db s), s).

(** The state with one more line in the log, one more call noted. *)
Definition logged (lv : level) (msg : string) (s : state) : state :=
  State (db s) (log s ++ [(lv, msg)]) (calls s) (inserts s).

Definition called (c : api_call) (s : state) : state :=
  State (db s) (log s) (calls s ++ [c]) (inserts s).

Definition logger (lv : level) (msg : string) : M unit :=
  fun s => (Ok tt, logged lv msg s).

Definition record_call (c : api_call) : M unit :=
  fun s => (Ok tt, called c s).

(** What holds of the state before a computation and still after it,
    however it ends. *)
Definition preserves {A} (I : state -> Prop) (m : M A) : Prop :=
  forall s, I s -> I (snd (m s)).

(** Total correctness: from a state in [P] the computation returns, in a
    state and with a value in [Q]. *)
Definition returns {A} (P : state -> Prop) (m : M A) (Q : A -> state -> Prop)
  : Prop :=
  forall s, P s -> exists a s', m s = (Ok a, s') /\ Q a s'.

(** The steps that make no call of the source. *)
Definition silent_step {A} (m : M A) : Prop :=
  forall s, calls (snd (m s)) = calls s.

(** One call of the source: noted, then answered. *)
Definition call {R} (c : api_call) (r : reply R) : M (option (list R)) :=
  record_call c ;;
  match r with
  | Raises e => raise e
  | ReturnsNone => ret None
  | Frame rows => ret (Some rows)
  end.

(* ===================================================================== *)
(** ** [TSDataFeed] and [DataFeedFactory] *)
(* ===================================================================== *)

Module Feed.

Record TSDataFeed := {
  ticker : option string;
  START : string;
  END : string;
  TODAY : string
}.

(** [TSDataFeed.__init__] *)
Definition __init__ (w : World) (ticker start_date end_date : option string)
  : TSDataFeed :=
  {| ticker := ticker;
     START := match start_date with None => "20050101" | Some d => d end;
     END := match end_date with None => "20231231" | Some d => d end;
     TODAY := Date.strftime (today w) |}.

(** [TSDataFeed._check_validity]: [False] on an empty frame and on [None],
    [True] otherwise. *)
Definition _check_validity {R} (data : option (list R)) : bool :=
  match data with
  | Some (_ :: _) => true
  | Some [] => false
  | None => false
  end.

(** [pd.to_datetime] on one date of the source, which writes dates as
    [YYYYMMDD]; other spellings are left to [strptime]'s reading of them. *)
Definition to_datetime (s : string) : result Z :=
  match Date.strptime s with
  | Some d => if Date.in_bounds d then Ok d else Raise OutOfBoundsDatetime
  | None => Raise ValueError
  end.

(** [query[col] = pd.to_datetime(query[col])] on a frame of bars. *)
Fixpoint convert_bars (rows : list bar) : result (list row) :=
  match rows with
  | [] => Ok []
  | b :: rows' =>
      match to_datetime (bar_date b), convert_bars rows' with
      | Ok d, Ok rs => Ok (Row (bar_code b) d (bar_vals b) :: rs)
      | Raise e, _ => Raise e
      | _, Raise e => Raise e
      end
  end.

(** The same on a frame of dividends whose [ex_date] is known to be set;
    [pd.to_datetime] turns a missing date into [NaT], which no table of the
    model holds, so the row is dropped here as the [notna] filter did
    before. *)
Fixpoint convert_divs (rows : list div) : result (list row) :=
  match rows with
  | [] => Ok []
  | r :: rows' =>
      match div_ex_date r with
      | None => convert_divs rows'
      | Some s =>
          match to_datetime s, convert_divs rows' with
          | Ok d, Ok rs => Ok (Row (div_code r) d (div_vals r) :: rs)
          | Raise e, _ => Raise e
          | _, Raise e => Raise e
          end
      end
  end.

(** The five fetch methods are wrapped by [rate_limiter]; the wrapper only
    delays the call (see [Limiter]) and is left out here. *)

Definition fetch_volumn_price (w : World) (self : TSDataFeed)
    (asset adj : string) (update : bool) : M (option (list row)) :=
  let end_date := if update then TODAY self else END self in
  query <- call (Call_pro_bar (ticker self) (START self) end_date asset adj)
                (pro_bar (src w) (ticker self) (START self) end_date asset adj) ;;
  if negb (_check_validity query) then ret None
  else rows <- lift (convert_bars (default [] query)) ;; ret (Some rows).

Definition fetch_stock_limit (w : World) (self : TSDataFeed) (update : bool)
  : M (option (list row)) :=
  let end_date := if update then TODAY self else END self in
  query <- call (Call_stk_limit (ticker self) (START self) end_date)
                (stk_limit (src w) (ticker self) (START self) end_date) ;;
  if negb (_check_validity query) then ret None
  else rows <- lift (convert_bars (default [] query)) ;; ret (Some rows).

Definition fetch_stock_fundamental (w : World) (self : TSDataFeed) (update : bool)
  : M (option (list row)) :=
  let end_date := if update then TODAY self else END self in
  query <- call (Call_daily_basic (ticker self) (START self) end_date)
                (daily_basic (src w) (ticker self) (START self) end_date) ;;
  if negb (_check_validity query) then ret None
  else rows <- lift (convert_bars (default [] query)) ;; ret (Some rows).

(** [query[query['ex_date'] > cutoff_date]]: text against text, by code
    point; against [None] the comparison is a [TypeError]. *)
Definition after_cutoff (cutoff : option string) (rows : list div)
  : result (list div) :=
  match cutoff with
  | None => match rows with [] => Ok [] | _ :: _ => Raise TypeError end
  | Some c =>
      Ok (List.filter (fun r => match div_ex_date r with
                                | Some s => String.ltb c s
                                | None => false
                                end) rows)
  end.

Definition notna (rows : list div) : list div :=
  List.filter (fun r => match div_ex_date r with Some _ => true | None => false end)
              rows.

Definition fetch_stock_dividend (w : World) (self : TSDataFeed) (update : bool)
    (cutoff : option string) : M (option (list row)) :=
  query <- call (Call_dividend (ticker self)) (dividend (src w) (ticker self)) ;;
  if negb (_check_validity query) then ret None
  else
    let query := drop_duplicates (default [] query) in
    let query := notna query in
    query <- (if update then lift (after_cutoff cutoff query) else ret query) ;;
    rows <- lift (convert_divs query) ;;
    ret (Some rows).

Definition fetch_stock_suspend (w : World) (self : TSDataFeed) (tradeday : string)
  : M (option (list row)) :=
  query <- call (Call_suspend_d tradeday) (suspend_d (src w) tradeday) ;;
  if negb (_check_validity query) then ret None
  else rows <- lift (convert_bars (default [] query)) ;; ret (Some rows).

(** Not rate-limited and not validated: [query["list_date"] = ...] on
    [None] is a [TypeError]. *)
Definition fetch_stock_basic (w : World) (self : TSDataFeed) (list_status : string)
  : M (option (list row)) :=
  query <- call (Call_stock_basic list_status) (stock_basic (src w) list_status) ;;
  match query with
  | None => raise TypeError
  | Some bars => rows <- lift (convert_bars bars) ;; ret (Some rows)
  end.

(** [DataFeedFactory.create_data_feed] *)
Definition create_data_feed (w : World) (source : string)
    (ticker start_date end_date : option string) : result TSDataFeed :=
  if String.eqb source "tushare" then Ok (__init__ w ticker start_date end_date)
  else Raise ValueError.

End Feed.

(* ===================================================================== *)
(** ** [DataFeedManager] *)
(* ===================================================================== *)

Module Manager.

Inductive backend := chdb | duckdb | mongodb.

Record DataFeedManager := {
  source : string;
  database : backend;
  ticker_list : list string;
  start_date : string;
  end_date : string;
  data_feeds : list Feed.TSDataFeed;
  TODAY : string
}.

Definition put_table (tn : string) (t : table) : M unit :=
  fun s => (Ok tt, State (<[tn := t]> (db s)) (log s) (calls s) (inserts s)).

Definition note_insert (tn : string) (rows : list row) : M unit :=
  fun s => (Ok tt, State (db s) (log s) (calls s) (inserts s ++ [(tn, rows)])).

Definition rows_with_code (code : string) (rows : list row) : list row :=
  List.filter (fun r => String.eqb (ts_code r) code) rows.

Definition rows_with_date (d : Z) (rows : list row) : list row :=
  List.filter (fun r => date r =? d) rows.

(** [SELECT DISTINCT ts_code] / [collection.distinct("ts_code")] *)
Definition distinct_codes (rows : list row) : list string :=
  drop_duplicates (map ts_code rows).

(** [MAX(date)] of a group that is not empty *)
Definition max_date (rows : list row) : cell :=
  match rows with
  | [] => CNull
  | r :: rows' => CTimestamp (fold_left Z.max (map date rows') (date r))
  end.

Definition _check_table_exists (self : DataFeedManager) (table_name : string)
  : M bool :=
  d <- get_db ;;
  ret (match d !! table_name with Some _ => true | None => false end).

Definition _check_table_empty (self : DataFeedManager) (table_name : string)
  : M bool :=
  d <- get_db ;;
  match database self with
  | chdb => raise (UnboundLocalError "res")
  | duckdb =>
      match d !! table_name with
      | Some t => ret (match t_rows t with [] => true | _ => false end)
      | None => raise (BackendError "Catalog Error")
      end
  | mongodb =>
      match d !! table_name with
      | Some t => ret (match t_rows t with [] => true | _ => false end)
      | None => ret true
      end
  end.

(** The rows found; the callers test the list for emptiness.  A key with a
    dot is taken for a [ts_code], any other for a [trade_date].  On mongodb
    the date is parsed and then written back into text for the filter, and
    text never equals the stored [datetime]: nothing is found. *)
Definition _check_data_exists (self : DataFeedManager)
    (table_name data_str : string) : M (list row) :=
  d <- get_db ;;
  match database self with
  | chdb => raise (UnboundLocalError "result")
  | duckdb =>
      match d !! table_name with
      | None => raise (BackendError "Catalog Error")
      | Some t =>
          if contains_char "."%char data_str then
            ret (rows_with_code data_str (t_rows t))
          else if negb (String.eqb (t_date_col t) "trade_date") then
            raise (BackendError "Binder Error")
          else
            match Date.strptime_dash data_str with
            | Some day => ret (rows_with_date day (t_rows t))
            | None => raise (BackendError "Conversion Error")
            end
      end
  | mongodb =>
      if contains_char "."%char data_str then
        ret (match d !! table_name with
             | Some t => rows_with_code data_str (t_rows t)
             | None => []
             end)
      else
        match Date.strptime_dash data_str with
        | Some formatted_data => ret []
        | None => raise ValueError
        end
  end.

Definition _get_table_ticker (self : DataFeedManager) (table_name : string)
  : M (list string) :=
  d <- get_db ;;
  match database self with
  | chdb => raise (UnboundLocalError "res")
  | duckdb =>
      match d !! table_name with
      | Some t => ret (distinct_codes (t_rows t))
      | None => raise (BackendError "Catalog Error")
      end
  | mongodb =>
      ret (match d !! table_name with
           | Some t => distinct_codes (t_rows t)
           | None => []
           end)
  end.

(** Appends the frame.  Every operation creates its table before it
    inserts, so the table is there; the model raises where it is not. *)
Definition _insert_df_to_table (self : DataFeedManager)
    (df : option (list row)) (table_name : string) : M unit :=
  match df with
  | None => raise AttributeError
  | Some rows =>
      d <- get_db ;;
      match d !! table_name with
      | Some t =>
          note_insert table_name rows ;;
          put_table table_name (Table (t_date_col t) (t_rows t ++ rows))
      | None => raise (BackendError "Catalog Error")
      end
  end.

Definition _check_validity {R} (data : option (list R)) : bool :=
  match data with
  | Some (_ :: _) => true
  | Some [] => false
  | None => false
  end.

(** [_get_table_date(table_name, latest=False)]: the frame of one row per
    [ts_code] with its [max_date]. *)
Definition _get_table_date (self : DataFeedManager) (table_name : string)
  : M (list (string * cell)) :=
  let date_col :=
    if String.eqb table_name "stock_dividend" then "ex_date" else "trade_date" in
  d <- get_db ;;
  match database self with
  | chdb => raise (UnboundLocalError "query_str")
  | duckdb =>
      match d !! table_name with
      | None => raise (BackendError "Catalog Error")
      | Some t =>
          if negb (String.eqb (t_date_col t) date_col) then
            raise (BackendError "Binder Error")
          else
            ret (map (fun c => (c, max_date (rows_with_code c (t_rows t))))
                     (distinct_codes (t_rows t)))
      end
  | mongodb =>
      match d !! table_name with
      | None => ret []
      | Some t =>
          ret (map (fun c =>
                      (c, if String.eqb (t_date_col t) date_col
                          then max_date (rows_with_code c (t_rows t))
                          else CNull))
                   (distinct_codes (t_rows t)))
      end
  end.

(** [Series.max()] of the [max_date] column: nulls are skipped, and an
    empty or all-null column gives [NaT]. *)
Definition column_max (col : list cell) : cell :=
  fold_left (fun acc c =>
               match acc, c with
               | CTimestamp a, CTimestamp b => CTimestamp (Z.max a b)
               | CNull, CTimestamp b => CTimestamp b
               | _, _ => acc
               end) col CNull.

(** [_get_table_date(table_name, latest=True)]: an empty list of documents
    makes a frame without columns, where [table_date["max_date"]] is a
    [KeyError]. *)
Definition _get_table_date_latest (self : DataFeedManager) (table_name : string)
  : M cell :=
  table_date <- _get_table_date self table_name ;;
  match database self, table_date with
  | mongodb, [] => raise (KeyError "max_date")
  | _, _ => ret (column_max (map snd table_date))
  end.

Definition lookup_code (ticker : string) (table_date : list (string * cell))
  : result cell :=
  match List.find (fun p => String.eqb (fst p) ticker) table_date with
  | Some p => Ok (snd p)
  | None => Raise IndexError
  end.

(** [pd.Timestamp + timedelta(shift)] and [datetime + timedelta(shift)] *)
Definition Timestamp_add (t shift : Z) : result Z :=
  if Date.in_bounds (t + shift) then Ok (t + shift) else Raise OutOfBoundsDatetime.

Definition datetime_add (t shift : Z) : result Z :=
  if (1 <=? t + shift) && (t + shift <=? Date._ymd2ord 9999 12 31)
  then Ok (t + shift) else Raise OverflowError.

(** [_get_ticker_date]: two [if]s in a row, the second one sees what the
    first one wrote.  The value returned is text, or the null it found. *)
Definition _get_ticker_date (self : DataFeedManager)
    (table_date : list (string * cell)) (ticker : string) (shift : Z)
  : result (option string) :=
  let ticker_date :=
    match database self with
    | mongodb =>
        match table_date with
        | [] => Raise (KeyError "_id")
        | _ => lookup_code ticker table_date
        end
    | duckdb => lookup_code ticker table_date
    | chdb => Raise (UnboundLocalError "ticker_date")
    end in
  match ticker_date with
  | Raise e => Raise e
  | Ok ticker_date =>
      let ticker_date :=
        match ticker_date with
        | CTimestamp t =>
            match Timestamp_add t shift with
            | Ok t' => Ok (CStr (Date.strftime t'))
            | Raise e => Raise e
            end
        | other => Ok other
        end in
      match ticker_date with
      | Raise e => Raise e
      | Ok (CStr s) =>
          match Date.strptime s with
          | None => Raise ValueError
          | Some t =>
              match datetime_add t shift with
              | Ok t' => Ok (Some (Date.strftime t'))
              | Raise e => Raise e
              end
          end
      | Ok (CTimestamp _) => Raise TypeError (* not reached *)
      | Ok CNull => Ok None
      end
  end.

(** [_load_datafeed(ticker_list, start_date, end_date, update=, table_name=,
    date_list=)] *)
Definition _load_datafeed (w : World) (self : DataFeedManager)
    (ticker_list : option (list string)) (start_date end_date : option string)
    (update : bool) (table_name : string) (date_list : list string)
  : M (list Feed.TSDataFeed) :=
  let ticker_list := default (Manager.ticker_list self) ticker_list in
  let start_date := default (Manager.start_date self) start_date in
  let end_date := default (Manager.end_date self) end_date in
  p <- (if update then
          if String.eqb table_name "" then raise AssertionError
          else table_date <- _get_table_date self table_name ;;
               ret (table_date, TODAY self)
        else ret ([], end_date)) ;;
  let '(table_date, end_date) := p in
  match date_list with
  | _ :: _ =>
      map_M (fun _ => lift (Feed.create_data_feed w (source self) None None None))
            date_list
  | [] =>
      map_M (fun ticker =>
               start_date <-
                 (if update then
                    lift (_get_ticker_date self table_date ticker 1)
                  else ret (Some start_date)) ;;
               lift (Feed.create_data_feed w (source self) (Some ticker)
                                            start_date (Some end_date)))
            ticker_list
  end.

(** [CREATE TABLE IF NOT EXISTS] / [create_collection] with its index: an
    empty table of the category's schema. *)
Definition create_table (table_name date_col : string) : M unit :=
  put_table table_name (Table date_col []).

Definition empty_warning (table_name who : string) : string :=
  "Table " +:+ table_name +:+ ", " +:+ who +:+ " data is empty.".

(** The tail of every loop body:
    [if not self._check_validity(data): logger.warning(...); continue]
    and then [self._insert_df_to_table(data, table_name)]. *)
Definition insert_or_skip (self : DataFeedManager) (table_name who : string)
    (data : option (list row)) : M unit :=
  if negb (_check_validity data) then logger WARNING (empty_warning table_name who)
  else _insert_df_to_table self data table_name.

(** The body of an incremental loop: fetch the unit, then store or skip. *)
Definition extend_unit (self : DataFeedManager) (table_name who : string)
    (fetch : M (option (list row))) : M unit :=
  data <- fetch ;;
  insert_or_skip self table_name who data.

(** The body of a full loop:
    [if not self._check_data_exists(table_name, key): ... else: continue]. *)
Definition backfill_unit (self : DataFeedManager) (table_name key who : string)
    (fetch : M (option (list row))) : M unit :=
  found <- _check_data_exists self table_name key ;;
  match found with
  | [] => extend_unit self table_name who fetch
  | _ :: _ => ret tt
  end.

(** [list(set(self.ticker_list).difference(table_ticker_list))].  A Python
    set has no order of its own; the model lists the members in the order of
    their first occurrence, and nothing below rests on it. *)
Definition set_difference (l1 l2 : list string) : list string :=
  drop_duplicates (List.filter (fun t => negb (bool_decide (t ∈ l2))) l1).

Definition table_is_empty_msg (table_name : string) : string :=
  "Table is empty, insert data into table " +:+ table_name +:+ " first!".

Definition fetch_volumn_price_data (w : World) (self : DataFeedManager)
    (table_name asset adj : string) (update : bool) : M unit :=
  there <- _check_table_exists self table_name ;;
  (if negb there then
     create_table table_name "trade_date" ;;
     logger INFO ("Created table " +:+ table_name +:+ ", storing "
                  +:+ spaced table_name +:+ " volumn-price data.")
   else ret tt) ;;
  if update then
    empty <- _check_table_empty self table_name ;;
    (if empty then raise (LookupError (table_is_empty_msg table_name)) else ret tt) ;;
    table_ticker_list <- _get_table_ticker self table_name ;;
    data_feeds <- _load_datafeed w self (Some table_ticker_list) None None
                                 true table_name [] ;;
    for_each (zip table_ticker_list data_feeds) (fun '(ticker, feed) =>
      extend_unit self table_name ticker (Feed.fetch_volumn_price w feed asset adj true)) ;;
    let extra_ticker_list := set_difference (ticker_list self) table_ticker_list in
    extra_data_feeds <- _load_datafeed w self (Some extra_ticker_list) None
                                       (Some (TODAY self)) false "" [] ;;
    for_each (zip extra_ticker_list extra_data_feeds) (fun '(ticker, feed) =>
      extend_unit self table_name ticker (Feed.fetch_volumn_price w feed asset adj true)) ;;
    logger INFO (table_name +:+ " data update completed.")
  else
    for_each (zip (ticker_list self) (data_feeds self)) (fun '(ticker, feed) =>
      backfill_unit self table_name ticker ticker (Feed.fetch_volumn_price w feed asset adj false)) ;;
    logger INFO (table_name +:+ " data insertion completed.").

Definition fetch_stock_limit_data (w : World) (self : DataFeedManager)
    (table_name : string) (update : bool) : M unit :=
  there <- _check_table_exists self table_name ;;
  (if negb there then
     create_table table_name "trade_date" ;;
     logger INFO ("Created table " +:+ table_name +:+ ", storing "
                  +:+ spaced table_name +:+ " price data.")
   else ret tt) ;;
  if update then
    empty <- _check_table_empty self table_name ;;
    (if empty then raise (LookupError (table_is_empty_msg table_name)) else ret tt) ;;
    table_ticker_list <- _get_table_ticker self table_name ;;
    data_feeds <- _load_datafeed w self (Some table_ticker_list) None None
                                 true table_name [] ;;
    for_each (zip table_ticker_list data_feeds) (fun '(ticker, feed) =>
      extend_unit self table_name ticker (Feed.fetch_stock_limit w feed true)) ;;
    let extra_ticker_list := set_difference (ticker_list self) table_ticker_list in
    extra_data_feeds <- _load_datafeed w self (Some extra_ticker_list) None
                                       (Some (TODAY self)) false "" [] ;;
    for_each (zip extra_ticker_list extra_data_feeds) (fun '(ticker, feed) =>
      extend_unit self table_name ticker (Feed.fetch_stock_limit w feed false)) ;;
    logger INFO (table_name +:+ " data update completed.")
  else
    for_each (zip (ticker_list self) (data_feeds self)) (fun '(ticker, feed) =>
      backfill_unit self table_name ticker ticker (Feed.fetch_stock_limit w feed false)) ;;
    logger INFO (table_name +:+ " data insertion completed.").

Definition fetch_stock_fundamental_data (w : World) (self : DataFeedManager)
    (table_name : string) (update : bool) : M unit :=
  there <- _check_table_exists self table_name ;;
  (if negb there then
     create_table table_name "trade_date" ;;
     logger INFO ("Created table " +:+ table_name +:+ ", storing "
                  +:+ spaced table_name +:+ " data.")
   else ret tt) ;;
  if update then
    empty <- _check_table_empty self table_name ;;
    (if empty then raise (LookupError (table_is_empty_msg table_name)) else ret tt) ;;
    table_ticker_list <- _get_table_ticker self table_name ;;
    data_feeds <- _load_datafeed w self (Some table_ticker_list) None None
                                 true table_name [] ;;
    for_each (zip table_ticker_list data_feeds) (fun '(ticker, feed) =>
      extend_unit self table_name ticker (Feed.fetch_stock_fundamental w feed true)) ;;
    let extra_ticker_list := set_difference (ticker_list self) table_ticker_list in
    extra_data_feeds <- _load_datafeed w self (Some extra_ticker_list) None
                                       (Some (TODAY self)) false "" [] ;;
    for_each (zip extra_ticker_list extra_data_feeds) (fun '(ticker, feed) =>
      extend_unit self table_name ticker (Feed.fetch_stock_fundamental w feed false)) ;;
    logger INFO (table_name +:+ " data update completed.")
  else
    for_each (zip (ticker_list self) (data_feeds self)) (fun '(ticker, feed) =>
      backfill_unit self table_name ticker ticker (Feed.fetch_stock_fundamental w feed false)) ;;
    logger INFO (table_name +:+ " data insertion completed.").

Definition fetch_stock_dividend_data (w : World) (self : DataFeedManager)
    (table_name : string) (update : bool) : M unit :=
  there <- _check_table_exists self table_name ;;
  (if negb there then
     create_table table_name "ex_date" ;;
     logger INFO ("Created table " +:+ table_name +:+ ", storing "
                  +:+ spaced table_name +:+ " data.")
   else ret tt) ;;
  if update then
    empty <- _check_table_empty self table_name ;;
    (if empty then raise (LookupError (table_is_empty_msg table_name)) else ret tt) ;;
    table_ticker_list <- _get_table_ticker self table_name ;;
    data_feeds <- _load_datafeed w self (Some table_ticker_list) None None
                                 true table_name [] ;;
    table_date <- _get_table_date self table_name ;;
    for_each (zip table_ticker_list data_feeds) (fun '(ticker, feed) =>
      next_ticker_date <- lift (_get_ticker_date self table_date ticker 1) ;;
      extend_unit self table_name ticker
                  (Feed.fetch_stock_dividend w feed true next_ticker_date)) ;;
    let extra_ticker_list := set_difference (ticker_list self) table_ticker_list in
    extra_data_feeds <- _load_datafeed w self (Some extra_ticker_list) None
                                       (Some (TODAY self)) false "" [] ;;
    for_each (zip extra_ticker_list extra_data_feeds) (fun '(ticker, feed) =>
      extend_unit self table_name ticker (Feed.fetch_stock_dividend w feed false None)) ;;
    logger INFO (table_name +:+ " data update completed.")
  else
    for_each (zip (ticker_list self) (data_feeds self)) (fun '(ticker, feed) =>
      backfill_unit self table_name ticker ticker (Feed.fetch_stock_dividend w feed false None)) ;;
    logger INFO (table_name +:+ " data insertion completed.").

(** The suspension table is keyed by trade day; its incremental branch has
    no emptiness check and goes straight to the latest stored day. *)
Definition fetch_stock_suspend_data (w : World) (self : DataFeedManager)
    (table_name : string) (update : bool) : M unit :=
  there <- _check_table_exists self table_name ;;
  (if negb there then
     create_table table_name "trade_date" ;;
     logger INFO ("Created table " +:+ table_name +:+ ", storing "
                  +:+ spaced table_name +:+ " data.")
   else ret tt) ;;
  if update then
    latest <- _get_table_date_latest self table_name ;;
    start_date <- lift (next_trade_day (cal w) latest) ;;
    days <- lift (get_trade_day (cal w) (CTimestamp start_date) (CStr (TODAY self))) ;;
    let tradeday_list := map Date.strftime days in
    let date_for_query := map Date.strftime_dash days in
    data_feeds <- _load_datafeed w self None None None false "" tradeday_list ;;
    for_each (zip tradeday_list (zip date_for_query data_feeds))
      (fun '(date, (format_date, feed)) =>
         extend_unit self table_name date (Feed.fetch_stock_suspend w feed date)) ;;
    logger INFO (table_name +:+ " data update completed.")
  else
    days <- lift (get_trade_day (cal w) (CStr (start_date self)) (CStr (end_date self))) ;;
    let tradeday_list := map Date.strftime days in
    let date_for_query := map Date.strftime_dash days in
    data_feeds <- _load_datafeed w self None None None false "" tradeday_list ;;
    for_each (zip tradeday_list (zip date_for_query data_feeds))
      (fun '(date, (format_date, feed)) =>
         backfill_unit self table_name format_date date
                       (Feed.fetch_stock_suspend w feed date)) ;;
    logger INFO (table_name +:+ " data insertion completed.").

(** The reference table: after the warning there is no [return]; the
    insert follows whatever the result was. *)
Definition fetch_stock_basic_data (w : World) (self : DataFeedManager)
    (table_name list_status : string) : M unit :=
  there <- _check_table_exists self table_name ;;
  (if negb there then
     create_table table_name "list_date" ;;
     logger INFO ("Created table " +:+ table_name +:+ ", storing "
                  +:+ spaced table_name +:+ " data.")
   else ret tt) ;;
  feed <- lift (match data_feeds self with
                | feed :: _ => Ok feed
                | [] => Raise IndexError
                end) ;;
  data <- Feed.fetch_stock_basic w feed list_status ;;
  (if negb (_check_validity data) then logger WARNING "Stock basic data is empty."
   else ret tt) ;;
  _insert_df_to_table self data table_name ;;
  logger INFO (table_name +:+ " data insertion completed.").

(** The rows of a table, none if it is not there, and the composite key
    of a row. *)
Definition rows_of (table_name : string) (s : state) : list row :=
  match db s !! table_name with
  | Some t => t_rows t
  | None => []
  end.

Definition key (r : row) : string * Z := (ts_code r, date r).

(** The state after [rows] were appended to a table that is there. *)
Definition stored (table_name : string) (rows : list row) (s : state) : state :=
  match db s !! table_name with
  | Some t =>
      State (<[table_name := Table (t_date_col t) (t_rows t ++ rows)]> (db s))
            (log s) (calls s) (inserts s ++ [(table_name, rows)])
  | None => s
  end.

(** What a unit of the full price loop comes to, told from the database
    alone: the existence check fails; the ticker is found; the fetch or the
    insert raises; there is nothing to store; or [rows] are stored. *)
Inductive unit_kind : Type :=
| KCheckRaises (e : exn)
| KFound
| KRaises (e : exn)
| KInvalid
| KStore (rows : list row).

Definition price_unit_kind (w : World) (self : DataFeedManager)
    (table_name asset adj ticker : string) (feed : Feed.TSDataFeed)
    (d : gmap string table) : unit_kind :=
  let found :=
    match database self with
    | chdb => Raise (UnboundLocalError "result")
    | duckdb =>
        match d !! table_name with
        | None => Raise (BackendError "Catalog Error")
        | Some t => Ok (rows_with_code ticker (t_rows t))
        end
    | mongodb =>
        Ok (match d !! table_name with
            | Some t => rows_with_code ticker (t_rows t)
            | None => []
            end)
    end in
  match found with
  | Raise e => KCheckRaises e
  | Ok (_ :: _) => KFound
  | Ok [] =>
      match pro_bar (src w) (Feed.ticker feed) (Feed.START feed) (Feed.END feed)
                    asset adj with
      | Raises e => KRaises e
      | ReturnsNone => KInvalid
      | Frame [] => KInvalid
      | Frame (b :: bars) =>
          match Feed.convert_bars (b :: bars) with
          | Raise e => KRaises e
          | Ok [] => KInvalid
          | Ok (r :: rows) =>
              match d !! table_name with
              | Some _ => KStore (r :: rows)
              | None => KRaises (BackendError "Catalog Error")
              end
          end
      end
  end.

(** The body of the full price loop. *)
Definition price_backfill_body (w : World) (self : DataFeedManager)
    (table_name asset adj : string) : string * Feed.TSDataFeed -> M unit :=
  fun '(ticker, feed) =>
    backfill_unit self table_name ticker ticker
                  (Feed.fetch_volumn_price w feed asset adj false).

(** Units whose ticker is written with a dot and is the ticker of the
    feed. *)
Definition dotted_units (us : list (string * Feed.TSDataFeed)) : Prop :=
  Forall (fun u => contains_char "."%char (fst u) = true
                   /\ Feed.ticker (snd u) = Some (fst u)) us.

Definition rows_in (table_name : string) (d : gmap string table) : list row :=
  match d !! table_name with
  | Some t => t_rows t
  | None => []
  end.

(** The table stays, and only grows at its end. *)
Definition extends (table_name : string) (d d2 : gmap string table) : Prop :=
  forall tbl, d !! table_name = Some tbl ->
    exists tbl2 more,
      d2 !! table_name = Some tbl2 /\ t_rows tbl2 = t_rows tbl ++ more.

(** A call for a ticker of which the database has no row. *)
Definition fresh_call (table_name asset adj : string) (d : gmap string table)
    (c : api_call) : Prop :=
  exists t start_date end_date,
    c = Call_pro_bar (Some t) start_date end_date asset adj
    /\ rows_with_code t (rows_in table_name d) = [].

(** From [s2] to [fin] the database and the inserts stayed as they were,
    and the source was called only for tickers without rows. *)
Definition untouched (table_name asset adj : string) (s2 fin : state) : Prop :=
  db fin = db s2
  /\ inserts fin = inserts s2
  /\ exists extra,
       calls fin = calls s2 ++ extra
       /\ Forall (fresh_call table_name asset adj (db s2)) extra.

(** The body of the two incremental price loops. *)
Definition price_extend_body (w : World) (self : DataFeedManager)
    (table_name asset adj : string) : string * Feed.TSDataFeed -> M unit :=
  fun '(ticker, feed) =>
    extend_unit self table_name ticker
                (Feed.fetch_volumn_price w feed asset adj true).

(** From [s] to [s'] nothing was taken back: the calls made and the rows
    of the table are still there, and so is the table. *)
Definition grows (table_name : string) (s s' : state) : Prop :=
  (forall c, c ∈ calls s -> c ∈ calls s')
  /\ (forall r, r ∈ rows_of table_name s -> r ∈ rows_of table_name s')
  /\ (is_Some (db s !! table_name) -> is_Some (db s' !! table_name)).

(** Stored days that have a next day a [pd.Timestamp] can hold. *)
Definition shiftable (rows : list row) : Prop :=
  Forall (fun r => Date.in_bounds (date r + 1) = true) rows.

(** What is asked of a source of bars.  It answers for the ticker it was
    asked about; it has one bar per day; it does not fail, and writes dates
    that can be read. *)
Definition answers_for_ticker (w : World) : Prop :=
  forall t start_date end_date asset adj bars,
    pro_bar (src w) (Some t) start_date end_date asset adj = Frame bars ->
    Forall (fun b => bar_code b = t) bars.

Definition one_bar_per_day (w : World) : Prop :=
  forall t start_date end_date asset adj bars rows,
    pro_bar (src w) (Some t) start_date end_date asset adj = Frame bars ->
    Feed.convert_bars bars = Ok rows ->
    NoDup (map date rows).

Definition never_fails (w : World) : Prop :=
  forall t start_date end_date asset adj,
    match pro_bar (src w) t start_date end_date asset adj with
    | Raises _ => False
    | ReturnsNone => True
    | Frame bars => is_ok (Feed.convert_bars bars) = true
    end.

(** [DataFeedManager.__init__].  Connection set-up is in [Conn]; the feeds
    are built before [TODAY] is set, by a call that does not read it. *)
Definition backend_name (b : backend) : string :=
  match b with chdb => "chdb" | duckdb => "duckdb" | mongodb => "mongodb" end.

Definition parse_backend (database : string) : result backend :=
  if String.eqb database "chdb" then Ok chdb
  else if String.eqb database "duckdb" then Ok duckdb
  else if String.eqb database "mongodb" then Ok mongodb
  else Raise NotImplementedError.

Definition or_default (dflt : string) (d : option string) : string :=
  match d with
  | None => dflt
  | Some s => if String.eqb (lower s) "none" then dflt else s
  end.

Definition __init__ (w : World) (source database : string)
    (ticker_list : list string) (start_date end_date : option string)
  : M DataFeedManager :=
  database <- lift (parse_backend database) ;;
  let start_date := or_default "20050101" start_date in
  let end_date := or_default "20231231" end_date in
  let self := {| source := source; database := database;
                 ticker_list := ticker_list;
                 start_date := start_date; end_date := end_date;
                 data_feeds := []; TODAY := "" |} in
  data_feeds <- _load_datafeed w self None None None false "" [] ;;
  ret {| source := source; database := database;
         ticker_list := ticker_list;
         start_date := start_date; end_date := end_date;
         data_feeds := data_feeds;
         TODAY := Date.strftime (today w) |}.

End Manager.

(* ===================================================================== *)
(** ** [rate_limiter] *)
(* ===================================================================== *)

Module Limiter.

(** Clock readings are in milliseconds, and the arithmetic on them is exact
    where Python's is in floating point. *)
Definition minute : Z := 60000.

(** The variables [calls] and [start_time] of one [decorator(func)]
    closure.  Every decorated function has a closure, a counter and a lock
    of its own. *)
Record closure := { calls : Z; start_time : Z }.

(** [decorator(func)] run at [now]. *)
Definition decorator (now : Z) : closure := {| calls := 0; start_time := now |}.

(** One pass through [wrapper].  The lock makes the passes of concurrent
    callers follow one another, so a pass is a step on the closure.
    [current_time] is the first reading of the clock; [lag] is how much
    later than it had to the second reading comes (a sleep overrun).  The
    step gives the new closure and the reading at which [func] is let
    through. *)
Record pass := { current_time : Z; lag : Z }.

Definition wrapper (max_calls_per_minute : Z) (c : closure) (p : pass)
  : closure * Z :=
  let current_time := current_time p in
  let '(calls, start_time) :=
    if current_time - start_time c >? minute then (0, current_time)
    else (calls c, start_time c) in
  if calls >=? max_calls_per_minute then
    let sleep_time := minute - (current_time - start_time) in
    let woke :=
      (if sleep_time >? 0 then current_time + sleep_time else current_time)
      + lag p in
    ({| calls := 0 + 1; start_time := woke |}, woke)
  else
    ({| calls := calls + 1; start_time := start_time |}, current_time).

(** A run of passes: the closure at the end and the readings at which the
    calls went through, in order. *)
Fixpoint run (max_calls_per_minute : Z) (c : closure) (ps : list pass)
  : closure * list Z :=
  match ps with
  | [] => (c, [])
  | p :: ps' =>
      let '(c', t) := wrapper max_calls_per_minute c p in
      let '(c'', ts) := run max_calls_per_minute c' ps' in
      (c'', t :: ts)
  end.

(** The clock does not run backwards: a pass starts no earlier than the
    closure was made and than the pass before it ended, and lags are not
    negative. *)
Fixpoint clock_ok (max_calls_per_minute : Z) (c : closure) (last : Z)
    (ps : list pass) : bool :=
  match ps with
  | [] => true
  | p :: ps' =>
      (last <=? current_time p) && (0 <=? lag p)
      && let '(c', t) := wrapper max_calls_per_minute c p in
         clock_ok max_calls_per_minute c' t ps'
  end.

(** The calls let through in the window [[t, t + minute)]. *)
Definition admitted_in (t : Z) (ts : list Z) : nat :=
  length (List.filter (fun x => (t <=? x) && (x <? t + minute)) ts).

(** The rate-limited methods of [TSDataFeed]: five decorators, five
    closures. *)
Inductive method :=
| fetch_volumn_price | fetch_stock_limit | fetch_stock_fundamental
| fetch_stock_dividend | fetch_stock_suspend.

#[global] Instance method_eq_dec : EqDecision method.
Proof. solve_decision. Defined.

Definition adapter := method -> closure.

(** Calls of any of the methods, in the order they get their lock: each
    steps the closure of its own method only. *)
Fixpoint run_adapter (max_calls_per_minute : Z) (a : adapter)
    (ps : list (method * pass)) : adapter * list Z :=
  match ps with
  | [] => (a, [])
  | (m, p) :: ps' =>
      let '(c', t) := wrapper max_calls_per_minute (a m) p in
      let a' := fun m' => if decide (m' = m) then c' else a m' in
      let '(a'', ts) := run_adapter max_calls_per_minute a' ps' in
      (a'', t :: ts)
  end.

(** Two calls with [2 * N] or more calls between their places in the
    order are a minute or more apart. *)
Definition spread (N : Z) (ts : list Z) : Prop :=
  forall (i j : nat) (a b : Z),
    ts !! i = Some a -> ts !! j = Some b -> (i + 2 * Z.to_nat N <= j)%nat ->
    a + minute <= b.

(** What the closure knows about the calls let through so far: the last
    [calls] of them belong to the window that started at [start_time], the
    (at most [N]) before those to the window before, and all earlier ones
    are a minute or more older than [start_time]. *)
Definition window_inv (N : Z) (c : closure) (last : Z) (ts : list Z) : Prop :=
  exists old prev cur : list Z,
    ts = old ++ prev ++ cur
    /\ Z.of_nat (length cur) = calls c /\ calls c <= N
    /\ Z.of_nat (length prev) <= N
    /\ Forall (fun x => x + minute <= start_time c) old
    /\ Forall (fun x => x <= start_time c) prev
    /\ Forall (fun x => x <= last) ts
    /\ start_time c <= last
    /\ spread N ts.

(** A burst of [n] calls at one reading of the clock. *)
Definition burst (n : nat) (t : Z) : list pass :=
  repeat {| current_time := t; lag := 0 |} n.

(** Five hundred calls late in the first window, five hundred early in the
    second. *)
Definition straddle : list pass := burst 500 59000 ++ burst 500 60001.

(** Five hundred calls of one method and five hundred of another, all at
    once. *)
Definition two_methods : list (method * pass) :=
  map (pair fetch_volumn_price) (burst 500 1000)
  ++ map (pair fetch_stock_limit) (burst 500 1000).

End Limiter.

(* ===================================================================== *)
(** ** [DatabaseConnection], [ConnectionBuilder], [connection_factory] *)
(* ===================================================================== *)

Module Conn.

(** A configuration value or attribute. *)
Inductive value := VNone | VStr (s : string) | VInt (n : Z).

(** The attributes [DatabaseConnection.__init__] sets. *)
Record attrs := {
  host : value; port : value; username : value; password : value;
  data_path : value; factor_path : value
}.

(** The class attribute [_instance] and the objects of the class, by
    identity. *)
Record classes := {
  _instance : option nat;
  heap : gmap nat attrs
}.

Definition C (A : Type) : Type := classes -> result A * classes.

(** [DatabaseConnection.__new__] *)
Definition __new__ : C nat :=
  fun s =>
    match _instance s with
    | None =>
        let obj := fresh (dom (heap s)) in
        (Ok obj, {| _instance := Some obj;
                    heap := <[obj := Build_attrs VNone VNone VNone VNone VNone VNone]>
                              (heap s) |})
    | Some obj => (Ok obj, s)
    end.

(** Keyword arguments: a parameter not given takes its default [None]. *)
Definition kwarg (config : gmap string value) (name : string) : value :=
  default VNone (config !! name).

(** [DatabaseConnection.__init__], called with the keywords [config] *)
Definition __init__ (self : nat) (config : gmap string value) : C unit :=
  fun s =>
    (Ok tt, {| _instance := _instance s;
               heap := <[self := {| host := kwarg config "host";
                                    port := kwarg config "port";
                                    username := kwarg config "username";
                                    password := kwarg config "password";
                                    data_path := kwarg config "data_path";
                                    factor_path := kwarg config "factor_path" |}]>
                         (heap s) |}).

(** Calling the class with the keywords [config]: [__new__], then
    [__init__] on what it returned. *)
Definition DatabaseConnection (config : gmap string value) : C nat :=
  fun s =>
    match __new__ s with
    | (Ok obj, s') =>
        match __init__ obj config s' with
        | (Ok _, s'') => (Ok obj, s'')
        | (Raise e, s'') => (Raise e, s'')
        end
    | (Raise e, s') => (Raise e, s')
    end.

(** [_config] of a [ConnectionBuilder] made from the keywords [entry]: the
    four named parameters; other keys of the entry fall into the extra
    keywords and are dropped. *)
Definition ConnectionBuilder (entry : gmap string value) : gmap string value :=
  <["host" := kwarg entry "host"]>
  (<["port" := kwarg entry "port"]>
  (<["username" := kwarg entry "username"]>
  (<["password" := kwarg entry "password"]> ∅))).

Definition set_data_file_path (file_path : value) (_config : gmap string value)
  : gmap string value := <["data_path" := file_path]> _config.

Definition set_factor_file_path (file_path : value) (_config : gmap string value)
  : gmap string value := <["factor_path" := file_path]> _config.

Definition build (_config : gmap string value) : C nat := DatabaseConnection _config.

(** [connection_factory(db_type)] over [database_cfg], the [database] part of
    [db_config.yaml]. *)
Definition connection_factory (database_cfg : gmap string (gmap string value))
    (db_type : string) : C nat :=
  fun s =>
    match database_cfg !! db_type with
    | None => (Raise (KeyError db_type), s)
    | Some entry =>
        let builder := ConnectionBuilder entry in
        if String.eqb db_type "mongodb" then build builder s
        else if String.eqb db_type "duckdb" || String.eqb db_type "chdb" then
          match entry !! "data_path" with
          | None => (Raise (KeyError "data_path"), s)
          | Some dp =>
              match entry !! "factor_path" with
              | None => (Raise (KeyError "factor_path"), s)
              | Some fp =>
                  build (set_factor_file_path fp (set_data_file_path dp builder)) s
              end
          end
        else (Raise NotImplementedError, s)
    end.

(** A backend the factory supports, with the paths it reads in place. *)
Definition configured (db_type : string) (entry : gmap string value) : Prop :=
  db_type = "mongodb"
  \/ ((db_type = "duckdb" \/ db_type = "chdb")
      /\ is_Some (entry !! "data_path") /\ is_Some (entry !! "factor_path")).

(** The attributes a connection for [db_type] is given from its entry:
    what the entry does not name is [None], and so are both paths for
    mongodb. *)
Definition attrs_for (db_type : string) (entry : gmap string value) : attrs :=
  {| host := kwarg entry "host";
     port := kwarg entry "port";
     username := kwarg entry "username";
     password := kwarg entry "password";
     data_path := if String.eqb db_type "mongodb" then VNone
                  else kwarg entry "data_path";
     factor_path := if String.eqb db_type "mongodb" then VNone
                    else kwarg entry "factor_path" |}.

(** A configuration with a document store and a file store. *)
Definition sample_cfg : gmap string (gmap string value) :=
  <["mongodb" := <["host" := VStr "localhost"]> (<["port" := VInt 27017]> ∅)]>
  (<["duckdb" := <["data_path" := VStr "/data/frozen.duckdb"]>
                 (<["factor_path" := VStr "/data/factor.duckdb"]> ∅)]> ∅).

Definition fresh_process : classes := {| _instance := None; heap := ∅ |}.

End Conn.

(* ===================================================================== *)
(** ** Scenarios *)
(* ===================================================================== *)

Module Scenario.

Definition day (y m d : Z) : Z := Date._ymd2ord y m d.

(** A calendar where every day is a trade day. *)
Definition every_day : Calendar := {|
  next_trade_day := fun c =>
    match c with
    | CTimestamp t => Ok (t + 1)
    | _ => Raise NotImplementedError
    end;
  get_trade_day := fun _ _ => Ok []
|}.

(** A source that has nothing on any endpoint. *)
Definition silent : Source := {|
  pro_bar := fun _ _ _ _ _ => Frame [];
  stk_limit := fun _ _ _ => Frame [];
  daily_basic := fun _ _ _ => Frame [];
  dividend := fun _ => Frame [];
  suspend_d := fun _ => Frame [];
  stock_basic := fun _ => Frame []
|}.

Definition no_state : state := State ∅ [] [] [].

Definition final {A} (m : M A) (s : state) : state := snd (m s).
Definition outcome {A} (m : M A) (s : state) : result A := fst (m s).

(** *** Price table holding one ticker through 2023-01-05 *)

Definition w_2023_01_10 : World :=
  {| src := silent; cal := every_day; today := day 2023 1 10 |}.

Definition prices_to_jan5 : state :=
  State (<["stock_daily" :=
            Table "trade_date" [Row "000001.SZ" (day 2023 1 4) [10];
                                Row "000001.SZ" (day 2023 1 5) [11]]]> ∅)
        [] [] [].

Definition manager (db : Manager.backend) (tickers : list string) (today : Z)
  : Manager.DataFeedManager :=
  {| Manager.source := "tushare";
     Manager.database := db;
     Manager.ticker_list := tickers;
     Manager.start_date := "20050101";
     Manager.end_date := "20231231";
     Manager.data_feeds :=
       map (fun t => {| Feed.ticker := Some t; Feed.START := "20050101";
                        Feed.END := "20231231";
                        Feed.TODAY := Date.strftime today |}) tickers;
     Manager.TODAY := Date.strftime today |}.

(** *** Dividend table holding one ticker through 2023-03-01 *)

Definition dividends_to_mar1 : state :=
  State (<["stock_dividend" :=
            Table "ex_date" [Row "000001.SZ" (day 2023 3 1) [5]]]> ∅)
        [] [] [].

(** The source lists the dividend already stored and one on each of the
    three days after it. *)
Definition four_dividends : Source := {|
  pro_bar := fun _ _ _ _ _ => Frame [];
  stk_limit := fun _ _ _ => Frame [];
  daily_basic := fun _ _ _ => Frame [];
  dividend := fun _ =>
    Frame [Div "000001.SZ" (Some "20230301") [5];
           Div "000001.SZ" (Some "20230302") [6];
           Div "000001.SZ" (Some "20230303") [7];
           Div "000001.SZ" (Some "20230304") [8]];
  suspend_d := fun _ => Frame [];
  stock_basic := fun _ => Frame []
|}.

Definition w_2023_03_10 : World :=
  {| src := four_dividends; cal := every_day; today := day 2023 3 10 |}.

(** *** A source with one bar for every ticker *)

Definition one_bar (code : option string) : list bar :=
  match code with
  | Some c => [Bar c "20230103" [10]]
  | None => []
  end.

Definition one_bar_each : Source := {|
  pro_bar := fun code _ _ _ _ => Frame (one_bar code);
  stk_limit := fun _ _ _ => Frame [];
  daily_basic := fun _ _ _ => Frame [];
  dividend := fun _ => Frame [];
  suspend_d := fun _ => Frame [];
  stock_basic := fun _ => Frame []
|}.

Definition w_one_bar : World :=
  {| src := one_bar_each; cal := every_day; today := day 2023 1 10 |}.

(** *** A source that fails on one ticker *)

Definition fails_on_first : Source := {|
  pro_bar := fun code _ _ _ _ =>
    if bool_decide (code = Some "000001.SZ") then Raises (SourceError "timeout")
    else Frame (one_bar code);
  stk_limit := fun _ _ _ => Frame [];
  daily_basic := fun _ _ _ => Frame [];
  dividend := fun _ => Frame [];
  suspend_d := fun _ => Frame [];
  stock_basic := fun _ => Frame []
|}.

Definition w_failing : World :=
  {| src := fails_on_first; cal := every_day; today := day 2023 1 10 |}.

(** *** A source without reference data *)

Definition no_basic : Source := {|
  pro_bar := fun _ _ _ _ _ => Frame [];
  stk_limit := fun _ _ _ => Frame [];
  daily_basic := fun _ _ _ => Frame [];
  dividend := fun _ => Frame [];
  suspend_d := fun _ => Frame [];
  stock_basic := fun _ => ReturnsNone
|}.

Definition w_no_basic : World :=
  {| src := no_basic; cal := every_day; today := day 2023 1 10 |}.

(** *** A suspension table without rows *)

Definition empty_suspend : state :=
  State (<["stock_suspend_status" := Table "trade_date" []]> ∅) [] [] [].

(** *** A run on 2026-11-03 *)

Definition w_2026_11_03 : World :=
  {| src := silent; cal := every_day; today := day 2026 11 3 |}.

End Scenario.

(* ===================================================================== *)
(** ** What the operations keep *)
(* ===================================================================== *)

(** The steps that leave the database as it is, and insert nothing. *)
Definition keeps_store {A} (m : M A) : Prop :=
  forall s, db (snd (m s)) = db s /\ inserts (snd (m s)) = inserts s.

(** From [s] to [s'] nothing stored was lost or rewritten: the tables
    other than [table_name] are what they were, and [table_name], if it was
    there, has its date column and its rows of before, with rows added after
    them at most. *)
Definition only_appends_to (table_name : string) (s s' : state) : Prop :=
  (forall tn, tn <> table_name -> db s' !! tn = db s !! tn)
  /\ (forall t, db s !! table_name = Some t ->
        exists more,
          db s' !! table_name = Some (Table (t_date_col t) (t_rows t ++ more))).

(** [m] is the latest day stored for [code]: a row of [code] has it, and no
    row of [code] is later. *)
Definition latest_of (code : string) (rows : list row) (m : Z) : Prop :=
  (exists r, r ∈ rows /\ ts_code r = code /\ date r = m)
  /\ (forall r, r ∈ rows -> ts_code r = code -> date r <= m).

(** [m] is the latest day stored at all. *)
Definition latest_day (rows : list row) (m : Z) : Prop :=
  (exists r, r ∈ rows /\ date r = m) /\ (forall r, r ∈ rows -> date r <= m).

(** The date column a table must have for [_get_table_date] to read it. *)
Definition date_column_of (table_name : string) : string :=
  if String.eqb table_name "stock_dividend" then "ex_date" else "trade_date".

(** The month and day as [strftime("%Y-%m-%d")] writes them after the year,
    and whether they are read back. *)
Definition md_text_dash (m dd : Z) : string :=
  String "-"%char (String (Date.digit_char (m / 10)) (String (Date.digit_char m)
  (String "-"%char (String (Date.digit_char (dd / 10)) (String (Date.digit_char dd)
  EmptyString))))).

Definition md_ok_dash (m dd : Z) : bool :=
  match Date.md_match (Some "-"%char) (md_text_dash m dd) with
  | Some (m', dd', EmptyString) => (m' =? m) && (dd' =? dd)
  | _ => false
  end.

(** A source whose suspension endpoint does not fail and writes dates that
    can be read. *)
Definition suspend_never_fails (w : World) : Prop :=
  forall tradeday,
    match suspend_d (src w) tradeday with
    | Raises _ => False
    | ReturnsNone => True
    | Frame bars => is_ok (Feed.convert_bars bars) = true
    end.

(** *** A suspension table holding two trade days *)

Module SuspendScenario.
Import Scenario.

(** A calendar whose trade days are 2023-01-03 and 2023-01-04, whatever the
    range asked for. *)
Definition two_days : Calendar := {|
  next_trade_day := fun c =>
    match c with
    | CTimestamp t => Ok (t + 1)
    | _ => Raise NotImplementedError
    end;
  get_trade_day := fun _ _ => Ok [day 2023 1 3; day 2023 1 4]
|}.

Definition w_two_days : World :=
  {| src := silent; cal := two_days; today := day 2023 1 10 |}.

Definition both_days_stored : state :=
  State (<["stock_suspend_status" :=
            Table "trade_date" [Row "000001.SZ" (day 2023 1 3) [1];
                                Row "000002.SZ" (day 2023 1 4) [1]]]> ∅)
        [] [] [].

End SuspendScenario.

(** [r] is what the feed makes of the dividend [d], whose ex-date is
    [ex_date]. *)
Definition row_of_dividend (d : div) (ex_date : string) (r : row) : Prop :=
  div_ex_date d = Some ex_date
  /\ Feed.to_datetime ex_date = Ok (date r)
  /\ ts_code r = div_code d /\ vals r = div_vals d.

(** Every ex-date of the frame can be read. *)
Definition ex_dates_readable (divs : list div) : Prop :=
  forall d e, d ∈ divs -> div_ex_date d = Some e -> is_ok (Feed.to_datetime e) = true.

(** No frame without rows was handed to the insert. *)
Definition no_empty_insert (s : state) : Prop :=
  Forall (fun p : string * list row => snd p <> []) (inserts s).

(* ===================================================================== *)
(** ** More on [rate_limiter] *)
(* ===================================================================== *)

Module LimiterFacts.
Import Limiter.

(** The readings of a list come in order of time. *)
Definition in_order (ts : list Z) : Prop :=
  forall (i j : nat) (a b : Z),
    (i <= j)%nat -> ts !! i = Some a -> ts !! j = Some b -> a <= b.

(** The passes of method [m] among calls of any method, and the readings
    at which they were let through. *)
Definition passes_of (m : method) (ps : list (method * pass)) : list pass :=
  map snd (List.filter (fun x => bool_decide (fst x = m)) ps).

Definition readings_of (m : method) (ps : list (method * pass)) (ts : list Z)
  : list Z :=
  map snd (List.filter (fun x => bool_decide (fst (fst x) = m)) (zip ps ts)).

End LimiterFacts.

(* ===================================================================== *)
(** ** More on the connection object *)
(* ===================================================================== *)

Module ConnFacts.
Import Conn.

(** The class has made no object yet, or exactly the one [_instance]
    names. *)
Definition one_object (s : classes) : Prop :=
  match _instance s with
  | None => heap s = ∅
  | Some obj => dom (heap s) = {[ obj ]}
  end.

(** The errors [connection_factory] can end with, by what is wrong with
    the configuration. *)
Definition factory_error (cfg : gmap string (gmap string value))
    (db_type : string) (e : exn) : Prop :=
  match cfg !! db_type with
  | None => e = KeyError db_type
  | Some entry =>
      if String.eqb db_type "duckdb" || String.eqb db_type "chdb" then
        (entry !! "data_path" = None /\ e = KeyError "data_path")
        \/ (is_Some (entry !! "data_path") /\ entry !! "factor_path" = None
            /\ e = KeyError "factor_path")
      else db_type <> "mongodb" /\ e = NotImplementedError
  end.

End ConnFacts.

(* ===================================================================== *)
(** ** The trading calendar ([utils/calendar.py]) *)
(* ===================================================================== *)

Module Cal.

(** [date.weekday()]: Monday is 0, Sunday 6. *)
Definition weekday (date : Z) : Z := (date + 6) mod 7.

(** [holidays.WEEKEND]: Saturday and Sunday. *)
Definition WEEKEND : list Z := [5; 6].

Section Holidays.

(** [chinese_calendar.is_holiday], a table of the package; it raises for a
    day of a year the table does not cover. *)
Variable is_holiday : Z -> result bool.

(** [date.weekday() in holidays.WEEKEND or cn_calendar.is_holiday(date)]:
    the table is not asked about a Saturday or Sunday. *)
Definition closed (date : Z) : result bool :=
  if bool_decide (weekday date ∈ WEEKEND) then Ok true else is_holiday date.

(** [Calendar.is_tradeday] *)
Definition is_tradeday (date : Z) : result bool :=
  match closed date with
  | Ok c => Ok (if c then false else true)
  | Raise e => Raise e
  end.

(** [pd.date_range(start_date, end_date)]: every day from the first to the
    last, none if the last is before the first. *)
Definition date_range (start_date end_date : Z) : list Z :=
  seqZ start_date (end_date - start_date + 1).

(** [[date for date in dates if self.is_tradeday(date)]] *)
Fixpoint tradedays_of (dates : list Z) : result (list Z) :=
  match dates with
  | [] => Ok []
  | date :: dates' =>
      match is_tradeday date with
      | Raise e => Raise e
      | Ok keep =>
          match tradedays_of dates' with
          | Raise e => Raise e
          | Ok days => Ok (if keep then date :: days else days)
          end
      end
  end.

(** [Calendar.get_trade_day] on two days *)
Definition get_trade_day (start_date end_date : Z) : result (list Z) :=
  tradedays_of (date_range start_date end_date).

(** The loop of [next_trade_day], from the candidate [day] on.  A
    [pd.Timestamp] cannot pass [Timestamp.max], so [fuel] days to that bound
    are all the loop can take. *)
Fixpoint scan (fuel : nat) (day : Z) : result Z :=
  match closed day with
  | Raise e => Raise e
  | Ok false => Ok day
  | Ok true =>
      match Manager.Timestamp_add day 1 with
      | Raise e => Raise e
      | Ok day' =>
          match fuel with
          | O => Raise OutOfBoundsDatetime
          | S fuel' => scan fuel' day'
          end
      end
  end.

(** [Calendar.next_trade_day] on a [pd.Timestamp] *)
Definition next_trade_day (date : Z) : result Z :=
  match Manager.Timestamp_add date 1 with
  | Raise e => Raise e
  | Ok day => scan (Z.to_nat (Date.Timestamp_max - day)) day
  end.

End Holidays.

(** The days of a list come in ascending order, no day twice. *)
Definition ascending (days : list Z) : Prop :=
  forall (i j : nat) (a b : Z),
    (i < j)%nat -> days !! i = Some a -> days !! j = Some b -> a < b.

End Cal.

(** The calendar of the world [w] is [Calendar] over the holiday table
    [is_holiday], for the arguments the engine hands it: a [pd.Timestamp],
    or a date written [YYYYMMDD]. *)
Definition as_day (c : cell) : option (result Z) :=
  match c with
  | CTimestamp t => Some (Ok t)
  | CStr s => Some (Feed.to_datetime s)
  | CNull => None
  end.

Definition follows_calendar (w : World) (is_holiday : Z -> result bool) : Prop :=
  (forall c r, as_day c = Some r ->
     next_trade_day (cal w) c
     = match r with Ok date => Cal.next_trade_day is_holiday date | Raise e => Raise e end)
  /\ (forall c1 c2 r1 r2, as_day c1 = Some r1 -> as_day c2 = Some r2 ->
        get_trade_day (cal w) c1 c2
        = match r1, r2 with
          | Ok a, Ok b => Cal.get_trade_day is_holiday a b
          | Raise e, _ => Raise e
          | _, Raise e => Raise e
          end).


(** *** A calendar without holidays, and a suspension table through a Friday *)

Module CalendarScenario.
Import Scenario.

Definition no_holidays (date : Z) : result bool := Ok false.

(** [Calendar] over [no_holidays]; what it answers to a null date is the
    scenario's choice. *)
Definition weekdays : Calendar := {|
  next_trade_day := fun c =>
    match as_day c with
    | Some (Ok date) => Cal.next_trade_day no_holidays date
    | Some (Raise e) => Raise e
    | None => Raise NotImplementedError
    end;
  get_trade_day := fun c1 c2 =>
    match as_day c1, as_day c2 with
    | Some (Ok a), Some (Ok b) => Cal.get_trade_day no_holidays a b
    | Some (Raise e), _ => Raise e
    | _, Some (Raise e) => Raise e
    | _, _ => Raise ValueError
    end
|}.

Definition w_weekdays : World :=
  {| src := silent; cal := weekdays; today := day 2023 1 10 |}.

(** The suspension table holds Thursday 2023-01-05 and Friday 2023-01-06. *)
Definition suspended_to_jan6 : state :=
  State (<["stock_suspend_status" :=
            Table "trade_date" [Row "000001.SZ" (day 2023 1 5) [1];
                                Row "000002.SZ" (day 2023 1 6) [1]]]> ∅)
        [] [] [].

End CalendarScenario.

(* ===================================================================== *)
(** ** The configuration ([config/config.py]) *)
(* ===================================================================== *)

Module Config.

(** [str.replace(old, new)] for an [old] that is not empty: the text is
    read from the left, and each place where [old] starts, outside an
    occurrence already replaced, gets [new].  [skip] counts the characters
    of the occurrence being replaced that are still to be passed. *)
Fixpoint replace_from (old new : string) (skip : nat) (s : string) : string :=
  match s with
  | EmptyString => EmptyString
  | String c rest =>
      match skip with
      | S skip' => replace_from old new skip' rest
      | O =>
          if String.prefix old s
          then new +:+ replace_from old new (String.length old - 1) rest
          else String c (replace_from old new O rest)
      end
  end.

Definition replace (old new s : string) : string := replace_from old new 0 s.

Definition placeholder : string := "$proj_path$".

(** [DatabaseConfig.format_config_str] *)
Definition format_config_str (proj_path config_str : string) : string :=
  replace placeholder proj_path config_str.

(** What [yamler(...).get_all_fields()] gives: mappings, sequences, texts,
    and the other scalars. *)
Inductive scalar : Type :=
| SNone
| SBool (b : bool)
| SInt (n : Z)
| SFloat (repr : string).

#[local] Unset Elimination Schemes.
Inductive config : Type :=
| CDict (items : list (string * config))
| CList (items : list config)
| CText (s : string)
| COther (v : scalar).
#[local] Set Elimination Schemes.

(** [DatabaseConfig.replace_proj_path] *)
Fixpoint replace_proj_path (proj_path : string) (c : config) : config :=
  match c with
  | CDict items =>
      CDict (map (fun '(k, v) => (k, replace_proj_path proj_path v)) items)
  | CList items => CList (map (replace_proj_path proj_path) items)
  | CText s => CText (replace placeholder proj_path s)
  | COther v => c
  end.

(** A configuration with its texts blanked: the keys, the order, the
    nesting and the other scalars. *)
Fixpoint skeleton (c : config) : config :=
  match c with
  | CDict items => CDict (map (fun '(k, v) => (k, skeleton v)) items)
  | CList items => CList (map skeleton items)
  | CText _ => CText ""
  | COther v => c
  end.

(** No text of the configuration has a dollar sign (keys are not texts of
    the configuration). *)
Fixpoint dollar_free (c : config) : bool :=
  match c with
  | CDict items => forallb (fun '(k, v) => dollar_free v) items
  | CList items => forallb dollar_free items
  | CText s => negb (contains_char "$"%char s)
  | COther _ => true
  end.

End Config.

(* ===================================================================== *)
(** ** Dispatching tasks ([parallel_task] in [utils/util.py]) *)
(* ===================================================================== *)

Module Dispatch.

(** [s.split(sep)] for a separator of one character: the pieces between
    the separators, empty pieces included; a text without separator is its
    only piece. *)
Fixpoint split (sep : ascii) (s : string) : list string :=
  match s with
  | EmptyString => [EmptyString]
  | String c rest =>
      if Ascii.eqb c sep then EmptyString :: split sep rest
      else match split sep rest with
           | piece :: pieces => String c piece :: pieces
           | [] => [String c EmptyString]
           end
  end.

(** [l[-2]] *)
Definition second_to_last (l : list string) : result string :=
  match rev l with
  | _ :: piece :: _ => Ok piece
  | _ => Raise IndexError
  end.

(** The functions of [DataFeedManager], in the order of the source. *)
Definition functions : list string :=
  ["__init__"; "_load_datafeed"; "fetch_volumn_price_data"; "fetch_stock_limit_data";
   "fetch_stock_fundamental_data"; "fetch_stock_dividend_data";
   "fetch_stock_suspend_data"; "fetch_stock_basic_data"; "_check_table_exists";
   "_check_table_empty"; "_check_data_exists"; "_get_table_ticker";
   "_insert_df_to_table"; "_delete_table"; "_query"; "_check_validity";
   "_init_duckdb"; "_get_table_date"; "_get_ticker_date"].

(** [inspect.getmembers] lists the members sorted by name. *)
Fixpoint insert_sorted (name : string) (names : list string) : list string :=
  match names with
  | [] => [name]
  | n :: names' =>
      if String.leb name n then name :: names else n :: insert_sorted name names'
  end.

Definition getmembers (names : list string) : list string :=
  fold_right insert_sorted [] names.

(** [name.startswith("_")] *)
Definition starts_with_underscore (name : string) : bool :=
  match name with
  | String c _ => Ascii.eqb c "_"%char
  | EmptyString => false
  end.

Definition fetch_methods : list string :=
  List.filter (fun name => negb (starts_with_underscore name)) (getmembers functions).

(** [next((... for method in methods if piece in method[0].split("_")),
    manager.fetch_volumn_price_data)]: the generator works out the piece of
    the table name anew for each method it comes to. *)
Fixpoint next_match (table_name : string) (methods : list string) : result string :=
  match methods with
  | [] => Ok "fetch_volumn_price_data"
  | method :: methods' =>
      match second_to_last (split "_"%char table_name) with
      | Raise e => Raise e
      | Ok piece =>
          if bool_decide (piece ∈ split "_"%char method) then Ok method
          else next_match table_name methods'
      end
  end.

(** The method [parallel_task] queues for a task on [table_name]. *)
Definition fetch_func (table_name : string) : result string :=
  next_match table_name fetch_methods.

(** The method a table name is routed to, by the piece before its last
    one. *)
Definition routed (piece : string) : string :=
  if bool_decide (piece ∈ ["basic"; "data"; "fetch"; "stock"]) then "fetch_stock_basic_data"
  else if String.eqb piece "dividend" then "fetch_stock_dividend_data"
  else if String.eqb piece "fundamental" then "fetch_stock_fundamental_data"
  else if String.eqb piece "limit" then "fetch_stock_limit_data"
  else if String.eqb piece "suspend" then "fetch_stock_suspend_data"
  else "fetch_volumn_price_data".

End Dispatch.

(* ===================================================================== *)
(** ** The worker threads ([worker] and [parallel_task]) *)
(* ===================================================================== *)

Module Pool.

(** What is put on the queue: a method with the parameters of its task, or
    the [(None, (), {})] that tells a worker to leave. *)
Inductive item : Type :=
| Task (method table_name : string)
| Stop.

(** Where [parallel_task] is: queueing the tasks that are left, blocked in
    [task_queue.join()], putting the [todo] stops that are still to be put,
    blocked joining the threads, returned, or ended by the exception of a
    task that could not be dispatched. *)
Inductive phase : Type :=
| Queueing (rest : list string)
| Joining
| Stopping (todo : nat)
| Waiting
| Returned
| Failed (e : exn).

(** The queue with its count of unfinished tasks, the workers by what they
    are doing, and the main thread.  [threads] workers were started; a
    worker is blocked in [queue.get()] ([idle] of them), runs a task
    ([busy]), was ended by the exception of its task ([failed], with the
    tasks), or has left its loop ([gone]).  [finished] are the tasks run to
    their end. *)
Record pool := {
  threads : nat;
  queue : list item;
  unfinished : nat;
  idle : nat;
  busy : list string;
  failed : list string;
  gone : nat;
  finished : list string;
  main : phase
}.

(** [parallel_task(manager, tasks)] after its threads are started. *)
Definition start (tasks : list string) : pool :=
  {| threads := length tasks; queue := []; unfinished := 0;
     idle := length tasks; busy := []; failed := []; gone := 0; finished := [];
     main := Queueing tasks |}.

(** One step of one thread.  [Queue.put] appends and counts the item as
    unfinished; [Queue.get] takes the first item; [Queue.task_done] takes
    one off the count, and [Queue.join] lets through when the count is
    zero.  A task that raises ends its worker before [task_done]. *)
Inductive step : pool -> pool -> Prop :=
| put_task s table_name rest method :
    main s = Queueing (table_name :: rest) ->
    Dispatch.fetch_func table_name = Ok method ->
    step s {| threads := threads s; queue := queue s ++ [Task method table_name];
              unfinished := S (unfinished s); idle := idle s; busy := busy s;
              failed := failed s; gone := gone s; finished := finished s;
              main := Queueing rest |}
| dispatch_raises s table_name rest e :
    main s = Queueing (table_name :: rest) ->
    Dispatch.fetch_func table_name = Raise e ->
    step s {| threads := threads s; queue := queue s; unfinished := unfinished s;
              idle := idle s; busy := busy s; failed := failed s; gone := gone s;
              finished := finished s; main := Failed e |}
| all_queued s :
    main s = Queueing [] ->
    step s {| threads := threads s; queue := queue s; unfinished := unfinished s;
              idle := idle s; busy := busy s; failed := failed s; gone := gone s;
              finished := finished s; main := Joining |}
| queue_joined s :
    main s = Joining -> unfinished s = O ->
    step s {| threads := threads s; queue := queue s; unfinished := unfinished s;
              idle := idle s; busy := busy s; failed := failed s; gone := gone s;
              finished := finished s; main := Stopping (threads s) |}
| put_stop s todo :
    main s = Stopping (S todo) ->
    step s {| threads := threads s; queue := queue s ++ [Stop];
              unfinished := S (unfinished s); idle := idle s; busy := busy s;
              failed := failed s; gone := gone s; finished := finished s;
              main := Stopping todo |}
| all_stopped s :
    main s = Stopping O ->
    step s {| threads := threads s; queue := queue s; unfinished := unfinished s;
              idle := idle s; busy := busy s; failed := failed s; gone := gone s;
              finished := finished s; main := Waiting |}
| threads_joined s :
    main s = Waiting -> (length (failed s) + gone s = threads s)%nat ->
    step s {| threads := threads s; queue := queue s; unfinished := unfinished s;
              idle := idle s; busy := busy s; failed := failed s; gone := gone s;
              finished := finished s; main := Returned |}
| get_task s method table_name q n :
    queue s = Task method table_name :: q -> idle s = S n ->
    step s {| threads := threads s; queue := q; unfinished := unfinished s;
              idle := n; busy := table_name :: busy s; failed := failed s;
              gone := gone s; finished := finished s; main := main s |}
| get_stop s q n :
    queue s = Stop :: q -> idle s = S n ->
    step s {| threads := threads s; queue := q; unfinished := unfinished s;
              idle := n; busy := busy s; failed := failed s; gone := S (gone s);
              finished := finished s; main := main s |}
| task_done s b1 table_name b2 :
    busy s = b1 ++ table_name :: b2 ->
    step s {| threads := threads s; queue := queue s;
              unfinished := pred (unfinished s); idle := S (idle s);
              busy := b1 ++ b2; failed := failed s; gone := gone s;
              finished := table_name :: finished s; main := main s |}
| task_raises s b1 table_name b2 :
    busy s = b1 ++ table_name :: b2 ->
    step s {| threads := threads s; queue := queue s; unfinished := unfinished s;
              idle := idle s; busy := b1 ++ b2; failed := table_name :: failed s;
              gone := gone s; finished := finished s; main := main s |}.

(** A run of [n] steps, whatever the threads that take them. *)
Inductive run : nat -> pool -> pool -> Prop :=
| run_none s : run O s s
| run_more n s s' s'' : run n s s' -> step s' s'' -> run (S n) s s''.

(** The table names waiting in the queue. *)
Definition queued (q : list item) : list string :=
  flat_map (fun i => match i with Task _ table_name => [table_name] | Stop => [] end) q.

(** The stops waiting in the queue. *)
Definition stops (q : list item) : nat :=
  length (List.filter (fun i => match i with Stop => true | Task _ _ => false end) q).

(** The tasks main has still to queue. *)
Definition pending (p : phase) : list string :=
  match p with Queueing rest => rest | _ => [] end.

(** Every task is in one place: still to be queued, in the queue, being
    run, ended by its exception, or run to its end. *)
Definition placed (tasks : list string) (s : pool) : Prop :=
  Permutation tasks
    (pending (main s) ++ queued (queue s) ++ busy s ++ failed s ++ finished s).

(** What holds of the pool throughout: every thread is in one place; until
    main raises, every task is in one place; [task_queue.join()] has its
    count right while it matters; after it, nothing is left to run. *)
Definition consistent (tasks : list string) (s : pool) : Prop :=
  threads s = length tasks
  /\ (idle s + length (busy s) + length (failed s) + gone s = threads s)%nat
  /\ match main s with
     | Queueing _ | Joining =>
         placed tasks s
         /\ stops (queue s) = O /\ gone s = O
         /\ unfinished s
            = (length (queued (queue s)) + length (busy s) + length (failed s))%nat
     | Stopping todo =>
         placed tasks s
         /\ queued (queue s) = [] /\ busy s = [] /\ failed s = []
         /\ (stops (queue s) + gone s + todo = threads s)%nat
     | Waiting =>
         placed tasks s
         /\ queued (queue s) = [] /\ busy s = [] /\ failed s = []
         /\ (stops (queue s) + gone s = threads s)%nat
     | Returned =>
         placed tasks s
         /\ queued (queue s) = [] /\ busy s = [] /\ failed s = []
         /\ stops (queue s) = O /\ gone s = threads s
     | Failed e =>
         e = IndexError
         /\ exists table_name,
              table_name ∈ tasks /\ Dispatch.fetch_func table_name = Raise IndexError
     end.

(** What is left to do, in steps: three for a task still to be queued (put,
    get, end), two for a queued task, one for a running one; two for a stop
    still to be put, one for a queued stop; and the steps of the main
    thread from one phase to the next. *)
Definition ahead (count : nat) (p : phase) : nat :=
  match p with
  | Queueing rest => 3 * length rest + 2 * count + 4
  | Joining => 2 * count + 3
  | Stopping todo => 2 * todo + 2
  | Waiting => 1
  | Returned | Failed _ => 0
  end.

Definition weight (s : pool) : nat :=
  ahead (threads s) (main s) + 2 * length (queued (queue s)) + stops (queue s)
  + length (busy s).

End Pool.

(** One task on the table [stock_daily]: the pool after its call has
    raised, and after it has been run and everything has come to its end. *)
Module PoolScenario.

Definition one_task : list string := ["stock_daily"].

Definition raised : Pool.pool :=
  {| Pool.threads := 1; Pool.queue := []; Pool.unfinished := 1; Pool.idle := 0;
     Pool.busy := []; Pool.failed := ["stock_daily"]; Pool.gone := 0;
     Pool.finished := []; Pool.main := Pool.Queueing [] |}.

Definition returned : Pool.pool :=
  {| Pool.threads := 1; Pool.queue := []; Pool.unfinished := 1; Pool.idle := 0;
     Pool.busy := []; Pool.failed := []; Pool.gone := 1;
     Pool.finished := ["stock_daily"]; Pool.main := Pool.Returned |}.

End PoolScenario.

(* ===================================================================== *)
(** * Properties *)
(* ===================================================================== *)

(** ** Dates *)

Section DateFacts.
Import Date.

Lemma all_from_spec (P : Z -> bool) (n : nat) :
  forall lo, all_from n lo P = true ->
  forall z, lo <= z < lo + Z.of_nat n -> P z = true.
Proof.
  induction n as [|n IH]; intros lo H z Hz; [lia|].
  simpl in H. destruct (P lo) eqn:E; [|discriminate].
  destruct (Z.eq_dec z lo) as [->|Hne]; [exact E|].
  apply (IH (lo + 1) H). lia.
Qed.

(** [_ord2ymd] is its two halves put together. *)
Lemma ord2ymd_split d :
  _ord2ymd d =
  let '(n400, n100, n4, n1, r) := year_split (d - 1) in
  let year := n400 * 400 + 1 + n100 * 100 + n4 * 4 + n1 in
  if (n1 =? 4) || (n100 =? 4) then (year - 1, 12, 31)
  else let '(m, dd) := month_day ((n1 =? 3) && (negb (n4 =? 24) || (n100 =? 3))) r in
       (year, m, dd).
Proof.
  unfold _ord2ymd, year_split, month_day. cbv zeta.
  destruct (_ || _); [reflexivity|].
  destruct (_ <? _); reflexivity.
Qed.

Lemma year_split_spec n :
  0 <= n ->
  let '(n400, n100, n4, n1, r) := year_split n in
  let year := n400 * 400 + 1 + n100 * 100 + n4 * 4 + n1 in
  0 <= n400 /\ 0 <= r < 365 /\
  if (n1 =? 4) || (n100 =? 4)
  then _days_before_year (year - 1) + 365 = n /\ _is_leap (year - 1) = true
  else _days_before_year year + r = n
       /\ _is_leap year = ((n1 =? 3) && (negb (n4 =? 24) || (n100 =? 3))).
Proof.
  intros Hn. unfold year_split, _DI400Y, _DI100Y, _DI4Y.
  set (n400 := n / 146097). set (r400 := n mod 146097).
  set (n100 := r400 / 36524). set (r100 := r400 mod 36524).
  set (n4 := r100 / 1461). set (r4 := r100 mod 1461).
  set (n1 := r4 / 365). set (r := r4 mod 365).
  assert (E1 : n = 146097 * n400 + r400 /\ 0 <= r400 < 146097)
    by (subst n400 r400; split; [apply Z.div_mod; lia|apply Z.mod_pos_bound; lia]).
  assert (E2 : r400 = 36524 * n100 + r100 /\ 0 <= r100 < 36524)
    by (subst n100 r100; split; [apply Z.div_mod; lia|apply Z.mod_pos_bound; lia]).
  assert (E3 : r100 = 1461 * n4 + r4 /\ 0 <= r4 < 1461)
    by (subst n4 r4; split; [apply Z.div_mod; lia|apply Z.mod_pos_bound; lia]).
  assert (E4 : r4 = 365 * n1 + r /\ 0 <= r < 365)
    by (subst n1 r; split; [apply Z.div_mod; lia|apply Z.mod_pos_bound; lia]).
  clearbody n400 r400 n100 r100 n4 r4 n1 r.
  assert (0 <= n400) by lia.
  assert (0 <= n100 <= 4) by lia.
  assert (0 <= n4 <= 24) by lia.
  assert (0 <= n1 <= 4) by lia.
  repeat (split; [lia|]).
  unfold _days_before_year, _is_leap.
  destruct ((n1 =? 4) || (n100 =? 4)) eqn:Hsp.
  - apply orb_true_iff in Hsp. rewrite !Z.eqb_eq in Hsp.
    split.
    + Z.div_mod_to_equations; lia.
    + apply andb_true_iff. split.
      * apply Z.eqb_eq. Z.div_mod_to_equations; lia.
      * apply orb_true_iff.
        destruct (Z.eq_dec n100 4) as [H100|H100].
        -- right. apply Z.eqb_eq. Z.div_mod_to_equations; lia.
        -- left. apply negb_true_iff. apply Z.eqb_neq. Z.div_mod_to_equations; lia.
  - apply orb_false_iff in Hsp. rewrite !Z.eqb_neq in Hsp.
    split.
    + Z.div_mod_to_equations; lia.
    + apply eq_true_iff_eq.
      rewrite !andb_true_iff, !orb_true_iff, !negb_true_iff, !Z.eqb_eq, !Z.eqb_neq.
      split.
      * intros [H4 H100]. split; [Z.div_mod_to_equations; lia|].
        destruct (Z.eq_dec n4 24) as [E|E]; [right|left; exact E].
        destruct H100 as [H100|H100]; Z.div_mod_to_equations; lia.
      * intros [H4 H100]. split; [Z.div_mod_to_equations; lia|].
        destruct H100 as [H100|H100].
        -- left. Z.div_mod_to_equations; lia.
        -- destruct (Z.eq_dec n4 24) as [E|E].
           ++ right. Z.div_mod_to_equations; lia.
           ++ left. Z.div_mod_to_equations; lia.
Qed.


Lemma month_day_all (leapyear : bool) :
  all_from 365 0 (month_day_ok leapyear) = true.
Proof. destruct leapyear; vm_compute; reflexivity. Qed.

Lemma md_all : all_from 12 1 (fun m => all_from 31 1 (md_ok m)) = true.
Proof. vm_compute. reflexivity. Qed.

Lemma ord2ymd_date d :
  1 <= d <= _ymd2ord 9999 12 31 ->
  let '(y, m, dd) := _ord2ymd d in
  1 <= y <= 9999 /\ 1 <= m <= 12 /\ 1 <= dd <= 31 /\ date y m dd = Some d.
Proof.
  intros Hd. rewrite ord2ymd_split.
  pose proof (year_split_spec (d - 1) ltac:(lia)) as Hs.
  destruct (year_split (d - 1)) as [[[[n400 n100] n4] n1] r].
  cbv zeta in *. destruct Hs as (H400 & Hr & Hs).
  change (_ymd2ord 9999 12 31) with 3652059 in Hd.
  destruct ((n1 =? 4) || (n100 =? 4)).
  - destruct Hs as [Hdb Hleap].
    set (Y := n400 * 400 + 1 + n100 * 100 + n4 * 4 + n1 - 1) in *.
    assert (HY : 1 <= Y <= 9999).
    { unfold _days_before_year in Hdb. Z.div_mod_to_equations. lia. }
    repeat (split; [lia|]).
    unfold date, MINYEAR, MAXYEAR, _days_in_month, _ymd2ord, _days_before_month.
    rewrite Hleap. simpl.
    replace ((1 <=? Y) && (Y <=? 9999)) with true
      by (symmetry; apply andb_true_iff; split; apply Z.leb_le; lia).
    simpl. f_equal. lia.
  - destruct Hs as [Hdb Hleap].
    set (Y := n400 * 400 + 1 + n100 * 100 + n4 * 4 + n1) in *.
    set (leap := (n1 =? 3) && (negb (n4 =? 24) || (n100 =? 3))) in *.
    assert (HY : 1 <= Y <= 9999).
    { unfold _days_before_year in Hdb. Z.div_mod_to_equations. lia. }
    pose proof (all_from_spec _ _ _ (month_day_all leap) r ltac:(lia)) as Hm.
    unfold month_day_ok in Hm. destruct (month_day leap r) as [m dd].
    rewrite !andb_true_iff, !Z.leb_le, Z.eqb_eq in Hm.
    repeat match goal with H : _ /\ _ |- _ => destruct H end.
    repeat (split; [lia|]).
    unfold date, MINYEAR, MAXYEAR, _days_in_month, _ymd2ord, _days_before_month.
    rewrite Hleap.
    replace ((1 <=? Y) && (Y <=? 9999) && (1 <=? m) && (m <=? 12) && (1 <=? dd)
             && (dd <=? (if (m =? 2) && leap then 29 else _DAYS_IN_MONTH m)))
      with true.
    + f_equal. lia.
    + symmetry. rewrite !andb_true_iff, !Z.leb_le. lia.
Qed.

Lemma digit_val_char k : digit_val (digit_char k) = Some (k mod 10).
Proof.
  unfold digit_char.
  assert (H : 0 <= k mod 10 < 10) by (apply Z.mod_pos_bound; lia).
  destruct (k mod 10) as [|p|p]; [reflexivity| |lia].
  do 4 (destruct p as [p|p|]; try lia; try reflexivity).
Qed.

Lemma year_digits y :
  0 <= y <= 9999 ->
  digits2 (digit_char (y / 1000)) (digit_char (y / 100)) = Some (y / 100)
  /\ digits2 (digit_char (y / 10)) (digit_char y) = Some (y mod 100).
Proof.
  intros Hy. unfold digits2. rewrite !digit_val_char.
  split; f_equal; Z.div_mod_to_equations; lia.
Qed.

(** Reading back what [strftime] wrote gives the day again. *)
Lemma strptime_strftime d :
  1 <= d <= _ymd2ord 9999 12 31 -> strptime (strftime d) = Some d.
Proof.
  intros Hd. pose proof (ord2ymd_date d Hd) as H.
  unfold strftime. destruct (_ord2ymd d) as [[y m] dd].
  destruct H as (Hy & Hm & Hdd & Hdate).
  unfold strptime, strptime_sep.
  destruct (year_digits y ltac:(lia)) as [-> ->].
  pose proof (all_from_spec _ _ _ md_all m ltac:(lia)) as H1. cbv beta in H1.
  pose proof (all_from_spec _ _ _ H1 dd ltac:(lia)) as H2.
  unfold md_ok, md_text in H2.
  destruct (md_match None _) as [[[m' dd'] rest]|]; [|discriminate].
  destruct rest; [|discriminate].
  apply andb_true_iff in H2 as [E1 E2]. apply Z.eqb_eq in E1, E2. subst.
  replace (100 * (y / 100) + y mod 100) with y by (Z.div_mod_to_equations; lia).
  exact Hdate.
Qed.

Lemma in_bounds_days d :
  in_bounds d = true -> 612412 <= d <= 825914.
Proof.
  unfold in_bounds. rewrite andb_true_iff, !Z.leb_le.
  change Timestamp_min with 612412. change Timestamp_max with 825914. lia.
Qed.

Lemma in_bounds_range d :
  in_bounds d = true -> 1 <= d <= _ymd2ord 9999 12 31.
Proof.
  unfold in_bounds. rewrite andb_true_iff, !Z.leb_le.
  change Timestamp_min with 612412. change Timestamp_max with 825914.
  change (_ymd2ord 9999 12 31) with 3652059. lia.
Qed.

End DateFacts.

(** ** The watermark and the start of an extend-mode fetch *)

Section Watermark.
Import Manager.

Lemma lookup_code_cons ticker table_date c :
  lookup_code ticker table_date = Ok c -> table_date <> [].
Proof. intros H ->. discriminate H. Qed.

(** A [pd.Timestamp] watermark is shifted by both [if]s: the first writes
    text, which the second takes for a stored text date and shifts again. *)
Lemma get_ticker_date_Timestamp self table_date ticker shift t :
  database self <> chdb ->
  lookup_code ticker table_date = Ok (CTimestamp t) ->
  Date.in_bounds (t + shift) = true ->
  1 <= t + shift + shift <= Date._ymd2ord 9999 12 31 ->
  _get_ticker_date self table_date ticker shift
  = Ok (Some (Date.strftime (t + shift + shift))).
Proof.
  intros Hdb Hl Hb Hr. unfold _get_ticker_date.
  assert (Hlk : match database self with
                | mongodb => match table_date with
                             | [] => Raise (KeyError "_id")
                             | _ => lookup_code ticker table_date
                             end
                | duckdb => lookup_code ticker table_date
                | chdb => Raise (UnboundLocalError "ticker_date")
                end = Ok (CTimestamp t)).
  { destruct (database self); [congruence|exact Hl|].
    destruct table_date; [discriminate Hl|exact Hl]. }
  rewrite Hlk. unfold Timestamp_add. rewrite Hb.
  rewrite (strptime_strftime _ (in_bounds_range _ Hb)). unfold datetime_add.
  replace ((1 <=? t + shift + shift) && (t + shift + shift <=? Date._ymd2ord 9999 12 31))
    with true; [reflexivity|].
  symmetry. apply andb_true_iff. split; apply Z.leb_le; lia.
Qed.

(** A watermark stored as text goes through the second [if] only. *)
Lemma get_ticker_date_Str self table_date ticker shift t :
  database self <> chdb ->
  lookup_code ticker table_date = Ok (CStr (Date.strftime t)) ->
  Date.in_bounds t = true ->
  1 <= t + shift <= Date._ymd2ord 9999 12 31 ->
  _get_ticker_date self table_date ticker shift
  = Ok (Some (Date.strftime (t + shift))).
Proof.
  intros Hdb Hl Hb Hr. unfold _get_ticker_date.
  assert (Hlk : match database self with
                | mongodb => match table_date with
                             | [] => Raise (KeyError "_id")
                             | _ => lookup_code ticker table_date
                             end
                | duckdb => lookup_code ticker table_date
                | chdb => Raise (UnboundLocalError "ticker_date")
                end = Ok (CStr (Date.strftime t))).
  { destruct (database self); [congruence|exact Hl|].
    destruct table_date; [discriminate Hl|exact Hl]. }
  rewrite Hlk. rewrite (strptime_strftime _ (in_bounds_range _ Hb)). unfold datetime_add.
  replace ((1 <=? t + shift) && (t + shift <=? Date._ymd2ord 9999 12 31))
    with true; [reflexivity|].
  symmetry. apply andb_true_iff. split; apply Z.leb_le; lia.
Qed.

Import Scenario.

(** C1 (the code departs from the claim).  The price table holds
    ["000001.SZ"] through 2023-01-05.  The grouped maximum is that day, and
    the incremental update asks the source for the range that starts on
    2023-01-07, two days after it: 2023-01-06 is never fetched. *)
Theorem C1_extend_starts_two_days_after_watermark :
  let m := manager duckdb ["000001.SZ"] (day 2023 1 10) in
  _get_table_date m "stock_daily" prices_to_jan5
    = (Ok [("000001.SZ", CTimestamp (day 2023 1 5))], prices_to_jan5)
  /\ _get_ticker_date m [("000001.SZ", CTimestamp (day 2023 1 5))] "000001.SZ" 1
     = Ok (Some "20230107")
  /\ Date.strftime (day 2023 1 5 + 1) = "20230106"
  /\ calls (final (fetch_volumn_price_data w_2023_01_10 m "stock_daily" "E" "" true)
                  prices_to_jan5)
     = [Call_pro_bar (Some "000001.SZ") "20230107" "20230110" "E" ""].
Proof. vm_compute. repeat split; reflexivity. Qed.

End Watermark.

(** ** The dividend cutoff *)

Section DividendCutoff.
Import Manager Scenario.

(** C2 (the code departs from the claim).  The dividend table holds
    ["000001.SZ"] through 2023-03-01.  The cutoff handed to the feed is
    2023-03-03, the watermark shifted twice, and the feed keeps what is
    strictly after it: of the dividends of 03-01, 03-02, 03-03 and 03-04 only
    the last is inserted, and those of 03-02 and 03-03, both after the
    watermark, are lost. *)
Theorem C2_cutoff_drops_dividends_after_watermark :
  let m := manager duckdb ["000001.SZ"] (day 2023 3 10) in
  let run := fetch_stock_dividend_data w_2023_03_10 m "stock_dividend" true in
  _get_ticker_date m [("000001.SZ", CTimestamp (day 2023 3 1))] "000001.SZ" 1
    = Ok (Some "20230303")
  /\ outcome run dividends_to_mar1 = Ok tt
  /\ inserts (final run dividends_to_mar1)
     = [("stock_dividend", [Row "000001.SZ" (day 2023 3 4) [8]])]
  /\ (day 2023 3 1 < day 2023 3 2 < day 2023 3 4)
  /\ Feed.to_datetime "20230302" = Ok (day 2023 3 2)
  /\ Feed.to_datetime "20230303" = Ok (day 2023 3 3).
Proof. vm_compute. repeat split; reflexivity. Qed.

End DividendCutoff.

(** ** Empty and missing results *)

Section EmptyResults.
Import Manager Scenario.


End EmptyResults.

(** ** Reasoning about engine computations *)

Section Kit.

Lemma preserves_ret {A} I (a : A) : preserves I (ret a).
Proof. intros s H. exact H. Qed.

Lemma preserves_raise {A} I (e : exn) : preserves I (@raise A e).
Proof. intros s H. exact H. Qed.

Lemma preserves_lift {A} I (r : result A) : preserves I (lift r).
Proof. intros s H. exact H. Qed.

Lemma preserves_bind {A B} I (m : M A) (k : A -> M B) :
  preserves I m -> (forall a, preserves I (k a)) -> preserves I (bind m k).
Proof.
  intros Hm Hk s H. unfold bind. specialize (Hm s H).
  destruct (m s) as [[a|e] s']; simpl in *; [apply Hk; exact Hm|exact Hm].
Qed.

Lemma preserves_for_each {A} I (l : list A) (body : A -> M unit) :
  (forall x, x ∈ l -> preserves I (body x)) -> preserves I (for_each l body).
Proof.
  induction l as [|x l IH]; intros Hb; simpl.
  - apply preserves_ret.
  - apply preserves_bind.
    + apply Hb. left.
    + intros _. apply IH. intros y Hy. apply Hb. right. exact Hy.
Qed.

Lemma preserves_map_M {A B} I (f : A -> M B) (l : list A) :
  (forall x, x ∈ l -> preserves I (f x)) -> preserves I (map_M f l).
Proof.
  induction l as [|x l IH]; intros Hf; simpl.
  - apply preserves_ret.
  - apply preserves_bind; [apply Hf; left|]. intros y.
    apply preserves_bind; [|intros ys; apply preserves_ret].
    apply IH. intros z Hz. apply Hf. right. exact Hz.
Qed.

(** A [map_M] of steps that neither fail nor touch the state is a [map]. *)
Lemma map_M_pure {A B} (f : A -> M B) (g : A -> B) (l : list A) s :
  (forall x, x ∈ l -> f x s = (Ok (g x), s)) ->
  map_M f l s = (Ok (map g l), s).
Proof.
  induction l as [|x l IH]; intros Hf; simpl; [reflexivity|].
  unfold bind. rewrite (Hf x) by left.
  rewrite IH by (intros y Hy; apply Hf; right; exact Hy). reflexivity.
Qed.

Lemma for_each_app {A} (l1 l2 : list A) (body : A -> M unit) s :
  for_each (l1 ++ l2) body s
  = match for_each l1 body s with
    | (Ok _, s') => for_each l2 body s'
    | (Raise e, s') => (Raise e, s')
    end.
Proof.
  revert s. induction l1 as [|x l1 IH]; intros s; simpl.
  - destruct (for_each l2 body s) as [[[]|e] s']; reflexivity.
  - unfold bind. destruct (body x s) as [[[]|e] s']; [apply IH|reflexivity].
Qed.

Lemma returns_ret {A} (P : state -> Prop) (a : A) : returns P (ret a) (fun a' s => a' = a /\ P s).
Proof. intros s H. exists a, s. auto. Qed.

Lemma returns_bind {A B} P (m : M A) Q (k : A -> M B) R :
  returns P m Q -> (forall a, returns (Q a) (k a) R) -> returns P (bind m k) R.
Proof.
  intros Hm Hk s H. destruct (Hm s H) as (a & s' & E & HQ).
  destruct (Hk a s' HQ) as (b & s'' & E' & HR).
  exists b, s''. unfold bind. rewrite E. auto.
Qed.

Lemma returns_weaken {A} (P P' : state -> Prop) (m : M A) (Q Q' : A -> state -> Prop) :
  returns P m Q -> (forall s, P' s -> P s) -> (forall a s, Q a s -> Q' a s) ->
  returns P' m Q'.
Proof.
  intros Hm HP HQ s H. destruct (Hm s (HP s H)) as (a & s' & E & Hq).
  exists a, s'. auto.
Qed.

Lemma returns_for_each {A} (I : state -> Prop) (l : list A) (body : A -> M unit) :
  (forall x, x ∈ l -> returns I (body x) (fun _ => I)) ->
  returns I (for_each l body) (fun _ => I).
Proof.
  induction l as [|x l IH]; intros Hb; simpl.
  - intros s H. exists tt, s. auto.
  - eapply returns_bind; [apply Hb; left|]. intros ?. simpl.
    apply IH. intros y Hy. apply Hb. right. exact Hy.
Qed.

End Kit.

Ltac pres_step :=
  lazymatch goal with
  | |- preserves _ (bind _ _) => apply preserves_bind; [|intros ?]
  | |- preserves _ (ret _) => apply preserves_ret
  | |- preserves _ (raise _) => apply preserves_raise
  | |- preserves _ (lift _) => apply preserves_lift
  | |- preserves _ (for_each _ _) => apply preserves_for_each; intros ? ?
  | |- preserves _ (map_M _ _) => apply preserves_map_M; intros ? ?
  | |- preserves _ (match ?x with _ => _ end) => destruct x
  | |- preserves _ (let '(_, _) := ?x in _) => destruct x
  end.

(** ** What the engine's steps do to the list of source calls *)

Section Calls.
Import Manager.

Lemma silent_bind {A B} (m : M A) (k : A -> M B) :
  silent_step m -> (forall a, silent_step (k a)) -> silent_step (bind m k).
Proof.
  intros Hm Hk s. unfold bind. specialize (Hm s).
  destruct (m s) as [[a|e] s']; simpl in *; [rewrite Hk|]; exact Hm.
Qed.

Ltac silent :=
  intros s;
  repeat (unfold bind, get_db, ret, raise, lift, logger, logged, put_table,
            note_insert;
          simpl);
  repeat case_match; simplify_eq; simpl; try reflexivity.

Lemma silent_check_table_exists self tn : silent_step (_check_table_exists self tn).
Proof. unfold _check_table_exists. silent. Qed.

Lemma silent_check_table_empty self tn : silent_step (_check_table_empty self tn).
Proof. unfold _check_table_empty. silent. Qed.

Lemma silent_check_data_exists self tn k : silent_step (_check_data_exists self tn k).
Proof. unfold _check_data_exists. silent. Qed.

Lemma silent_get_table_ticker self tn : silent_step (_get_table_ticker self tn).
Proof. unfold _get_table_ticker. silent. Qed.

Lemma silent_get_table_date self tn : silent_step (_get_table_date self tn).
Proof. unfold _get_table_date. silent. Qed.

Lemma silent_insert self df tn : silent_step (_insert_df_to_table self df tn).
Proof. unfold _insert_df_to_table. silent. Qed.

Lemma silent_insert_or_skip self tn who data :
  silent_step (insert_or_skip self tn who data).
Proof.
  unfold insert_or_skip. destruct (negb (_check_validity data)).
  - intros s. reflexivity.
  - apply silent_insert.
Qed.

Lemma silent_create_table tn col : silent_step (create_table tn col).
Proof. intros s. reflexivity. Qed.

Lemma silent_logger lv msg : silent_step (logger lv msg).
Proof. intros s. reflexivity. Qed.

Lemma silent_lift {A} (r : result A) : silent_step (lift r).
Proof. intros s. reflexivity. Qed.

Lemma silent_ret {A} (a : A) : silent_step (ret a).
Proof. intros s. reflexivity. Qed.

Lemma silent_raise {A} (e : exn) : silent_step (@raise A e).
Proof. intros s. reflexivity. Qed.

Variable P : list api_call -> Prop.

Lemma silent_preserves {A} (m : M A) :
  silent_step m -> preserves (fun s => P (calls s)) m.
Proof. intros H s HP. rewrite H. exact HP. Qed.

Lemma call_preserves {R} c (r : reply R) :
  (forall l, P l -> P (l ++ [c])) -> preserves (fun s => P (calls s)) (call c r).
Proof.
  intros Hc s HP. unfold call, bind, record_call. simpl.
  destruct r; simpl; apply Hc; exact HP.
Qed.

(** A unit of a loop makes the calls its fetch makes, and no other. *)
Lemma extend_unit_preserves self tn who fetch :
  preserves (fun s => P (calls s)) fetch ->
  preserves (fun s => P (calls s)) (extend_unit self tn who fetch).
Proof.
  intros Hf. unfold extend_unit. apply preserves_bind; [exact Hf|].
  intros data. apply silent_preserves, silent_insert_or_skip.
Qed.

Lemma backfill_unit_preserves self tn key who fetch :
  preserves (fun s => P (calls s)) fetch ->
  preserves (fun s => P (calls s)) (backfill_unit self tn key who fetch).
Proof.
  intros Hf. unfold backfill_unit.
  apply preserves_bind; [apply silent_preserves, silent_check_data_exists|].
  intros [|r found]; [apply extend_unit_preserves; exact Hf|apply preserves_ret].
Qed.

Lemma fetch_volumn_price_preserves w feed asset adj (update : bool) :
  (forall l, P l ->
     P (l ++ [Call_pro_bar (Feed.ticker feed) (Feed.START feed)
                (if update then Feed.TODAY feed else Feed.END feed) asset adj])) ->
  preserves (fun s => P (calls s)) (Feed.fetch_volumn_price w feed asset adj update).
Proof.
  intros Hc. unfold Feed.fetch_volumn_price.
  apply preserves_bind; [apply call_preserves; exact Hc|].
  intros q. destruct (negb (Feed._check_validity q)); [apply preserves_ret|].
  apply preserves_bind; [apply preserves_lift|intros; apply preserves_ret].
Qed.

End Calls.

(** ** The default range of a full backfill *)

Section DefaultRange.
Import Manager Scenario.

Lemma parse_backend_name b : parse_backend (backend_name b) = Ok b.
Proof. destruct b; reflexivity. Qed.

(** The manager built without dates: the range is 2005-01-01 to
    2023-12-31, on the manager and on each of its feeds. *)
Lemma init_without_dates w b tickers s :
  __init__ w "tushare" (backend_name b) tickers None None s
  = (Ok (manager b tickers (today w)), s).
Proof.
  unfold __init__, bind, lift. rewrite parse_backend_name. simpl.
  unfold _load_datafeed, bind, ret. simpl.
  rewrite (map_M_pure _ (fun t => {| Feed.ticker := Some t; Feed.START := "20050101";
                                     Feed.END := "20231231";
                                     Feed.TODAY := Date.strftime (today w) |})).
  - reflexivity.
  - intros t _. reflexivity.
Qed.

Lemma elem_of_zip_map {A B} (f : A -> B) (l : list A) x y :
  (x, y) ∈ zip l (map f l) -> x ∈ l /\ y = f x.
Proof.
  induction l as [|a l IH]; simpl; intros H.
  - inversion H.
  - apply elem_of_cons in H as [H|H].
    + inversion H; subst. split; [left|reflexivity].
    + destruct (IH H) as [H1 H2]. split; [right; exact H1|exact H2].
Qed.



End DefaultRange.

(** ** A unit that fails, a unit without data *)

Section Units.
Import Manager Scenario.

(** What the price fetch makes of each kind of reply. *)
Lemma fetch_volumn_price_reply w feed asset adj (update : bool) s :
  let end_date := if update then Feed.TODAY feed else Feed.END feed in
  let c := Call_pro_bar (Feed.ticker feed) (Feed.START feed) end_date asset adj in
  Feed.fetch_volumn_price w feed asset adj update s
  = match pro_bar (src w) (Feed.ticker feed) (Feed.START feed) end_date asset adj with
    | Raises e => (Raise e, called c s)
    | ReturnsNone => (Ok None, called c s)
    | Frame [] => (Ok None, called c s)
    | Frame (b :: bars) =>
        match Feed.convert_bars (b :: bars) with
        | Ok rows => (Ok (Some rows), called c s)
        | Raise e => (Raise e, called c s)
        end
    end.
Proof.
  unfold Feed.fetch_volumn_price, call, bind, record_call, lift, ret, raise, called.
  cbv zeta. destruct (pro_bar _ _ _ _ _ _) as [e| |[|b bars]]; reflexivity.
Qed.

(** A unit whose fetch has nothing: one warning that names the table and
    the unit, nothing stored. *)
Lemma extend_unit_invalid self tn who fetch s s1 data :
  fetch s = (Ok data, s1) -> _check_validity data = false ->
  extend_unit self tn who fetch s = (Ok tt, logged WARNING (empty_warning tn who) s1).
Proof.
  intros Hf Hv. unfold extend_unit, bind, insert_or_skip. rewrite Hf, Hv. reflexivity.
Qed.

(** A unit whose fetch raises: the exception goes through. *)
Lemma extend_unit_raises self tn who fetch s s1 e :
  fetch s = (Raise e, s1) ->
  extend_unit self tn who fetch s = (Raise e, s1).
Proof. intros Hf. unfold extend_unit, bind. rewrite Hf. reflexivity. Qed.



End Units.

(** ** Incremental mode on a table without rows *)

Section EmptyTable.
Import Manager Scenario.

(** The four operations keyed by ticker check for rows first. *)
Lemma price_update_on_empty_table w self tn asset adj s :
  database self <> chdb ->
  (db s !! tn = None \/ exists col, db s !! tn = Some (Table col [])) ->
  outcome (fetch_volumn_price_data w self tn asset adj true) s
    = Raise (LookupError (table_is_empty_msg tn))
  /\ calls (final (fetch_volumn_price_data w self tn asset adj true) s) = calls s
  /\ inserts (final (fetch_volumn_price_data w self tn asset adj true) s) = inserts s.
Proof.
  intros Hdb Ht. unfold outcome, final, fetch_volumn_price_data.
  cbv beta iota zeta delta [bind _check_table_exists _check_table_empty get_db
    ret raise create_table put_table logger logged].
  destruct Ht as [Ht|[col Ht]]; rewrite Ht; cbn [negb db log calls inserts fst snd].
  - rewrite lookup_insert_eq. destruct (database self); [congruence| |]; cbn; auto.
  - rewrite Ht. destruct (database self); [congruence| |]; cbn; auto.
Qed.

Lemma limit_update_on_empty_table w self tn s :
  database self <> chdb ->
  (db s !! tn = None \/ exists col, db s !! tn = Some (Table col [])) ->
  outcome (fetch_stock_limit_data w self tn true) s
    = Raise (LookupError (table_is_empty_msg tn))
  /\ calls (final (fetch_stock_limit_data w self tn true) s) = calls s
  /\ inserts (final (fetch_stock_limit_data w self tn true) s) = inserts s.
Proof.
  intros Hdb Ht. unfold outcome, final, fetch_stock_limit_data.
  cbv beta iota zeta delta [bind _check_table_exists _check_table_empty get_db
    ret raise create_table put_table logger logged].
  destruct Ht as [Ht|[col Ht]]; rewrite Ht; cbn [negb db log calls inserts fst snd].
  - rewrite lookup_insert_eq. destruct (database self); [congruence| |]; cbn; auto.
  - rewrite Ht. destruct (database self); [congruence| |]; cbn; auto.
Qed.

Lemma fundamental_update_on_empty_table w self tn s :
  database self <> chdb ->
  (db s !! tn = None \/ exists col, db s !! tn = Some (Table col [])) ->
  outcome (fetch_stock_fundamental_data w self tn true) s
    = Raise (LookupError (table_is_empty_msg tn))
  /\ calls (final (fetch_stock_fundamental_data w self tn true) s) = calls s
  /\ inserts (final (fetch_stock_fundamental_data w self tn true) s) = inserts s.
Proof.
  intros Hdb Ht. unfold outcome, final, fetch_stock_fundamental_data.
  cbv beta iota zeta delta [bind _check_table_exists _check_table_empty get_db
    ret raise create_table put_table logger logged].
  destruct Ht as [Ht|[col Ht]]; rewrite Ht; cbn [negb db log calls inserts fst snd].
  - rewrite lookup_insert_eq. destruct (database self); [congruence| |]; cbn; auto.
  - rewrite Ht. destruct (database self); [congruence| |]; cbn; auto.
Qed.

Lemma dividend_update_on_empty_table w self tn s :
  database self <> chdb ->
  (db s !! tn = None \/ exists col, db s !! tn = Some (Table col [])) ->
  outcome (fetch_stock_dividend_data w self tn true) s
    = Raise (LookupError (table_is_empty_msg tn))
  /\ calls (final (fetch_stock_dividend_data w self tn true) s) = calls s
  /\ inserts (final (fetch_stock_dividend_data w self tn true) s) = inserts s.
Proof.
  intros Hdb Ht. unfold outcome, final, fetch_stock_dividend_data.
  cbv beta iota zeta delta [bind _check_table_exists _check_table_empty get_db
    ret raise create_table put_table logger logged].
  destruct Ht as [Ht|[col Ht]]; rewrite Ht; cbn [negb db log calls inserts fst snd].
  - rewrite lookup_insert_eq. destruct (database self); [congruence| |]; cbn; auto.
  - rewrite Ht. destruct (database self); [congruence| |]; cbn; auto.
Qed.


End EmptyTable.

(** ** The connection object *)

Section Singleton.
Import Conn.

Lemma builder_kwargs entry k :
  k = "host" \/ k = "port" \/ k = "username" \/ k = "password" ->
  kwarg (ConnectionBuilder entry) k = kwarg entry k.
Proof.
  intros [-> | [-> | [-> | ->]]]; unfold kwarg, ConnectionBuilder; simplify_map_eq; reflexivity.
Qed.

Lemma new_then_init config s :
  exists obj,
    DatabaseConnection config s
    = (Ok obj, {| _instance := Some obj;
                  heap := <[obj := {| host := kwarg config "host";
                                      port := kwarg config "port";
                                      username := kwarg config "username";
                                      password := kwarg config "password";
                                      data_path := kwarg config "data_path";
                                      factor_path := kwarg config "factor_path" |}]>
                            (heap (snd (__new__ s))) |})
    /\ (forall o, _instance s = Some o -> obj = o).
Proof.
  unfold DatabaseConnection, __new__, __init__.
  destruct (_instance s) as [o|] eqn:E.
  - exists o. cbn. rewrite E. split; [reflexivity|]. intros o' [= ->]. reflexivity.
  - eexists. cbn. split; [reflexivity|]. intros o' [=].
Qed.

Lemma factory_configured cfg db_type entry s :
  cfg !! db_type = Some entry -> configured db_type entry ->
  exists obj s',
    connection_factory cfg db_type s = (Ok obj, s')
    /\ _instance s' = Some obj
    /\ heap s' !! obj = Some (attrs_for db_type entry)
    /\ (forall o, _instance s = Some o -> obj = o).
Proof.
  intros Hc Hconf. unfold connection_factory. rewrite Hc.
  destruct Hconf as [-> | [Hdb [[dp Hdp] [fp Hfp]]]].
  - cbn [String.eqb Ascii.eqb Bool.eqb]. unfold build.
    destruct (new_then_init (ConnectionBuilder entry) s) as (obj & E & Hsame).
    exists obj. eexists. split; [exact E|]. cbn. split; [reflexivity|].
    split; [|exact Hsame]. rewrite lookup_insert_eq. reflexivity.
  - rewrite Hdp, Hfp.
    assert (Hne : String.eqb db_type "mongodb" = false) by (destruct Hdb as [-> | ->]; reflexivity).
    assert (Hor : String.eqb db_type "duckdb" || String.eqb db_type "chdb" = true) by (destruct Hdb as [-> | ->]; reflexivity).
    rewrite Hne, Hor. unfold build.
    destruct (new_then_init (set_factor_file_path fp (set_data_file_path dp (ConnectionBuilder entry))) s)
      as (obj & E & Hsame).
    exists obj. eexists. split; [exact E|]. cbn. split; [reflexivity|].
    split; [|exact Hsame]. rewrite lookup_insert_eq. f_equal.
    unfold attrs_for. rewrite Hne.
    unfold kwarg, set_factor_file_path, set_data_file_path, ConnectionBuilder.
    simplify_map_eq. reflexivity.
Qed.

(** C10.  Two calls of the factory, for any two supported backends with
    their entries in place and from any state of the class: both return the
    same object; after the first it carries the first entry's attributes,
    after the second the second's, every attribute the second entry does
    not name reset to [None]. *)
Theorem C10_connection_factory_shares_one_object :
  forall cfg db1 db2 e1 e2 s,
    cfg !! db1 = Some e1 -> configured db1 e1 ->
    cfg !! db2 = Some e2 -> configured db2 e2 ->
    exists obj s1 s2,
      connection_factory cfg db1 s = (Ok obj, s1)
      /\ heap s1 !! obj = Some (attrs_for db1 e1)
      /\ connection_factory cfg db2 s1 = (Ok obj, s2)
      /\ heap s2 !! obj = Some (attrs_for db2 e2)
      /\ _instance s2 = Some obj.
Proof.
  intros cfg db1 db2 e1 e2 s H1 C1 H2 C2.
  destruct (factory_configured cfg db1 e1 s H1 C1) as (obj & s1 & E1 & I1 & A1 & _).
  destruct (factory_configured cfg db2 e2 s1 H2 C2) as (obj' & s2 & E2 & I2 & A2 & Hsame).
  assert (obj' = obj) by (apply Hsame; exact I1). subst obj'.
  exists obj, s1, s2. auto.
Qed.

Lemma C10_connection_factory_shares_one_object_witness :
  exists obj s1 s2,
    connection_factory sample_cfg "duckdb" fresh_process = (Ok obj, s1)
    /\ heap s1 !! obj
       = Some {| host := VNone; port := VNone; username := VNone; password := VNone;
                 data_path := VStr "/data/frozen.duckdb";
                 factor_path := VStr "/data/factor.duckdb" |}
    /\ connection_factory sample_cfg "mongodb" s1 = (Ok obj, s2)
    /\ heap s2 !! obj
       = Some {| host := VStr "localhost"; port := VInt 27017; username := VNone;
                 password := VNone; data_path := VNone; factor_path := VNone |}
    /\ _instance s2 = Some obj.
Proof.
  assert (H := C10_connection_factory_shares_one_object sample_cfg "duckdb" "mongodb"
           (<["data_path" := VStr "/data/frozen.duckdb"]>
              (<["factor_path" := VStr "/data/factor.duckdb"]> ∅))
           (<["host" := VStr "localhost"]> (<["port" := VInt 27017]> ∅))
           fresh_process).
  apply H.
  - reflexivity.
  - right. split; [left; reflexivity|]. split; eexists; reflexivity.
  - reflexivity.
  - left. reflexivity.
Defined.

End Singleton.

(** ** The rate limiter *)

Section RateLimit.
Import Limiter.
Local Close Scope string_scope.

Lemma window_inv_init N t0 : 0 <= N -> window_inv N (decorator t0) t0 [].
Proof.
  intros HN. exists [], [], []. simpl. repeat split; try constructor; try lia.
  intros i j a b Hi. rewrite lookup_nil in Hi. discriminate.
Qed.

(** The entry just appended is a minute or more after every entry older
    than the two latest windows. *)
Lemma spread_snoc N (ts old recent : list Z) t :
  0 <= N ->
  spread N ts -> ts = (old ++ recent)%list ->
  (length recent + 1 <= 2 * Z.to_nat N)%nat ->
  Forall (fun x => x + minute <= t) old ->
  spread N (ts ++ [t]).
Proof.
  intros HN Hs -> Hlen Hold i j a b Hi Hj Hij.
  destruct (decide (j < length (old ++ recent))%nat) as [Hlt|Hge].
  - rewrite lookup_app_l in Hj by exact Hlt.
    rewrite lookup_app_l in Hi by lia.
    exact (Hs i j a b Hi Hj Hij).
  - assert (Hjl : j = length (old ++ recent)).
    { apply lookup_lt_Some in Hj. rewrite length_app in Hj. simpl in Hj. lia. }
    rewrite Hjl in Hj. rewrite lookup_app_r in Hj by lia.
    rewrite Nat.sub_diag in Hj. simpl in Hj. injection Hj as <-.
    rewrite length_app in Hjl.
    rewrite <- app_assoc in Hi. rewrite lookup_app_l in Hi by lia.
    rewrite Forall_forall in Hold. apply Hold.
    eapply list_elem_of_lookup_2. exact Hi.
Qed.

Lemma wrapper_inv N c last (ts : list Z) p :
  1 <= N -> window_inv N c last ts ->
  last <= current_time p -> 0 <= lag p ->
  let '(c', t) := wrapper N c p in
  window_inv N c' t (ts ++ [t]).
Proof.
  intros HN (old & prev & cur & Hts & Hcur & HcN & Hprev & Hold & Hpr & Hall & Hst & Hsp)
         Hclock Hlag.
  unfold wrapper.
  assert (Hc0 : 0 <= calls c) by lia.
  destruct (current_time p - start_time c >? minute) eqn:Hreset.
  - (* the window is over: a new one starts at this reading *)
    apply Z.gtb_lt in Hreset.
    destruct (0 >=? N) eqn:H0; [apply Z.geb_le in H0; lia|].
    exists (old ++ prev), cur, [current_time p]. simpl.
    rewrite Forall_forall in Hold, Hpr, Hall.
    repeat split; try lia.
    + rewrite Hts, <- !app_assoc. reflexivity.
    + apply Forall_forall. intros x Hx. apply elem_of_app in Hx as [Hx|Hx].
      * specialize (Hold x Hx). simpl in Hold. lia.
      * specialize (Hpr x Hx). simpl in Hpr. lia.
    + apply Forall_forall. intros x Hx.
      assert (x <= last); [|lia]. apply Hall. rewrite Hts.
      apply elem_of_app. right. apply elem_of_app. right. exact Hx.
    + apply Forall_forall. intros x Hx. apply elem_of_app in Hx as [Hx|Hx].
      * specialize (Hall x Hx). simpl in Hall. lia.
      * apply list_elem_of_singleton in Hx. subst x. lia.
    + apply (spread_snoc N ts (old ++ prev) cur); try lia; auto.
      * rewrite Hts, <- app_assoc. reflexivity.
      * apply Forall_forall. intros x Hx. apply elem_of_app in Hx as [Hx|Hx].
        -- specialize (Hold x Hx). simpl in Hold. lia.
        -- specialize (Hpr x Hx). simpl in Hpr. lia.
  - rewrite Z.gtb_ltb in Hreset. apply Z.ltb_ge in Hreset.
    destruct (calls c >=? N) eqn:Hfull.
    + (* the window is full: wait for its end, then start a new one *)
      apply Z.geb_le in Hfull.
      set (woke := (if minute - (current_time p - start_time c) >? 0
                    then current_time p + (minute - (current_time p - start_time c))
                    else current_time p) + lag p).
      assert (Hw : start_time c + minute <= woke /\ current_time p <= woke).
      { subst woke. destruct (_ >? 0) eqn:E; [lia|].
        rewrite Z.gtb_ltb in E. apply Z.ltb_ge in E. lia. }
      exists (old ++ prev), cur, [woke]. simpl.
      rewrite Forall_forall in Hold, Hpr, Hall.
      repeat split; try lia.
      * rewrite Hts, <- !app_assoc. reflexivity.
      * apply Forall_forall. intros x Hx. apply elem_of_app in Hx as [Hx|Hx].
        -- specialize (Hold x Hx). simpl in Hold. lia.
        -- specialize (Hpr x Hx). simpl in Hpr. lia.
      * apply Forall_forall. intros x Hx.
        assert (x <= last); [|lia]. apply Hall. rewrite Hts.
        apply elem_of_app. right. apply elem_of_app. right. exact Hx.
      * apply Forall_forall. intros x Hx. apply elem_of_app in Hx as [Hx|Hx].
        -- specialize (Hall x Hx). simpl in Hall. lia.
        -- apply list_elem_of_singleton in Hx. subst x. lia.
      * apply (spread_snoc N ts (old ++ prev) cur); try lia; auto.
        -- rewrite Hts, <- app_assoc. reflexivity.
        -- apply Forall_forall. intros x Hx. apply elem_of_app in Hx as [Hx|Hx].
           ++ specialize (Hold x Hx). simpl in Hold. lia.
           ++ specialize (Hpr x Hx). simpl in Hpr. lia.
    + (* room in the window *)
      rewrite Z.geb_leb in Hfull. apply Z.leb_gt in Hfull.
      exists old, prev, (cur ++ [current_time p]). simpl.
      rewrite Forall_forall in Hold, Hpr, Hall.
      repeat split; try lia.
      * rewrite Hts, <- !app_assoc. reflexivity.
      * rewrite length_app. simpl. lia.
      * apply Forall_forall. exact Hold.
      * apply Forall_forall. exact Hpr.
      * apply Forall_forall. intros x Hx. apply elem_of_app in Hx as [Hx|Hx].
        -- specialize (Hall x Hx). simpl in Hall. lia.
        -- apply list_elem_of_singleton in Hx. subst x. lia.
      * apply (spread_snoc N ts old (prev ++ cur)); try lia; auto.
        -- rewrite length_app. lia.
        -- apply Forall_forall. intros x Hx. specialize (Hold x Hx). simpl in Hold. lia.
Qed.

Lemma run_inv N ps :
  1 <= N ->
  forall c last (acc : list Z),
    window_inv N c last acc -> clock_ok N c last ps = true ->
    exists last', window_inv N (fst (run N c ps)) last' (acc ++ snd (run N c ps)).
Proof.
  intros HN. induction ps as [|p ps IH]; intros c last acc Hinv Hok; simpl.
  - exists last. rewrite app_nil_r. exact Hinv.
  - simpl in Hok. apply andb_true_iff in Hok as [Hok Hrest].
    apply andb_true_iff in Hok as [H1 H2]. apply Z.leb_le in H1, H2.
    pose proof (wrapper_inv N c last acc p HN Hinv H1 H2) as Hstep.
    destruct (wrapper N c p) as [c' t].
    destruct (IH c' t (acc ++ [t]) Hstep Hrest) as [last' Hinv'].
    destruct (run N c' ps) as [c'' ts]. simpl in *.
    exists last'. rewrite <- app_assoc in Hinv'. exact Hinv'.
Qed.

(** More than [k] entries with a property: two of them are [k] or more
    places apart. *)
Lemma filter_far {A} (P : A -> bool) (l : list A) :
  forall k, (k < length (List.filter P l))%nat ->
  exists (i j : nat) a b,
    l !! i = Some a /\ l !! j = Some b /\ P a = true /\ P b = true /\ (i + k <= j)%nat.
Proof.
  induction l as [|x l IH]; intros k Hk; simpl in Hk; [lia|].
  destruct (P x) eqn:Px.
  - destruct k as [|k].
    + exists 0%nat, 0%nat, x, x. simpl. auto.
    + simpl in Hk. destruct (IH k ltac:(lia)) as (i & j & a & b & Hi & Hj & Pa & Pb & Hij).
      exists 0%nat, (S j), x, b. simpl. repeat split; auto. lia.
  - destruct (IH k Hk) as (i & j & a & b & Hi & Hj & Pa & Pb & Hij).
    exists (S i), (S j), a, b. simpl. repeat split; auto. lia.
Qed.

Lemma spread_admitted N (ts : list Z) t :
  0 <= N -> spread N ts -> Z.of_nat (admitted_in t ts) <= 2 * N.
Proof.
  intros HN Hs. unfold admitted_in.
  set (inside := fun x => (t <=? x) && (x <? t + minute)).
  destruct (decide (2 * Z.to_nat N < length (List.filter inside ts))%nat)
    as [Hmany|Hfew]; [|lia].
  destruct (filter_far _ _ _ Hmany) as (i & j & a & b & Hi & Hj & Pa & Pb & Hij).
  apply andb_true_iff in Pa as [Pa1 Pa2]. apply andb_true_iff in Pb as [Pb1 Pb2].
  apply Z.leb_le in Pa1, Pb1. apply Z.ltb_lt in Pa2, Pb2.
  specialize (Hs i j a b Hi Hj Hij). lia.
Qed.

(** C3, counterexample.  The closure is made at 0.  Five hundred calls at
    59.000 s fill the first window; at 60.001 s the window is over, the
    counter starts again, and five hundred more go straight through: a
    thousand calls of one method in a second.  And two methods, each with
    its own closure, let five hundred calls through each at the same
    reading. *)
Lemma C3_a_thousand_calls_within_one_second :
  clock_ok 500 (decorator 0) 0 straddle = true
  /\ length (snd (run 500 (decorator 0) straddle)) = 1000%nat
  /\ admitted_in 59000 (snd (run 500 (decorator 0) straddle)) = 1000%nat
  /\ head (snd (run 500 (decorator 0) straddle)) = Some 59000
  /\ last (snd (run 500 (decorator 0) straddle)) = Some 60001
  /\ admitted_in 1000 (snd (run_adapter 500 (fun _ => decorator 0) two_methods))
     = 1000%nat.
Proof. vm_compute. repeat split; reflexivity. Qed.

(** C3, as amended.  One decorated method, called by any number of
    callers: its counter never passes [N]; in any rolling minute at most
    [2 * N] of its calls are let through; and two of its calls with [2 * N]
    or more calls between their places are a minute or more apart, so that
    [2 * N + 1] calls take a minute at least. *)
Theorem C3_one_method_twice_the_budget_per_minute :
  forall N t0 ps,
    1 <= N -> clock_ok N (decorator t0) t0 ps = true ->
    calls (fst (run N (decorator t0) ps)) <= N
    /\ (forall t, Z.of_nat (admitted_in t (snd (run N (decorator t0) ps))) <= 2 * N)
    /\ spread N (snd (run N (decorator t0) ps)).
Proof.
  intros N t0 ps HN Hok.
  destruct (run_inv N ps HN (decorator t0) t0 [] (window_inv_init N t0 ltac:(lia)) Hok)
    as (last' & old & prev & cur & Hts & Hcur & HcN & Hprev & Hold & Hpr & Hall & Hst & Hsp).
  simpl in Hsp. split; [exact HcN|]. split; [|exact Hsp].
  intros t. apply spread_admitted; [lia|exact Hsp].
Qed.

Lemma C3_one_method_twice_the_budget_per_minute_witness :
  let ps := [ {| current_time := 0; lag := 0 |}; {| current_time := 10; lag := 0 |};
              {| current_time := 20; lag := 5 |}; {| current_time := 60005; lag := 0 |};
              {| current_time := 60005; lag := 0 |} ] in
  calls (fst (run 2 (decorator 0) ps)) <= 2
  /\ (forall t, Z.of_nat (admitted_in t (snd (run 2 (decorator 0) ps))) <= 2 * 2)
  /\ spread 2 (snd (run 2 (decorator 0) ps)).
Proof.
  apply (C3_one_method_twice_the_budget_per_minute 2 0); [lia|reflexivity].
Defined.

End RateLimit.

(** ** Running a full backfill twice *)

Section Idempotence.
Import Manager Scenario.

Lemma convert_bars_codes bars rows t :
  Feed.convert_bars bars = Ok rows ->
  Forall (fun b => bar_code b = t) bars -> Forall (fun r => ts_code r = t) rows.
Proof.
  revert rows. induction bars as [|b bars IH]; intros rows H Hc; simpl in H.
  - injection H as <-. constructor.
  - destruct (Feed.to_datetime (bar_date b)) as [d|e]; [|discriminate].
    destruct (Feed.convert_bars bars) as [rs|e]; [|discriminate].
    injection H as <-. inversion Hc; subst. constructor; [reflexivity|].
    apply IH; auto.
Qed.

Lemma insert_there self rows tn s tbl :
  db s !! tn = Some tbl ->
  _insert_df_to_table self (Some rows) tn s = (Ok tt, stored tn rows s).
Proof.
  intros H. unfold stored. rewrite H.
  cbv beta iota zeta delta [_insert_df_to_table bind get_db ret note_insert put_table].
  rewrite H. reflexivity.
Qed.

Lemma insert_missing self rows tn s :
  db s !! tn = None ->
  _insert_df_to_table self (Some rows) tn s = (Raise (BackendError "Catalog Error"), s).
Proof.
  intros H. cbv beta iota zeta delta [_insert_df_to_table bind get_db ret raise].
  rewrite H. reflexivity.
Qed.

Lemma check_data_exists_dotted self tn t s :
  contains_char "."%char t = true ->
  _check_data_exists self tn t s
  = (match database self with
     | chdb => Raise (UnboundLocalError "result")
     | duckdb =>
         match db s !! tn with
         | None => Raise (BackendError "Catalog Error")
         | Some tbl => Ok (rows_with_code t (t_rows tbl))
         end
     | mongodb =>
         Ok (match db s !! tn with
             | Some tbl => rows_with_code t (t_rows tbl)
             | None => []
             end)
     end, s).
Proof.
  intros Hdot.
  cbv beta iota zeta delta [_check_data_exists bind get_db ret raise].
  rewrite Hdot. destruct (database self); try reflexivity.
  destruct (db s !! tn); reflexivity.
Qed.

Lemma extend_price_unit_eq w self tn asset adj t feed (update : bool) s :
  let end_date := if update then Feed.TODAY feed else Feed.END feed in
  let c := Call_pro_bar (Feed.ticker feed) (Feed.START feed) end_date asset adj in
  extend_unit self tn t (Feed.fetch_volumn_price w feed asset adj update) s
  = match pro_bar (src w) (Feed.ticker feed) (Feed.START feed) end_date asset adj with
    | Raises e => (Raise e, called c s)
    | ReturnsNone => (Ok tt, logged WARNING (empty_warning tn t) (called c s))
    | Frame [] => (Ok tt, logged WARNING (empty_warning tn t) (called c s))
    | Frame (b :: bars) =>
        match Feed.convert_bars (b :: bars) with
        | Raise e => (Raise e, called c s)
        | Ok [] => (Ok tt, logged WARNING (empty_warning tn t) (called c s))
        | Ok (r :: rows) =>
            match db s !! tn with
            | Some _ => (Ok tt, stored tn (r :: rows) (called c s))
            | None => (Raise (BackendError "Catalog Error"), called c s)
            end
        end
    end.
Proof.
  cbv zeta. unfold extend_unit, bind.
  rewrite fetch_volumn_price_reply. cbv zeta.
  destruct (pro_bar _ _ _ _ _ _) as [e| |[|b bars]]; try reflexivity.
  destruct (Feed.convert_bars (b :: bars)) as [[|r rows]|e]; try reflexivity.
  unfold insert_or_skip. cbn [_check_validity negb].
  destruct (db s !! tn) as [tbl|] eqn:E.
  - apply (insert_there self _ tn (called _ s) tbl). exact E.
  - apply insert_missing. exact E.
Qed.

Lemma backfill_price_unit_eq w self tn asset adj t feed s :
  contains_char "."%char t = true ->
  backfill_unit self tn t t (Feed.fetch_volumn_price w feed asset adj false) s
  = let c := Call_pro_bar (Feed.ticker feed) (Feed.START feed) (Feed.END feed)
                          asset adj in
    match price_unit_kind w self tn asset adj t feed (db s) with
    | KCheckRaises e => (Raise e, s)
    | KFound => (Ok tt, s)
    | KRaises e => (Raise e, called c s)
    | KInvalid => (Ok tt, logged WARNING (empty_warning tn t) (called c s))
    | KStore rows => (Ok tt, stored tn rows (called c s))
    end.
Proof.
  intros Hdot. cbv zeta.
  unfold backfill_unit, price_unit_kind, bind.
  rewrite (check_data_exists_dotted self tn t s Hdot).
  pose proof (extend_price_unit_eq w self tn asset adj t feed false s) as Hext.
  cbv beta iota zeta in Hext.
  destruct (database self).
  - reflexivity.
  - destruct (db s !! tn) as [tbl|] eqn:E; [|reflexivity].
    destruct (rows_with_code t (t_rows tbl)) as [|r0 found] eqn:Ef; [|reflexivity].
    rewrite Hext.
    destruct (pro_bar _ _ _ _ _ _) as [e| |[|b bars]]; try reflexivity.
    destruct (Feed.convert_bars (b :: bars)) as [[|r rows]|e]; reflexivity.
  - destruct (match db s !! tn with Some t0 => rows_with_code t (t_rows t0) | None => [] end)
      as [|r0 found] eqn:Ef; [|reflexivity].
    rewrite Hext.
    destruct (pro_bar _ _ _ _ _ _) as [e| |[|b bars]]; try reflexivity.
    destruct (Feed.convert_bars (b :: bars)) as [[|r rows]|e]; try reflexivity.
    destruct (db s !! tn); reflexivity.
Qed.

Section OneTable.
Variables (w : World) (self : DataFeedManager) (tn asset adj : string).
Hypothesis Hsrc : answers_for_ticker w.

Local Abbreviation body := (price_backfill_body w self tn asset adj).
Local Abbreviation rows_in := (rows_in tn).
Local Abbreviation kind := (price_unit_kind w self tn asset adj).
Local Abbreviation extends := (extends tn).
Local Abbreviation fresh_call := (fresh_call tn asset adj).
Local Abbreviation untouched := (untouched tn asset adj).

Lemma extends_refl d : extends d d.
Proof. intros tbl H. exists tbl, []. rewrite app_nil_r. auto. Qed.

Lemma extends_trans d1 d2 d3 : extends d1 d2 -> extends d2 d3 -> extends d1 d3.
Proof.
  intros H12 H23 tbl H. destruct (H12 tbl H) as (t2 & m2 & E2 & R2).
  destruct (H23 t2 E2) as (t3 & m3 & E3 & R3).
  exists t3, (m2 ++ m3). split; [exact E3|]. rewrite R3, R2, app_assoc. reflexivity.
Qed.

Lemma extends_stored rows c s : extends (db s) (db (stored tn rows (called c s))).
Proof.
  intros tbl H. unfold stored. cbn [db called]. rewrite H. cbn [db].
  eexists _, rows. rewrite lookup_insert_eq. split; reflexivity.
Qed.

Lemma rows_in_stored rows c s tbl :
  db s !! tn = Some tbl ->
  rows_in (db (stored tn rows (called c s))) = rows_in (db s) ++ rows.
Proof.
  intros H. unfold rows_in, stored. cbn [db called]. rewrite H. cbn [db].
  rewrite lookup_insert_eq. reflexivity.
Qed.

Lemma body_extends u s :
  contains_char "."%char (fst u) = true -> extends (db s) (db (snd (body u s))).
Proof.
  destruct u as [t feed]. intros Hdot. unfold body.
  rewrite backfill_price_unit_eq by exact Hdot. cbv zeta.
  destruct (price_unit_kind _ _ _ _ _ _ _ _); cbn [snd];
    try apply extends_refl. apply extends_stored.
Qed.

Lemma loop_extends us :
  dotted_units us -> forall s, extends (db s) (db (snd (for_each us body s))).
Proof.
  induction 1 as [|u us [Hdot _] _ IH]; intros s; simpl.
  - apply extends_refl.
  - unfold bind. pose proof (body_extends u s Hdot) as Hb.
    destruct (body u s) as [[[]|e] s']; simpl in *; [|exact Hb].
    eapply extends_trans; [exact Hb|apply IH].
Qed.

Lemma rows_with_code_app t l1 l2 :
  rows_with_code t (l1 ++ l2) = rows_with_code t l1 ++ rows_with_code t l2.
Proof. unfold rows_with_code. apply List.filter_app. Qed.

Lemma extends_found d d2 t :
  extends d d2 -> rows_with_code t (rows_in d) <> [] ->
  rows_with_code t (rows_in d2) <> [].
Proof.
  intros He Hf. unfold rows_in in *.
  destruct (d !! tn) as [tbl|] eqn:E; [|exfalso; apply Hf; reflexivity].
  destruct (He tbl E) as (t2 & more & E2 & R2). rewrite E2, R2.
  rewrite rows_with_code_app. intros H. apply app_eq_nil in H as [H _]. auto.
Qed.

Lemma kind_found t feed d :
  database self <> chdb -> rows_with_code t (rows_in d) <> [] ->
  kind t feed d = KFound.
Proof.
  intros Hdb Hf. unfold kind, price_unit_kind, rows_in in *.
  destruct (database self); [congruence| |].
  - destruct (d !! tn) as [tbl|]; [|exfalso; apply Hf; reflexivity].
    destruct (rows_with_code t (t_rows tbl)); [congruence|reflexivity].
  - destruct (d !! tn) as [tbl|]; [|exfalso; apply Hf; reflexivity].
    destruct (rows_with_code t (t_rows tbl)); [congruence|reflexivity].
Qed.

(** What a kind says about the database it was told from. *)
Lemma kind_inv t feed d :
  match kind t feed d with
  | KCheckRaises _ => database self = chdb \/ (database self = duckdb /\ d !! tn = None)
  | KFound => database self <> chdb /\ rows_with_code t (rows_in d) <> []
  | KRaises _ | KInvalid =>
      database self <> chdb /\ rows_with_code t (rows_in d) = []
      /\ (database self = duckdb -> is_Some (d !! tn))
  | KStore rows =>
      database self <> chdb /\ rows_with_code t (rows_in d) = []
      /\ is_Some (d !! tn) /\ rows <> []
      /\ (Feed.ticker feed = Some t -> Forall (fun r => ts_code r = t) rows)
  end.
Proof.
  unfold kind, price_unit_kind, rows_in.
  destruct (database self) eqn:Hdb.
  - left. reflexivity.
  - destruct (d !! tn) as [tbl|] eqn:E; [|right; auto].
    destruct (rows_with_code t (t_rows tbl)) eqn:Ef; [|split; congruence].
    destruct (pro_bar _ _ _ _ _ _) as [e| |[|b bars]] eqn:Er;
      try (split; [congruence|split; [reflexivity|intros _; eauto]]).
    destruct (Feed.convert_bars (b :: bars)) as [[|r rows]|e] eqn:Ec;
      try (split; [congruence|split; [reflexivity|intros _; eauto]]).
    split; [congruence|]. split; [reflexivity|]. split; [eauto|]. split; [congruence|].
    intros Ht. rewrite Ht in Er. eapply convert_bars_codes; [exact Ec|].
    eapply Hsrc. exact Er.
  - destruct (d !! tn) as [tbl|] eqn:E.
    + destruct (rows_with_code t (t_rows tbl)) eqn:Ef; [|split; congruence].
      destruct (pro_bar _ _ _ _ _ _) as [e| |[|b bars]] eqn:Er;
        try (split; [congruence|split; [reflexivity|intros; congruence]]).
      destruct (Feed.convert_bars (b :: bars)) as [[|r rows]|e] eqn:Ec;
        try (split; [congruence|split; [reflexivity|intros; congruence]]).
      split; [congruence|]. split; [reflexivity|]. split; [eauto|]. split; [congruence|].
      intros Ht. rewrite Ht in Er. eapply convert_bars_codes; [exact Ec|].
      eapply Hsrc. exact Er.
    + destruct (pro_bar _ _ _ _ _ _) as [e| |[|b bars]] eqn:Er;
        try (split; [congruence|split; [reflexivity|intros; congruence]]).
      destruct (Feed.convert_bars (b :: bars)) as [[|r rows]|e] eqn:Ec;
        try (split; [congruence|split; [reflexivity|intros; congruence]]).
Qed.

(** The kind is told from the table alone. *)
Lemma kind_same_table t feed d d2 :
  d2 !! tn = d !! tn -> kind t feed d2 = kind t feed d.
Proof. intros H. unfold kind, price_unit_kind. rewrite H. reflexivity. Qed.

(** With no row of the ticker and the table in place, a unit without data
    stays one. *)
Lemma kind_invalid_again t feed d d2 :
  kind t feed d = KInvalid ->
  rows_with_code t (rows_in d2) = [] ->
  (database self = duckdb -> is_Some (d2 !! tn)) ->
  kind t feed d2 = KInvalid.
Proof.
  unfold kind, price_unit_kind, rows_in. intros Hk Hf Ht.
  destruct (database self) eqn:Hdb; [discriminate Hk| |].
  - destruct (Ht eq_refl) as [tbl2 E2]. rewrite E2 in *. rewrite Hf.
    destruct (d !! tn) as [tbl|]; [|discriminate Hk].
    destruct (rows_with_code t (t_rows tbl)); [|discriminate Hk].
    destruct (pro_bar _ _ _ _ _ _) as [e| |[|b bars]]; try discriminate Hk; try reflexivity.
    destruct (Feed.convert_bars (b :: bars)) as [[|r rows]|e]; try discriminate Hk; try reflexivity.
  - assert (Hf2 : match d2 !! tn with
                  | Some t0 => rows_with_code t (t_rows t0)
                  | None => []
                  end = []) by (destruct (d2 !! tn); [exact Hf|reflexivity]).
    rewrite Hf2.
    destruct (d !! tn) as [tbl|].
    + destruct (rows_with_code t (t_rows tbl)); [|discriminate Hk].
      destruct (pro_bar _ _ _ _ _ _) as [e| |[|b bars]]; try discriminate Hk; try reflexivity.
      destruct (Feed.convert_bars (b :: bars)) as [[|r rows]|e]; try discriminate Hk; try reflexivity.
    + destruct (pro_bar _ _ _ _ _ _) as [e| |[|b bars]]; try discriminate Hk; try reflexivity.
      destruct (Feed.convert_bars (b :: bars)) as [[|r rows]|e]; try discriminate Hk; try reflexivity.
Qed.


Lemma untouched_refl s2 : untouched s2 s2.
Proof.
  split; [reflexivity|]. split; [reflexivity|].
  exists []. rewrite app_nil_r. split; [reflexivity|constructor].
Qed.

Lemma untouched_called c s2 : fresh_call (db s2) c -> untouched s2 (called c s2).
Proof.
  intros Hc. split; [reflexivity|]. split; [reflexivity|].
  exists [c]. split; [reflexivity|]. constructor; [exact Hc|constructor].
Qed.

Lemma untouched_after_warning c lv msg s2 fin :
  fresh_call (db s2) c -> untouched (logged lv msg (called c s2)) fin ->
  untouched s2 fin.
Proof.
  intros Hc (Hd & Hi & extra & Hcalls & Hfr).
  split; [exact Hd|]. split; [exact Hi|].
  exists (c :: extra). split.
  - rewrite Hcalls. cbn [calls logged called]. rewrite <- app_assoc. reflexivity.
  - constructor; [exact Hc|exact Hfr].
Qed.

(** Running the loop again on the database it left. *)
Lemma rerun us :
  dotted_units us ->
  forall s s2,
    db s2 = db (snd (for_each us body s)) ->
    untouched s2 (snd (for_each us body s2)).
Proof.
  induction 1 as [|[t feed] us [Hdot Htick] Hus IH]; intros s s2 Hdb2.
  - apply untouched_refl.
  - simpl in Hdot, Htick. cbn [for_each] in *. unfold bind in *.
    unfold body at 1 in Hdb2. unfold body at 1.
    rewrite backfill_price_unit_eq in Hdb2 |- * by exact Hdot. cbv zeta in *.
    fold (kind t feed (db s)) in Hdb2. fold (kind t feed (db s2)).
    pose proof (kind_inv t feed (db s)) as Hk.
    pose proof (kind_inv t feed (db s2)) as Hk2.
    set (c := Call_pro_bar (Feed.ticker feed) (Feed.START feed) (Feed.END feed)
                           asset adj) in *.
    assert (Hfresh : rows_with_code t (rows_in (db s2)) = [] -> fresh_call (db s2) c).
    { intros Hf. exists t. unfold c. rewrite Htick. do 2 eexists.
      split; [reflexivity|exact Hf]. }
    destruct (kind t feed (db s)) as [e| |e| |rows] eqn:Ek.
    + (* the check raises, on the same table: it raises again *)
      cbn [snd] in Hdb2.
      rewrite (kind_same_table t feed (db s) (db s2)) by (rewrite Hdb2; reflexivity).
      rewrite Ek. apply untouched_refl.
    + (* found the first time: found again, the table only grew *)
      destruct Hk as [Hne Hf].
      assert (Hf2 : rows_with_code t (rows_in (db s2)) <> []).
      { rewrite Hdb2. eapply extends_found; [apply loop_extends; exact Hus|exact Hf]. }
      rewrite (kind_found t feed (db s2) Hne Hf2). apply (IH s s2 Hdb2).
    + (* raised the first time: the table is as it was, it raises again *)
      cbn [snd] in Hdb2.
      rewrite (kind_same_table t feed (db s) (db s2)) by (rewrite Hdb2; reflexivity).
      rewrite Ek. cbn [snd]. apply untouched_called, Hfresh.
      destruct Hk as (_ & Hf & _). rewrite Hdb2. exact Hf.
    + (* nothing to store the first time *)
      destruct Hk as (Hne & Hf & Htbl).
      set (s' := logged WARNING (empty_warning tn t) (called c s)) in *.
      destruct (kind t feed (db s2)) as [e2| |e2| |rows2] eqn:Ek2.
      * (* the check cannot raise now *)
        exfalso. destruct Hk2 as [Hc|[Hd Hnone]]; [congruence|].
        destruct (Htbl Hd) as [tbl E].
        pose proof (loop_extends us Hus s' tbl E) as (tbl2 & more & E2 & _).
        rewrite <- Hdb2 in E2. congruence.
      * apply (IH s' s2 Hdb2).
      * exfalso. destruct Hk2 as (_ & Hf2 & Ht2).
        rewrite (kind_invalid_again t feed (db s) (db s2) Ek Hf2 Ht2) in Ek2.
        discriminate.
      * destruct Hk2 as (_ & Hf2 & _).
        eapply untouched_after_warning; [exact (Hfresh Hf2)|].
        apply (IH s'). exact Hdb2.
      * exfalso. destruct Hk2 as (_ & Hf2 & Ht2 & _).
        rewrite (kind_invalid_again t feed (db s) (db s2) Ek Hf2 (fun _ => Ht2)) in Ek2.
        discriminate.
    + (* stored the first time: found now *)
      destruct Hk as (Hne & Hf & [tbl E] & Hrows & Hcodes).
      set (s' := stored tn rows (called c s)) in *.
      assert (Hf' : rows_with_code t (rows_in (db s')) <> []).
      { unfold s'. rewrite (rows_in_stored rows _ s tbl E), rows_with_code_app.
        specialize (Hcodes Htick). destruct rows as [|r rows]; [congruence|].
        inversion Hcodes as [|? ? Hr _]; subst.
        unfold rows_with_code at 2. cbn [List.filter]. rewrite String.eqb_refl.
        intros Happ. apply app_eq_nil in Happ as [_ Hnil]. discriminate. }
      assert (Hf2 : rows_with_code t (rows_in (db s2)) <> []).
      { rewrite Hdb2. eapply extends_found; [apply loop_extends; exact Hus|exact Hf']. }
      rewrite (kind_found t feed (db s2) Hne Hf2). apply (IH s' s2 Hdb2).
Qed.


(** *** No key twice *)

Hypothesis Hday : one_bar_per_day w.

Lemma kind_store_frame t feed d rows :
  kind t feed d = KStore rows ->
  exists bars,
    pro_bar (src w) (Feed.ticker feed) (Feed.START feed) (Feed.END feed) asset adj
    = Frame bars
    /\ Feed.convert_bars bars = Ok rows.
Proof.
  unfold kind, price_unit_kind. intros Hk.
  destruct (match database self with
            | chdb => _ | duckdb => _ | mongodb => _ end) as [[|? ?]|?];
    try discriminate Hk.
  destruct (pro_bar _ _ _ _ _ _) as [e| |[|b bars]]; try discriminate Hk.
  exists (b :: bars). split; [reflexivity|].
  destruct (Feed.convert_bars (b :: bars)) as [[|r rs]|e]; try discriminate Hk.
  destruct (d !! tn); [|discriminate Hk]. injection Hk as <-. reflexivity.
Qed.

Lemma keys_of_one_ticker t (rows : list row) :
  Forall (fun r => ts_code r = t) rows ->
  map key rows = map (fun d => (t, d)) (map date rows).
Proof.
  induction 1 as [|r rows Hr _ IH]; simpl; [reflexivity|].
  unfold key at 1. rewrite Hr, IH. reflexivity.
Qed.

Lemma key_in_rows_with_code t d (rows : list row) :
  (t, d) ∈ map key rows -> rows_with_code t rows <> [].
Proof.
  intros Hin. apply list_elem_of_fmap in Hin as (r & Hk & Hr).
  unfold key in Hk. injection Hk as Ht Hd.
  intros Hnil. apply list_elem_of_In in Hr.
  assert (Hx : In r (rows_with_code t rows)).
  { unfold rows_with_code. apply List.filter_In. split; [exact Hr|].
    rewrite <- Ht. apply String.eqb_refl. }
  rewrite Hnil in Hx. destruct Hx.
Qed.

Lemma body_keeps_keys u s :
  contains_char "."%char (fst u) = true -> Feed.ticker (snd u) = Some (fst u) ->
  NoDup (map key (rows_in (db s))) ->
  NoDup (map key (rows_in (db (snd (body u s))))).
Proof.
  destruct u as [t feed]. cbn [fst snd]. intros Hdot Htick Hnd. unfold body.
  rewrite backfill_price_unit_eq by exact Hdot. cbv zeta.
  pose proof (kind_inv t feed (db s)) as Hk.
  pose proof (kind_store_frame t feed (db s)) as Hfr.
  fold (kind t feed (db s)).
  destruct (kind t feed (db s)) as [e| |e| |rows]; cbn [snd]; try exact Hnd.
  destruct Hk as (_ & Hf & [tbl E] & _ & Hcodes). specialize (Hcodes Htick).
  destruct (Hfr rows eq_refl) as (bars & Hreply & Hconv).
  rewrite (rows_in_stored rows _ s tbl E), map_app.
  apply NoDup_app. split; [exact Hnd|]. split.
  - intros [t' d'] Hold Hnew.
    rewrite (keys_of_one_ticker t rows Hcodes) in Hnew.
    apply list_elem_of_fmap in Hnew as (d'' & Heq & _). injection Heq as -> ->.
    exact (key_in_rows_with_code t d'' _ Hold Hf).
  - rewrite (keys_of_one_ticker t rows Hcodes).
    apply NoDup_fmap; [intros x y [=]; assumption|].
    rewrite Htick in Hreply. eapply Hday; [exact Hreply|exact Hconv].
Qed.

Lemma loop_keeps_keys us :
  dotted_units us -> forall s,
  NoDup (map key (rows_in (db s))) ->
  NoDup (map key (rows_in (db (snd (for_each us body s))))).
Proof.
  induction 1 as [|u us [Hdot Htick] _ IH]; intros s Hnd; simpl; [exact Hnd|].
  unfold bind. pose proof (body_keeps_keys u s Hdot Htick Hnd) as Hb.
  destruct (body u s) as [[[]|e] s']; cbn [snd] in *; [apply IH; exact Hb|exact Hb].
Qed.

End OneTable.



(** The full price operation: the table is made if it is missing, the loop
    runs, and the closing line is logged if the loop came through. *)
Lemma price_backfill_eq w self tn asset adj s :
  fetch_volumn_price_data w self tn asset adj false s
  = let s' :=
      match db s !! tn with
      | Some _ => s
      | None =>
          logged INFO ("Created table " +:+ tn +:+ ", storing "
                       +:+ spaced tn +:+ " volumn-price data.")
                 (State (<[tn := Table "trade_date" []]> (db s)) (log s) (calls s)
                        (inserts s))
      end in
    match for_each (zip (ticker_list self) (data_feeds self))
                   (price_backfill_body w self tn asset adj) s' with
    | (Ok _, s'') => (Ok tt, logged INFO (tn +:+ " data insertion completed.") s'')
    | (Raise e, s'') => (Raise e, s'')
    end.
Proof.
  unfold fetch_volumn_price_data, price_backfill_body.
  cbv beta iota zeta delta [bind _check_table_exists get_db ret create_table put_table logger].
  destruct (db s !! tn); cbn [negb]; destruct (for_each _ _ _) as [[[]|e] s'']; reflexivity.
Qed.

(** The manager the constructor returns: its feeds are those of its
    tickers, in order. *)
Lemma init_units w source db_name tickers sd ed s s' self :
  __init__ w source db_name tickers sd ed s = (Ok self, s') ->
  ticker_list self = tickers
  /\ start_date self = or_default "20050101" sd
  /\ end_date self = or_default "20231231" ed
  /\ TODAY self = Date.strftime (today w)
  /\ (tickers <> [] -> Manager.source self = "tushare")
  /\ data_feeds self
     = map (fun t => {| Feed.ticker := Some t;
                        Feed.START := or_default "20050101" sd;
                        Feed.END := or_default "20231231" ed;
                        Feed.TODAY := Date.strftime (today w) |}) tickers.
Proof.
  unfold __init__. unfold bind at 1. unfold lift at 1.
  destruct (parse_backend db_name) as [b|e]; [|discriminate].
  unfold bind. unfold _load_datafeed. cbn [default]. unfold bind. cbn [ret].
  unfold Feed.create_data_feed. cbn [Manager.source].
  destruct (String.eqb source "tushare") eqn:Es.
  - rewrite (map_M_pure _ (fun t => {| Feed.ticker := Some t;
                        Feed.START := or_default "20050101" sd;
                        Feed.END := or_default "20231231" ed;
                        Feed.TODAY := Date.strftime (today w) |})).
    + intros [= <- <-]. cbn. apply String.eqb_eq in Es. auto 10.
    + intros t _. reflexivity.
  - destruct tickers as [|t tickers].
    + cbn. intros [= <- <-]. cbn. repeat split; auto. congruence.
    + cbn. discriminate.
Qed.

Lemma dotted_units_zip (tickers : list string) (mk : string -> Feed.TSDataFeed) :
  Forall (fun t => contains_char "."%char t = true) tickers ->
  (forall t, Feed.ticker (mk t) = Some t) ->
  dotted_units (zip tickers (map mk tickers)).
Proof.
  intros Hd Hmk. induction Hd as [|t tickers Ht _ IH]; simpl; constructor.
  - split; [exact Ht|apply Hmk].
  - exact IH.
Qed.




End Idempotence.

(** ** A ticker the table does not have yet *)

Section Onboarding.
Import Manager Scenario.

Lemma bind_ok {A B} (m : M A) (k : A -> M B) s a s' :
  m s = (Ok a, s') -> bind m k s = k a s'.
Proof. intros H. unfold bind. rewrite H. reflexivity. Qed.

(** *** Membership after [drop_duplicates] *)

Lemma elem_of_drop_duplicates_from {A} `{EqDecision A} (seen l : list A) x :
  x ∈ drop_duplicates_from seen l <-> x ∈ l /\ x ∉ seen.
Proof.
  revert seen. induction l as [|y l IH]; intros seen; simpl.
  - split; [intros H; inversion H|intros [H _]; inversion H].
  - destruct (decide (y ∈ seen)) as [Hy|Hy].
    + rewrite IH. split.
      * intros [H1 H2]. split; [right; exact H1|exact H2].
      * intros [H1 H2]. split; [|exact H2].
        apply elem_of_cons in H1 as [->|H1]; [contradiction|exact H1].
    + rewrite elem_of_cons, IH. split.
      * intros [->|[H1 H2]]; [split; [left|exact Hy]|].
        split; [right; exact H1|]. intros H. apply H2. right. exact H.
      * intros [H1 H2]. apply elem_of_cons in H1 as [->|H1]; [left; reflexivity|].
        destruct (decide (x = y)) as [->|Hne]; [left; reflexivity|].
        right. split; [exact H1|]. intros H. apply elem_of_cons in H as [H|H]; auto.
Qed.

Lemma elem_of_drop_duplicates {A} `{EqDecision A} (l : list A) x :
  x ∈ drop_duplicates l <-> x ∈ l.
Proof.
  unfold drop_duplicates. rewrite elem_of_drop_duplicates_from.
  split; [intros [H _]; exact H|intros H; split; [exact H|apply not_elem_of_nil]].
Qed.

Lemma elem_of_set_difference t (l1 l2 : list string) :
  t ∈ set_difference l1 l2 <-> t ∈ l1 /\ t ∉ l2.
Proof.
  unfold set_difference. rewrite elem_of_drop_duplicates, !list_elem_of_In, List.filter_In.
  rewrite negb_true_iff, bool_decide_eq_false, list_elem_of_In. reflexivity.
Qed.

(** *** The watermark of a ticker of the table *)

Lemma find_code {B} (f : string -> B) (l : list string) c :
  c ∈ l ->
  List.find (fun p => String.eqb (fst p) c) (map (fun c' => (c', f c')) l)
  = Some (c, f c).
Proof.
  induction l as [|c' l IH]; intros Hin; [inversion Hin|]. simpl.
  destruct (String.eqb c' c) eqn:E.
  - apply String.eqb_eq in E. subst. reflexivity.
  - apply elem_of_cons in Hin as [->|Hin]; [rewrite String.eqb_refl in E; discriminate|].
    apply IH. exact Hin.
Qed.

Lemma fold_max_bounded (P : Z -> Prop) (l : list Z) a :
  (forall x y, P x -> P y -> P (Z.max x y)) ->
  P a -> Forall P l -> P (fold_left Z.max l a).
Proof.
  intros Hmax. revert a. induction l as [|x l IH]; intros a Ha Hl; simpl; [exact Ha|].
  inversion Hl; subst. apply IH; auto.
Qed.

Lemma rows_with_code_of_member c (rows : list row) :
  c ∈ map ts_code rows -> rows_with_code c rows <> [].
Proof.
  intros Hin. apply list_elem_of_fmap in Hin as (r & -> & Hr).
  intros Hnil. apply list_elem_of_In in Hr.
  assert (Hx : In r (rows_with_code (ts_code r) rows)).
  { apply List.filter_In. split; [exact Hr|apply String.eqb_refl]. }
  rewrite Hnil in Hx. destruct Hx.
Qed.

Lemma max_date_shiftable (rows : list row) :
  rows <> [] -> shiftable rows ->
  exists m, max_date rows = CTimestamp m /\ Date.in_bounds (m + 1) = true.
Proof.
  intros Hne Hs. destruct rows as [|r rows]; [congruence|].
  inversion Hs as [|? ? Hr Hrest]; subst. eexists. split; [reflexivity|].
  apply (fold_max_bounded (fun d => Date.in_bounds (d + 1) = true)).
  - intros x y Hx Hy. destruct (Z.max_spec x y) as [[_ ->]|[_ ->]]; assumption.
  - exact Hr.
  - apply Forall_fmap. exact Hrest.
Qed.

Lemma shiftable_filter c (rows : list row) :
  shiftable rows -> shiftable (rows_with_code c rows).
Proof.
  unfold shiftable, rows_with_code. rewrite !Forall_forall.
  intros H r Hr. apply H. apply list_elem_of_In in Hr. apply List.filter_In in Hr as [Hr _].
  apply list_elem_of_In. exact Hr.
Qed.

Lemma ticker_date_of_member self (rows : list row) c :
  database self <> chdb -> shiftable rows ->
  c ∈ distinct_codes rows ->
  exists start,
    _get_ticker_date self
      (map (fun c' => (c', max_date (rows_with_code c' rows))) (distinct_codes rows)) c 1
    = Ok (Some start).
Proof.
  intros Hdb Hs Hin.
  assert (Hc : c ∈ map ts_code rows)
    by (apply (elem_of_drop_duplicates (map ts_code rows) c); exact Hin).
  destruct (max_date_shiftable (rows_with_code c rows)
              (rows_with_code_of_member c rows Hc) (shiftable_filter c rows Hs))
    as (m & Hm & Hb).
  eexists. apply (get_ticker_date_Timestamp self _ c 1 m Hdb).
  - unfold lookup_code. rewrite (find_code _ _ c Hin). cbn [snd]. rewrite Hm. reflexivity.
  - exact Hb.
  - apply in_bounds_days in Hb. change (Date._ymd2ord 9999 12 31) with 3652059. lia.
Qed.

(** *** Loading the feeds *)

Lemma map_M_ok {A B} (f : A -> M B) (l : list A) s :
  (forall x, x ∈ l -> exists y, f x s = (Ok y, s)) ->
  exists ys, map_M f l s = (Ok ys, s) /\ length ys = length l.
Proof.
  induction l as [|x l IH]; intros Hf; simpl.
  - exists []. split; reflexivity.
  - destruct (Hf x ltac:(left)) as [y Hy].
    destruct IH as (ys & Hys & Hlen); [intros z Hz; apply Hf; right; exact Hz|].
    exists (y :: ys). unfold bind. rewrite Hy, Hys. split; [reflexivity|].
    simpl. rewrite Hlen. reflexivity.
Qed.

Lemma get_table_date_ok self tn s tbl :
  database self <> chdb -> tn <> "stock_dividend" ->
  db s !! tn = Some tbl -> t_date_col tbl = "trade_date" ->
  _get_table_date self tn s
  = (Ok (map (fun c => (c, max_date (rows_with_code c (t_rows tbl))))
             (distinct_codes (t_rows tbl))), s).
Proof.
  intros Hdb Htn Ht Hcol.
  cbv beta iota zeta delta [_get_table_date bind get_db ret raise].
  rewrite Ht, Hcol.
  assert (E : String.eqb tn "stock_dividend" = false) by (apply String.eqb_neq; exact Htn).
  rewrite E. cbn [String.eqb Ascii.eqb Bool.eqb negb].
  destruct (database self); [congruence|reflexivity|reflexivity].
Qed.

(** The feeds of the tickers the table already has. *)
Lemma load_extend_feeds w self tn s tbl :
  database self <> chdb -> tn <> "" -> tn <> "stock_dividend" ->
  Manager.source self = "tushare" ->
  db s !! tn = Some tbl -> t_date_col tbl = "trade_date" -> shiftable (t_rows tbl) ->
  exists feeds,
    _load_datafeed w self (Some (distinct_codes (t_rows tbl))) None None true tn [] s
    = (Ok feeds, s).
Proof.
  intros Hdb Hne Hnd Hsrc Ht Hcol Hs. unfold _load_datafeed. cbn [default].
  assert (E : String.eqb tn "" = false) by (apply String.eqb_neq; exact Hne).
  rewrite E. unfold bind at 1. unfold bind at 1.
  rewrite (get_table_date_ok self tn s tbl Hdb Hnd Ht Hcol). cbn [ret].
  destruct (map_M_ok
              (fun ticker =>
                 start_date <- lift (_get_ticker_date self
                     (map (fun c => (c, max_date (rows_with_code c (t_rows tbl))))
                          (distinct_codes (t_rows tbl))) ticker 1) ;;
                 lift (Feed.create_data_feed w (Manager.source self) (Some ticker)
                                             start_date (Some (TODAY self))))
              (distinct_codes (t_rows tbl)) s) as (feeds & Hf & _).
  - intros c Hc. destruct (ticker_date_of_member self (t_rows tbl) c Hdb Hs Hc) as [st Hst].
    eexists. unfold bind, lift. rewrite Hst. unfold Feed.create_data_feed.
    rewrite Hsrc. reflexivity.
  - exists feeds. exact Hf.
Qed.

(** The feeds of new tickers: the configured start, today as the end. *)
Lemma load_extra_feeds w self (extra : list string) s :
  Manager.source self = "tushare" ->
  _load_datafeed w self (Some extra) None (Some (TODAY self)) false "" [] s
  = (Ok (map (fun t => {| Feed.ticker := Some t;
                          Feed.START := start_date self;
                          Feed.END := TODAY self;
                          Feed.TODAY := Date.strftime (today w) |}) extra), s).
Proof.
  intros Hsrc. unfold _load_datafeed. cbn [default]. unfold bind at 1. cbn [ret].
  apply map_M_pure. intros t _. unfold bind, ret, lift, Feed.create_data_feed.
  rewrite Hsrc. reflexivity.
Qed.

(** *** The incremental loops with a source that does not fail *)

Section Loops.
Variables (w : World) (self : DataFeedManager) (tn asset adj : string).
Hypothesis Hnf : never_fails w.

Local Abbreviation body := (price_extend_body w self tn asset adj).

Lemma grows_refl s : grows tn s s.
Proof. repeat split; auto. Qed.

Lemma grows_trans s1 s2 s3 : grows tn s1 s2 -> grows tn s2 s3 -> grows tn s1 s3.
Proof. intros (A1 & B1 & C1) (A2 & B2 & C2). repeat split; auto. Qed.

Lemma grows_logged_called lv msg c s : grows tn s (logged lv msg (called c s)).
Proof.
  repeat split; auto. intros c' Hc. cbn. apply elem_of_app. left. exact Hc.
Qed.

Lemma rows_of_stored rows c s tbl :
  db s !! tn = Some tbl ->
  rows_of tn (stored tn rows (called c s)) = rows_of tn s ++ rows.
Proof.
  intros H. unfold rows_of, stored. cbn [db called]. rewrite H. cbn [db].
  rewrite lookup_insert_eq. reflexivity.
Qed.

Lemma grows_stored rows c s tbl :
  db s !! tn = Some tbl -> grows tn s (stored tn rows (called c s)).
Proof.
  intros H. split; [|split].
  - intros c' Hc. unfold stored. cbn [db called]. rewrite H. cbn.
    apply elem_of_app. left. exact Hc.
  - intros r Hr. rewrite (rows_of_stored rows c s tbl H). apply elem_of_app. left. exact Hr.
  - intros _. unfold stored. cbn [db called]. rewrite H. cbn [db].
    rewrite lookup_insert_eq. eauto.
Qed.

(** One unit: it returns, its call is on the list, and the rows the source
    had for it are in the table. *)
Lemma extend_unit_returns t feed s :
  is_Some (db s !! tn) ->
  let c := Call_pro_bar (Feed.ticker feed) (Feed.START feed) (Feed.TODAY feed)
                        asset adj in
  exists s',
    body (t, feed) s = (Ok tt, s')
    /\ grows tn s s'
    /\ c ∈ calls s'
    /\ (forall bars rows,
          pro_bar (src w) (Feed.ticker feed) (Feed.START feed) (Feed.TODAY feed)
                  asset adj = Frame bars ->
          Feed.convert_bars bars = Ok rows ->
          forall r, r ∈ rows -> r ∈ rows_of tn s').
Proof.
  intros [tbl Ht] c. unfold price_extend_body.
  rewrite extend_price_unit_eq. cbv zeta. fold c.
  pose proof (Hnf (Feed.ticker feed) (Feed.START feed) (Feed.TODAY feed) asset adj) as Hr.
  assert (Hin : forall lv msg, c ∈ calls (logged lv msg (called c s))).
  { intros. cbn. apply elem_of_app. right. left. }
  destruct (pro_bar _ _ _ _ _ _) as [e| |[|b bars]]; [destruct Hr| | |].
  - eexists. split; [reflexivity|]. split; [apply grows_logged_called|].
    split; [apply Hin|]. intros bars rows [=].
  - eexists. split; [reflexivity|]. split; [apply grows_logged_called|].
    split; [apply Hin|]. intros bars rows [= <-]. cbn. intros [= <-] r Hr'. inversion Hr'.
  - destruct (Feed.convert_bars (b :: bars)) as [[|r rows]|e] eqn:Ec; [| |discriminate Hr].
    + eexists. split; [reflexivity|]. split; [apply grows_logged_called|].
      split; [apply Hin|]. intros bars' rows' [= <-]. rewrite Ec. intros [= <-] r Hr'.
      inversion Hr'.
    + rewrite Ht. eexists. split; [reflexivity|].
      split; [apply (grows_stored _ _ _ tbl Ht)|]. split.
      * unfold stored. cbn [db called]. rewrite Ht. cbn. apply elem_of_app. right. left.
      * intros bars' rows' [= <-]. rewrite Ec. intros [= <-] r' Hr'.
        rewrite (rows_of_stored _ _ _ tbl Ht). apply elem_of_app. right. exact Hr'.
Qed.

Lemma loop_returns us s :
  is_Some (db s !! tn) ->
  exists s', for_each us body s = (Ok tt, s') /\ grows tn s s'.
Proof.
  revert s. induction us as [|[t feed] us IH]; intros s Hs; cbn [for_each].
  - exists s. split; [reflexivity|apply grows_refl].
  - destruct (extend_unit_returns t feed s Hs) as (s1 & E1 & G1 & _).
    destruct (IH s1 (proj2 (proj2 G1) Hs)) as (s2 & E2 & G2).
    exists s2. unfold bind. rewrite E1. split; [exact E2|].
    eapply grows_trans; eassumption.
Qed.

End Loops.

Lemma zip_with_map {A B} (f : A -> B) (l : list A) :
  zip l (map f l) = map (fun x => (x, f x)) l.
Proof. induction l as [|x l IH]; simpl; [reflexivity|]. rewrite IH. reflexivity. Qed.




End Onboarding.

(** ** Stored rows are never lost *)

Section StoreKeeping.
Import Manager.

Lemma keeps_store_ret {A} (a : A) : keeps_store (ret a).
Proof. intros s. split; reflexivity. Qed.

Lemma keeps_store_raise {A} (e : exn) : keeps_store (@raise A e).
Proof. intros s. split; reflexivity. Qed.

Lemma keeps_store_lift {A} (r : result A) : keeps_store (lift r).
Proof. intros s. split; reflexivity. Qed.

Lemma keeps_store_logger lv msg : keeps_store (logger lv msg).
Proof. intros s. split; reflexivity. Qed.

Lemma keeps_store_bind {A B} (m : M A) (k : A -> M B) :
  keeps_store m -> (forall a, keeps_store (k a)) -> keeps_store (bind m k).
Proof.
  intros Hm Hk s. unfold bind. specialize (Hm s).
  destruct (m s) as [[a|e] s']; simpl in *; [|exact Hm].
  destruct Hm as [<- <-]. apply Hk.
Qed.

Lemma keeps_store_map_M {A B} (f : A -> M B) (l : list A) :
  (forall x, keeps_store (f x)) -> keeps_store (map_M f l).
Proof.
  intros Hf. induction l as [|x l IH]; simpl; [apply keeps_store_ret|].
  apply keeps_store_bind; [apply Hf|]. intros y.
  apply keeps_store_bind; [exact IH|]. intros ys. apply keeps_store_ret.
Qed.

Lemma keeps_store_call {R} c (r : reply R) : keeps_store (call c r).
Proof. intros s. unfold call, bind, record_call. destruct r; split; reflexivity. Qed.

Ltac keeps :=
  repeat first
    [ apply keeps_store_ret | apply keeps_store_raise | apply keeps_store_lift
    | apply keeps_store_logger | apply keeps_store_call
    | apply keeps_store_map_M; intros ?
    | apply keeps_store_bind; [|intros ?]
    | match goal with
      | |- keeps_store (if ?b then _ else _) => destruct b
      | |- keeps_store (match ?x with _ => _ end) => destruct x
      end ].

Lemma keeps_store_get_db : keeps_store get_db.
Proof. intros s. split; reflexivity. Qed.

Lemma keeps_store_check_table_exists self tn : keeps_store (_check_table_exists self tn).
Proof. unfold _check_table_exists. apply keeps_store_bind; [apply keeps_store_get_db|]. intros d. keeps. Qed.

Lemma keeps_store_check_table_empty self tn : keeps_store (_check_table_empty self tn).
Proof. unfold _check_table_empty. apply keeps_store_bind; [apply keeps_store_get_db|]. intros d. keeps. Qed.

Lemma keeps_store_check_data_exists self tn k : keeps_store (_check_data_exists self tn k).
Proof. unfold _check_data_exists. apply keeps_store_bind; [apply keeps_store_get_db|]. intros d. keeps. Qed.

Lemma keeps_store_get_table_ticker self tn : keeps_store (_get_table_ticker self tn).
Proof. unfold _get_table_ticker. apply keeps_store_bind; [apply keeps_store_get_db|]. intros d. keeps. Qed.

Lemma keeps_store_get_table_date self tn : keeps_store (_get_table_date self tn).
Proof. unfold _get_table_date. apply keeps_store_bind; [apply keeps_store_get_db|]. intros d. keeps. Qed.

Lemma keeps_store_get_table_date_latest self tn : keeps_store (_get_table_date_latest self tn).
Proof.
  unfold _get_table_date_latest. apply keeps_store_bind; [apply keeps_store_get_table_date|].
  intros td. keeps.
Qed.

Lemma keeps_store_load_datafeed w self tl sd ed (update : bool) tn dl :
  keeps_store (_load_datafeed w self tl sd ed update tn dl).
Proof.
  unfold _load_datafeed. apply keeps_store_bind.
  - destruct update; [|apply keeps_store_ret].
    destruct (String.eqb tn ""); [apply keeps_store_raise|].
    apply keeps_store_bind; [apply keeps_store_get_table_date|]. intros ?. apply keeps_store_ret.
  - intros [td e]. destruct dl; keeps.
Qed.

Lemma keeps_store_fetch_volumn_price w feed asset adj update :
  keeps_store (Feed.fetch_volumn_price w feed asset adj update).
Proof. unfold Feed.fetch_volumn_price. keeps. Qed.

Lemma keeps_store_fetch_stock_limit w feed update :
  keeps_store (Feed.fetch_stock_limit w feed update).
Proof. unfold Feed.fetch_stock_limit. keeps. Qed.

Lemma keeps_store_fetch_stock_fundamental w feed update :
  keeps_store (Feed.fetch_stock_fundamental w feed update).
Proof. unfold Feed.fetch_stock_fundamental. keeps. Qed.

Lemma keeps_store_fetch_stock_dividend w feed update cutoff :
  keeps_store (Feed.fetch_stock_dividend w feed update cutoff).
Proof. unfold Feed.fetch_stock_dividend. keeps. Qed.

Lemma keeps_store_fetch_stock_suspend w feed day :
  keeps_store (Feed.fetch_stock_suspend w feed day).
Proof. unfold Feed.fetch_stock_suspend. keeps. Qed.

Lemma keeps_store_fetch_stock_basic w feed ls :
  keeps_store (Feed.fetch_stock_basic w feed ls).
Proof. unfold Feed.fetch_stock_basic. keeps. Qed.

Lemma bind_assoc {A B C} (m : M A) (k : A -> M B) (k' : B -> M C) s :
  bind (bind m k) k' s = bind m (fun a => bind (k a) k') s.
Proof. unfold bind. destruct (m s) as [[a|e] s1]; reflexivity. Qed.

Ltac keeps_leaf :=
  first
    [ apply keeps_store_logger | apply keeps_store_lift | apply keeps_store_ret
    | apply keeps_store_check_table_empty | apply keeps_store_get_table_ticker
    | apply keeps_store_get_table_date | apply keeps_store_get_table_date_latest
    | apply keeps_store_load_datafeed
    | apply keeps_store_fetch_volumn_price | apply keeps_store_fetch_stock_limit
    | apply keeps_store_fetch_stock_fundamental | apply keeps_store_fetch_stock_dividend
    | apply keeps_store_fetch_stock_suspend | apply keeps_store_fetch_stock_basic ].

(** *** The five operations with a loop

    What holds of the state before and after every step that keeps the
    store, every creation of the table and every insert the loops make,
    holds before and after the operations. *)
Section Looped.
Variables (tn : string) (I : state -> Prop).
Hypothesis I_kept : forall A (m : M A), keeps_store m -> preserves I m.
Hypothesis I_created : forall self col msg,
  preserves I
    (there <- _check_table_exists self tn ;;
     if negb there then create_table tn col ;; logger INFO msg else ret tt).
Hypothesis I_inserted : forall self who data,
  preserves I (insert_or_skip self tn who data).

Lemma extend_unit_keeps self who fetch :
  keeps_store fetch -> preserves I (extend_unit self tn who fetch).
Proof.
  intros Hf. unfold extend_unit. apply preserves_bind; [apply I_kept, Hf|].
  intros data. apply I_inserted.
Qed.

Lemma backfill_unit_keeps self key who fetch :
  keeps_store fetch -> preserves I (backfill_unit self tn key who fetch).
Proof.
  intros Hf. unfold backfill_unit.
  apply preserves_bind; [apply I_kept, keeps_store_check_data_exists|].
  intros [|r found]; [apply extend_unit_keeps, Hf|apply preserves_ret].
Qed.

Lemma prologue_keeps self col msg (rest : M unit) :
  preserves I rest ->
  preserves I
    (there <- _check_table_exists self tn ;;
     (if negb there then create_table tn col ;; logger INFO msg else ret tt) ;;
     rest).
Proof.
  intros Hr s HI. rewrite <- bind_assoc.
  revert s HI. apply preserves_bind; [apply I_created|intros _; exact Hr].
Qed.

Ltac looped :=
  repeat first
    [ match goal with
      | |- preserves _ (if ?b then _ else _) => destruct b
      | |- preserves _ (let '(_, _) := ?x in _) => destruct x
      | |- preserves _ (match ?x with _ => _ end) => destruct x
      end
    | apply preserves_ret | apply preserves_raise | apply preserves_lift
    | solve [apply I_kept; keeps_leaf]
    | solve [apply extend_unit_keeps; keeps_leaf]
    | solve [apply backfill_unit_keeps; keeps_leaf]
    | apply preserves_for_each; intros ? _
    | apply preserves_bind; [|intros ?] ].

Lemma price_keeps w self asset adj update :
  preserves I (fetch_volumn_price_data w self tn asset adj update).
Proof. unfold fetch_volumn_price_data. apply prologue_keeps. looped. Qed.

Lemma limit_keeps w self update :
  preserves I (fetch_stock_limit_data w self tn update).
Proof. unfold fetch_stock_limit_data. apply prologue_keeps. looped. Qed.

Lemma fundamental_keeps w self update :
  preserves I (fetch_stock_fundamental_data w self tn update).
Proof. unfold fetch_stock_fundamental_data. apply prologue_keeps. looped. Qed.

Lemma dividend_keeps w self update :
  preserves I (fetch_stock_dividend_data w self tn update).
Proof. unfold fetch_stock_dividend_data. apply prologue_keeps. looped. Qed.

Lemma suspend_keeps w self update :
  preserves I (fetch_stock_suspend_data w self tn update).
Proof. unfold fetch_stock_suspend_data. apply prologue_keeps. looped. Qed.

End Looped.

(** *** Nothing stored is lost *)
Section Appends.
Variables (tn : string) (s0 : state).
Local Abbreviation I := (only_appends_to tn s0).

Lemma only_appends_refl s : only_appends_to tn s s.
Proof.
  split; [reflexivity|]. intros t Ht. exists []. rewrite app_nil_r, Ht. destruct t; reflexivity.
Qed.

Lemma keeps_store_appends {A} (m : M A) : keeps_store m -> preserves I m.
Proof.
  intros Hm s [H1 H2]. destruct (Hm s) as [Hd _]. split.
  - intros tn' Hne. rewrite Hd. apply H1, Hne.
  - intros t Ht. rewrite Hd. apply H2, Ht.
Qed.

Lemma insert_appends self df : preserves I (_insert_df_to_table self df tn).
Proof.
  intros s HI. unfold _insert_df_to_table.
  destruct df as [rows|]; [|exact HI].
  cbv beta iota zeta delta [bind get_db ret raise note_insert put_table].
  cbn [db log calls inserts fst snd].
  destruct (db s !! tn) as [t|] eqn:E; cbn [db log calls inserts fst snd]; [|exact HI].
  destruct HI as [H1 H2]. split; cbn [db].
  - intros tn' Hne. rewrite lookup_insert_ne by congruence. apply H1, Hne.
  - intros t0 Ht0. destruct (H2 t0 Ht0) as [more Hm]. rewrite E in Hm.
    injection Hm as ->. exists (more ++ rows). rewrite lookup_insert_eq. cbn.
    rewrite app_assoc. reflexivity.
Qed.

Lemma create_appends self col msg :
  preserves I
    (there <- _check_table_exists self tn ;;
     if negb there then create_table tn col ;; logger INFO msg else ret tt).
Proof.
  intros s HI.
  cbv beta iota zeta delta [bind _check_table_exists get_db ret create_table put_table logger logged].
  cbn [db log calls inserts fst snd].
  destruct (db s !! tn) as [t|] eqn:E; cbn [negb db log calls inserts fst snd]; [exact HI|].
  destruct HI as [H1 H2]. split; cbn [db].
  - intros tn' Hne. rewrite lookup_insert_ne by congruence. apply H1, Hne.
  - intros t0 Ht0. destruct (H2 t0 Ht0) as [more Hm]. congruence.
Qed.

Lemma insert_or_skip_appends self who data :
  preserves I (insert_or_skip self tn who data).
Proof.
  unfold insert_or_skip. destruct (negb (_check_validity data)).
  - apply keeps_store_appends, keeps_store_logger.
  - apply insert_appends.
Qed.

(** The reference operation inserts without the loops' guard. *)
Lemma basic_appends w self list_status :
  preserves I (fetch_stock_basic_data w self tn list_status).
Proof.
  unfold fetch_stock_basic_data.
  apply (prologue_keeps tn I create_appends).
  apply preserves_bind; [apply preserves_lift|intros feed].
  apply preserves_bind; [apply keeps_store_appends, keeps_store_fetch_stock_basic|intros data].
  apply preserves_bind.
  { destruct (negb (_check_validity data)); [|apply preserves_ret].
    apply keeps_store_appends, keeps_store_logger. }
  intros _. apply preserves_bind; [apply insert_appends|intros _].
  apply keeps_store_appends, keeps_store_logger.
Qed.

End Appends.

(** *** No frame without rows is inserted *)
Section Frames.

Lemma keeps_store_frames {A} (m : M A) : keeps_store m -> preserves no_empty_insert m.
Proof. intros Hm s H. unfold no_empty_insert. destruct (Hm s) as [_ ->]. exact H. Qed.

Lemma create_frames tn self col msg :
  preserves no_empty_insert
    (there <- _check_table_exists self tn ;;
     if negb there then create_table tn col ;; logger INFO msg else ret tt).
Proof.
  intros s H.
  cbv beta iota zeta delta [bind _check_table_exists get_db ret create_table put_table logger logged].
  cbn [db log calls inserts fst snd].
  destruct (db s !! tn); exact H.
Qed.

Lemma insert_or_skip_frames tn self who data :
  preserves no_empty_insert (insert_or_skip self tn who data).
Proof.
  intros s H. unfold insert_or_skip, _insert_df_to_table.
  destruct data as [[|r rows]|]; cbn [_check_validity negb]; try exact H.
  cbv beta iota zeta delta [bind get_db ret raise note_insert put_table].
  cbn [db log calls inserts fst snd].
  destruct (db s !! tn); cbn [db log calls inserts fst snd]; [|exact H].
  unfold no_empty_insert. cbn [inserts]. apply Forall_app. split; [exact H|].
  constructor; [discriminate|constructor].
Qed.

End Frames.

End StoreKeeping.

Section AppendOnly.
Import Manager.

(** X1.  None of the six operations deletes or rewrites what is stored,
    however it ends: the tables other than the one it is run on are as they
    were, and that table, if it was there, keeps its date column and its
    rows, in order, with rows added behind them at most. *)
Theorem X1_operations_only_append :
  forall w self table_name s,
    (forall asset adj update,
       only_appends_to table_name s
         (snd (fetch_volumn_price_data w self table_name asset adj update s)))
    /\ (forall update,
          only_appends_to table_name s
            (snd (fetch_stock_limit_data w self table_name update s)))
    /\ (forall update,
          only_appends_to table_name s
            (snd (fetch_stock_fundamental_data w self table_name update s)))
    /\ (forall update,
          only_appends_to table_name s
            (snd (fetch_stock_dividend_data w self table_name update s)))
    /\ (forall update,
          only_appends_to table_name s
            (snd (fetch_stock_suspend_data w self table_name update s)))
    /\ (forall list_status,
          only_appends_to table_name s
            (snd (fetch_stock_basic_data w self table_name list_status s))).
Proof.
  intros w self tn s.
  pose proof (only_appends_refl tn s) as H0.
  pose proof (@keeps_store_appends tn s) as Hk.
  pose proof (create_appends tn s) as Hc.
  pose proof (insert_or_skip_appends tn s) as Hi.
  repeat match goal with |- _ /\ _ => split end; intros.
  - apply (price_keeps tn _ Hk Hc Hi), H0.
  - apply (limit_keeps tn _ Hk Hc Hi), H0.
  - apply (fundamental_keeps tn _ Hk Hc Hi), H0.
  - apply (dividend_keeps tn _ Hk Hc Hi), H0.
  - apply (suspend_keeps tn _ Hk Hc Hi), H0.
  - apply (basic_appends tn s), H0.
Qed.

(** X14.  The five operations with a loop hand no frame without rows to
    the insert: if every frame inserted so far had rows, so has every frame
    inserted when the operation ends, however it ends. *)
Theorem X14_looped_operations_insert_no_empty_frame :
  forall w self table_name s,
    no_empty_insert s ->
    (forall asset adj update,
       no_empty_insert (snd (fetch_volumn_price_data w self table_name asset adj update s)))
    /\ (forall update,
          no_empty_insert (snd (fetch_stock_limit_data w self table_name update s)))
    /\ (forall update,
          no_empty_insert (snd (fetch_stock_fundamental_data w self table_name update s)))
    /\ (forall update,
          no_empty_insert (snd (fetch_stock_dividend_data w self table_name update s)))
    /\ (forall update,
          no_empty_insert (snd (fetch_stock_suspend_data w self table_name update s))).
Proof.
  intros w self tn s H0.
  pose proof (@keeps_store_frames) as Hk.
  pose proof (create_frames tn) as Hc.
  pose proof (insert_or_skip_frames tn) as Hi.
  repeat match goal with |- _ /\ _ => split end; intros.
  - apply (price_keeps tn _ Hk Hc Hi), H0.
  - apply (limit_keeps tn _ Hk Hc Hi), H0.
  - apply (fundamental_keeps tn _ Hk Hc Hi), H0.
  - apply (dividend_keeps tn _ Hk Hc Hi), H0.
  - apply (suspend_keeps tn _ Hk Hc Hi), H0.
Qed.

Lemma X14_looped_operations_insert_no_empty_frame_witness :
  no_empty_insert
    (snd (fetch_volumn_price_data Scenario.w_one_bar
            (Scenario.manager duckdb ["000001.SZ"] (Scenario.day 2023 1 10))
            "stock_daily" "E" "" false Scenario.no_state)).
Proof.
  destruct (X14_looped_operations_insert_no_empty_frame Scenario.w_one_bar
              (Scenario.manager duckdb ["000001.SZ"] (Scenario.day 2023 1 10))
              "stock_daily" Scenario.no_state) as [H _].
  - constructor.
  - apply H.
Defined.

End AppendOnly.

(** ** Incremental mode on an empty table, and the chdb backend *)

Section Refusals.
Import Manager Scenario.

(** X2.  On duckdb and mongodb, the incremental mode of the four operations
    keyed by ticker, run on a table that is missing or has no rows, raises
    the [LookupError] that names the table, before any call of the source
    and any insert. *)
Theorem X2_update_on_empty_table_raises :
  forall w self table_name asset adj s,
    database self <> chdb ->
    (db s !! table_name = None \/ exists col, db s !! table_name = Some (Table col [])) ->
    Forall (fun op : M unit =>
              outcome op s = Raise (LookupError (table_is_empty_msg table_name))
              /\ calls (final op s) = calls s
              /\ inserts (final op s) = inserts s)
           [fetch_volumn_price_data w self table_name asset adj true;
            fetch_stock_limit_data w self table_name true;
            fetch_stock_fundamental_data w self table_name true;
            fetch_stock_dividend_data w self table_name true].
Proof.
  intros w self tn asset adj s Hdb Ht.
  repeat apply Forall_cons_2; [| | | |apply Forall_nil_2].
  - apply price_update_on_empty_table; assumption.
  - apply limit_update_on_empty_table; assumption.
  - apply fundamental_update_on_empty_table; assumption.
  - apply dividend_update_on_empty_table; assumption.
Qed.

Lemma X2_update_on_empty_table_raises_witness :
  Forall (fun op : M unit =>
            outcome op no_state
            = Raise (LookupError "Table is empty, insert data into table stock_daily first!")
            /\ calls (final op no_state) = []
            /\ inserts (final op no_state) = [])
         [fetch_volumn_price_data w_2023_01_10
            (manager duckdb ["000001.SZ"] (day 2023 1 10)) "stock_daily" "E" "" true;
          fetch_stock_limit_data w_2023_01_10
            (manager duckdb ["000001.SZ"] (day 2023 1 10)) "stock_daily" true;
          fetch_stock_fundamental_data w_2023_01_10
            (manager duckdb ["000001.SZ"] (day 2023 1 10)) "stock_daily" true;
          fetch_stock_dividend_data w_2023_01_10
            (manager duckdb ["000001.SZ"] (day 2023 1 10)) "stock_daily" true].
Proof.
  apply (X2_update_on_empty_table_raises w_2023_01_10
           (manager duckdb ["000001.SZ"] (day 2023 1 10)) "stock_daily" "E" "" no_state).
  - discriminate.
  - left. reflexivity.
Defined.

Ltac chdb_update Hdb :=
  unfold outcome, final;
  cbv beta iota zeta delta [bind _check_table_exists _check_table_empty get_db
    ret raise create_table put_table logger logged];
  cbn [db log calls inserts fst snd]; rewrite Hdb;
  match goal with |- context [db ?s !! ?tn] => destruct (db s !! tn) end;
  cbn; auto.

Ltac chdb_backfill Hdb :=
  unfold outcome, final; cbn [zip zip_with for_each];
  cbv beta iota zeta delta [bind _check_table_exists backfill_unit _check_data_exists
    get_db ret raise create_table put_table logger logged];
  cbn [db log calls inserts fst snd]; rewrite Hdb;
  match goal with |- context [db ?s !! ?tn] => destruct (db s !! tn) end;
  cbn; auto.

(** X3.  The helpers that read a table have no branch for chdb, and leave
    their result unbound.  With that backend the four operations keyed by
    ticker end in an [UnboundLocalError], in incremental mode always and in
    full mode as soon as there is a unit to work on, and so does the
    incremental mode of the suspension operation: no call of the source is
    made and nothing is inserted. *)
Theorem X3_chdb_operations_fail_unbound :
  forall w self table_name asset adj s,
    database self = chdb ->
    Forall (fun op : M unit =>
              outcome op s = Raise (UnboundLocalError "res")
              /\ calls (final op s) = calls s /\ inserts (final op s) = inserts s)
           [fetch_volumn_price_data w self table_name asset adj true;
            fetch_stock_limit_data w self table_name true;
            fetch_stock_fundamental_data w self table_name true;
            fetch_stock_dividend_data w self table_name true]
    /\ (outcome (fetch_stock_suspend_data w self table_name true) s
          = Raise (UnboundLocalError "query_str")
        /\ calls (final (fetch_stock_suspend_data w self table_name true) s) = calls s
        /\ inserts (final (fetch_stock_suspend_data w self table_name true) s)
           = inserts s)
    /\ (ticker_list self <> [] -> data_feeds self <> [] ->
        Forall (fun op : M unit =>
                  outcome op s = Raise (UnboundLocalError "result")
                  /\ calls (final op s) = calls s /\ inserts (final op s) = inserts s)
               [fetch_volumn_price_data w self table_name asset adj false;
                fetch_stock_limit_data w self table_name false;
                fetch_stock_fundamental_data w self table_name false;
                fetch_stock_dividend_data w self table_name false]).
Proof.
  intros w self tn asset adj s Hdb. split; [|split].
  - repeat apply Forall_cons_2; [| | | |apply Forall_nil_2].
    + unfold fetch_volumn_price_data. chdb_update Hdb.
    + unfold fetch_stock_limit_data. chdb_update Hdb.
    + unfold fetch_stock_fundamental_data. chdb_update Hdb.
    + unfold fetch_stock_dividend_data. chdb_update Hdb.
  - unfold fetch_stock_suspend_data, outcome, final.
    cbv beta iota zeta delta [bind _check_table_exists _get_table_date_latest
      _get_table_date get_db ret raise create_table put_table logger logged].
    cbn [db log calls inserts fst snd]. rewrite Hdb.
    destruct (db s !! tn); cbn; auto.
  - intros Ht Hf.
    destruct (ticker_list self) as [|t ts] eqn:Et; [congruence|].
    destruct (data_feeds self) as [|f fs] eqn:Ef; [congruence|].
    repeat apply Forall_cons_2; [| | | |apply Forall_nil_2].
    + unfold fetch_volumn_price_data. rewrite Et, Ef. chdb_backfill Hdb.
    + unfold fetch_stock_limit_data. rewrite Et, Ef. chdb_backfill Hdb.
    + unfold fetch_stock_fundamental_data. rewrite Et, Ef. chdb_backfill Hdb.
    + unfold fetch_stock_dividend_data. rewrite Et, Ef. chdb_backfill Hdb.
Qed.

Lemma X3_chdb_operations_fail_unbound_witness :
  let m := manager chdb ["000001.SZ"] (day 2023 1 10) in
  outcome (fetch_volumn_price_data w_one_bar m "stock_daily" "E" "" true) prices_to_jan5
    = Raise (UnboundLocalError "res")
  /\ outcome (fetch_stock_suspend_data w_one_bar m "stock_daily" true) prices_to_jan5
     = Raise (UnboundLocalError "query_str")
  /\ outcome (fetch_volumn_price_data w_one_bar m "stock_daily" "E" "" false) prices_to_jan5
     = Raise (UnboundLocalError "result")
  /\ calls (final (fetch_volumn_price_data w_one_bar m "stock_daily" "E" "" false)
                  prices_to_jan5) = [].
Proof.
  intros m.
  destruct (X3_chdb_operations_fail_unbound w_one_bar m "stock_daily" "E" ""
              prices_to_jan5 eq_refl) as (Hu & Hs & Hb).
  apply Forall_cons_1 in Hu as [Hu _].
  specialize (Hb ltac:(discriminate) ltac:(discriminate)).
  apply Forall_cons_1 in Hb as [Hb _].
  split; [apply Hu|]. split; [apply Hs|]. split; apply Hb.
Defined.

End Refusals.

(** ** The watermark query *)

Section WatermarkQuery.
Import Manager Scenario.

(** X4.  What [_get_ticker_date] returns for a ticker whose watermark is a
    [pd.Timestamp]: the day [2 * shift] after it, written [YYYYMMDD]; for a
    watermark kept as text it is the day [shift] after it.  With [shift = 0]
    both give the watermark itself. *)
Theorem X4_get_ticker_date_shifts :
  forall self table_date ticker shift t,
    database self <> chdb ->
    Date.in_bounds t = true ->
    Date.in_bounds (t + shift) = true ->
    Date.in_bounds (t + shift + shift) = true ->
    (lookup_code ticker table_date = Ok (CTimestamp t) ->
     _get_ticker_date self table_date ticker shift
     = Ok (Some (Date.strftime (t + shift + shift))))
    /\ (lookup_code ticker table_date = Ok (CStr (Date.strftime t)) ->
        _get_ticker_date self table_date ticker shift
        = Ok (Some (Date.strftime (t + shift)))).
Proof.
  intros self td ticker shift t Hdb H0 H1 H2. split; intros Hl.
  - apply get_ticker_date_Timestamp; try assumption.
    apply in_bounds_range, H2.
  - apply get_ticker_date_Str; try assumption.
    apply in_bounds_range, H1.
Qed.

Lemma X4_get_ticker_date_shifts_witness :
  _get_ticker_date (manager mongodb [] (day 2023 1 10))
                   [("600000.SH", CTimestamp (day 2024 2 28))] "600000.SH" 1
  = Ok (Some "20240301")
  /\ _get_ticker_date (manager mongodb [] (day 2023 1 10))
                      [("600000.SH", CStr "20240228")] "600000.SH" 1
     = Ok (Some "20240229").
Proof.
  destruct (X4_get_ticker_date_shifts (manager mongodb [] (day 2023 1 10))
              [("600000.SH", CTimestamp (day 2024 2 28))] "600000.SH" 1
              (day 2024 2 28) ltac:(discriminate) eq_refl eq_refl eq_refl) as [H1 _].
  destruct (X4_get_ticker_date_shifts (manager mongodb [] (day 2023 1 10))
              [("600000.SH", CStr "20240228")] "600000.SH" 1
              (day 2024 2 28) ltac:(discriminate) eq_refl eq_refl eq_refl) as [_ H2].
  split; [exact (H1 eq_refl)|exact (H2 eq_refl)].
Defined.

End WatermarkQuery.

(** ** The grouped maximum *)

Section GroupedMaximum.
Import Manager Scenario.

Lemma fold_max_spec (l : list Z) a :
  let m := fold_left Z.max l a in
  (m = a \/ m ∈ l) /\ a <= m /\ Forall (fun x => x <= m) l.
Proof.
  revert a. induction l as [|x l IH]; intros a; simpl.
  - split; [left; reflexivity|]. split; [lia|constructor].
  - destruct (IH (Z.max a x)) as (Hin & Hle & Hall). split; [|split].
    + destruct Hin as [Hin|Hin]; [|right; right; exact Hin].
      destruct (Z.max_spec a x) as [[_ E]|[_ E]]; rewrite E in *.
      * right. rewrite Hin. left.
      * left. exact Hin.
    + lia.
    + constructor; [lia|exact Hall].
Qed.

Lemma max_date_spec (rows : list row) :
  rows <> [] ->
  exists m, max_date rows = CTimestamp m /\ latest_day rows m.
Proof.
  intros Hne. destruct rows as [|r rows]; [congruence|].
  exists (fold_left Z.max (map date rows) (date r)). split; [reflexivity|].
  destruct (fold_max_spec (map date rows) (date r)) as (Hin & Hle & Hall).
  cbv zeta in *. split.
  - destruct Hin as [Hin|Hin].
    + exists r. split; [left|exact (eq_sym Hin)].
    + apply list_elem_of_fmap in Hin as (r' & E & Hr').
      exists r'. split; [right; exact Hr'|exact (eq_sym E)].
  - intros r' Hr'. apply elem_of_cons in Hr' as [->|Hr']; [exact Hle|].
    rewrite Forall_forall in Hall. apply Hall. apply list_elem_of_fmap.
    exists r'. split; [reflexivity|exact Hr'].
Qed.

Lemma elem_of_rows_with_code c (rows : list row) r :
  r ∈ rows_with_code c rows <-> r ∈ rows /\ ts_code r = c.
Proof.
  unfold rows_with_code. rewrite !list_elem_of_In, List.filter_In, String.eqb_eq.
  reflexivity.
Qed.

Lemma max_date_of_code c (rows : list row) :
  c ∈ map ts_code rows ->
  exists m, max_date (rows_with_code c rows) = CTimestamp m /\ latest_of c rows m.
Proof.
  intros Hc.
  destruct (max_date_spec _ (rows_with_code_of_member c rows Hc)) as (m & Hm & [Hex Hub]).
  exists m. split; [exact Hm|]. split.
  - destruct Hex as (r & Hr & E). apply elem_of_rows_with_code in Hr as [Hr Hcode].
    exists r. auto.
  - intros r Hr Hcode. apply Hub. apply elem_of_rows_with_code. auto.
Qed.

Lemma drop_duplicates_from_NoDup {A} `{EqDecision A} (seen l : list A) :
  NoDup (drop_duplicates_from seen l)
  /\ forall x, x ∈ drop_duplicates_from seen l -> x ∉ seen.
Proof.
  revert seen. induction l as [|a l IH]; intros seen; simpl.
  - split; [constructor|]. intros x Hx. inversion Hx.
  - destruct (decide (a ∈ seen)) as [Hin|Hnin]; [apply IH|].
    destruct (IH (a :: seen)) as [Hnd Hns]. split.
    + constructor; [|exact Hnd]. intros Ha. apply (Hns a Ha). left.
    + intros x Hx. apply elem_of_cons in Hx as [->|Hx]; [exact Hnin|].
      intros Hs. apply (Hns x Hx). right. exact Hs.
Qed.

Lemma distinct_codes_NoDup (rows : list row) : NoDup (distinct_codes rows).
Proof. apply drop_duplicates_from_NoDup. Qed.

Lemma elem_of_distinct_codes c (rows : list row) :
  c ∈ distinct_codes rows <-> exists r, r ∈ rows /\ ts_code r = c.
Proof.
  unfold distinct_codes. rewrite (elem_of_drop_duplicates (map ts_code rows) c).
  rewrite list_elem_of_fmap. split; intros (r & H1 & H2); exists r; auto.
Qed.

Lemma get_table_date_reads self tn s tbl :
  database self <> chdb ->
  db s !! tn = Some tbl -> t_date_col tbl = date_column_of tn ->
  _get_table_date self tn s
  = (Ok (map (fun c => (c, max_date (rows_with_code c (t_rows tbl))))
             (distinct_codes (t_rows tbl))), s).
Proof.
  intros Hdb Ht Hcol.
  cbv beta iota zeta delta [_get_table_date bind get_db ret raise].
  rewrite Ht, Hcol. unfold date_column_of. rewrite String.eqb_refl. cbn [negb].
  destruct (database self); [congruence|reflexivity|reflexivity].
Qed.

(** X5.  The frame of watermarks of a table, on duckdb and mongodb, has one
    line for each ticker that has rows and for no other, and the date on the
    line of a ticker is the latest day stored for it.  The state is not
    touched. *)
Theorem X5_table_date_is_grouped_maximum :
  forall self table_name s tbl,
    database self <> chdb ->
    db s !! table_name = Some tbl ->
    t_date_col tbl = date_column_of table_name ->
    exists table_date,
      _get_table_date self table_name s = (Ok table_date, s)
      /\ NoDup (map fst table_date)
      /\ (forall c, c ∈ map fst table_date
                    <-> exists r, r ∈ t_rows tbl /\ ts_code r = c)
      /\ (forall c v, (c, v) ∈ table_date ->
            exists m, v = CTimestamp m /\ latest_of c (t_rows tbl) m).
Proof.
  intros self tn s tbl Hdb Ht Hcol. eexists.
  split; [apply (get_table_date_reads self tn s tbl Hdb Ht Hcol)|].
  rewrite map_map. cbn [fst]. rewrite map_id.
  split; [apply distinct_codes_NoDup|]. split; [intros c; apply elem_of_distinct_codes|].
  intros c v Hin. apply list_elem_of_fmap in Hin as (c' & E & Hc'). injection E as -> ->.
  destruct (max_date_of_code c' (t_rows tbl)) as (m & Hm & Hl).
  - apply elem_of_distinct_codes in Hc' as (r & Hr & <-).
    apply list_elem_of_fmap. exists r. auto.
  - exists m. auto.
Qed.

Lemma X5_table_date_is_grouped_maximum_witness :
  exists table_date,
    _get_table_date (manager duckdb [] (day 2023 1 10)) "stock_daily" prices_to_jan5
    = (Ok table_date, prices_to_jan5)
    /\ NoDup (map fst table_date)
    /\ (forall c, c ∈ map fst table_date
                  <-> exists r, r ∈ [Row "000001.SZ" (day 2023 1 4) [10];
                                     Row "000001.SZ" (day 2023 1 5) [11]]
                                /\ ts_code r = c)
    /\ (forall c v, (c, v) ∈ table_date ->
          exists m, v = CTimestamp m
                    /\ latest_of c [Row "000001.SZ" (day 2023 1 4) [10];
                                    Row "000001.SZ" (day 2023 1 5) [11]] m).
Proof.
  apply (X5_table_date_is_grouped_maximum (manager duckdb [] (day 2023 1 10))
           "stock_daily" prices_to_jan5
           (Table "trade_date" [Row "000001.SZ" (day 2023 1 4) [10];
                                Row "000001.SZ" (day 2023 1 5) [11]])).
  - discriminate.
  - reflexivity.
  - reflexivity.
Defined.

Lemma column_max_timestamps (l : list Z) a :
  fold_left (fun acc c =>
               match acc, c with
               | CTimestamp a, CTimestamp b => CTimestamp (Z.max a b)
               | CNull, CTimestamp b => CTimestamp b
               | _, _ => acc
               end) (map CTimestamp l) (CTimestamp a)
  = CTimestamp (fold_left Z.max l a).
Proof. revert a. induction l as [|x l IH]; intros a; simpl; [reflexivity|apply IH]. Qed.

(** The greatest of the grouped maxima is the latest day of the table. *)
Lemma column_max_latest (rows : list row) :
  rows <> [] ->
  exists m,
    column_max (map snd (map (fun c => (c, max_date (rows_with_code c rows)))
                             (distinct_codes rows)))
    = CTimestamp m
    /\ latest_day rows m.
Proof.
  intros Hne.
  set (g := fun c => match max_date (rows_with_code c rows) with
                     | CTimestamp m => m
                     | _ => 0
                     end).
  assert (Hg : forall c, c ∈ distinct_codes rows ->
                 max_date (rows_with_code c rows) = CTimestamp (g c)
                 /\ latest_of c rows (g c)).
  { intros c Hc. destruct (max_date_of_code c rows) as (m & Hm & Hl).
    - apply elem_of_distinct_codes in Hc as (r & Hr & <-).
      apply list_elem_of_fmap. exists r. auto.
    - unfold g. rewrite Hm. auto. }
  assert (Hcells : map snd (map (fun c => (c, max_date (rows_with_code c rows)))
                                (distinct_codes rows))
                   = map CTimestamp (map g (distinct_codes rows))).
  { rewrite !map_map. cbn [snd]. apply map_ext_in. intros c Hc.
    apply Hg. apply list_elem_of_In. exact Hc. }
  rewrite Hcells.
  destruct (distinct_codes rows) as [|c0 cs] eqn:Ecs.
  { exfalso. destruct rows as [|r rows']; [congruence|].
    assert (Hr : ts_code r ∈ distinct_codes (r :: rows'))
      by (apply elem_of_distinct_codes; exists r; split; [left|reflexivity]).
    rewrite Ecs in Hr. inversion Hr. }
  exists (fold_left Z.max (map g cs) (g c0)). split.
  - unfold column_max. cbn [map fold_left]. apply column_max_timestamps.
  - destruct (fold_max_spec (map g cs) (g c0)) as (Hin & Hle & Hall). cbv zeta in *.
    set (M := fold_left Z.max (map g cs) (g c0)) in *.
    assert (Hmem : exists c, c ∈ c0 :: cs /\ g c = M).
    { destruct Hin as [Hin|Hin]; [exists c0; split; [left|auto]|].
      apply list_elem_of_fmap in Hin as (c & E & Hc). exists c. split; [right; exact Hc|auto]. }
    assert (Hub : forall c, c ∈ c0 :: cs -> g c <= M).
    { intros c Hc. apply elem_of_cons in Hc as [->|Hc]; [exact Hle|].
      rewrite Forall_forall in Hall. apply Hall, list_elem_of_fmap. exists c. auto. }
    split.
    + destruct Hmem as (c & Hc & E). destruct (Hg c Hc) as [_ [(r & Hr & _ & Hd) _]].
      exists r. split; [exact Hr|]. rewrite Hd. exact E.
    + intros r Hr.
      assert (Hc : ts_code r ∈ c0 :: cs).
      { rewrite <- Ecs. apply elem_of_distinct_codes. exists r. auto. }
      destruct (Hg _ Hc) as [_ [_ Hle']]. specialize (Hle' r Hr eq_refl).
      specialize (Hub _ Hc). lia.
Qed.

Lemma get_table_date_latest_reads self tn s tbl :
  database self <> chdb ->
  db s !! tn = Some tbl -> t_date_col tbl = date_column_of tn ->
  t_rows tbl <> [] ->
  _get_table_date_latest self tn s
  = (Ok (column_max (map snd (map (fun c => (c, max_date (rows_with_code c (t_rows tbl))))
                                  (distinct_codes (t_rows tbl))))), s).
Proof.
  intros Hdb Ht Hcol Hne. unfold _get_table_date_latest, bind.
  rewrite (get_table_date_reads self tn s tbl Hdb Ht Hcol).
  destruct (database self); [congruence|reflexivity|].
  destruct (distinct_codes (t_rows tbl)) as [|c cs] eqn:E; [|reflexivity].
  exfalso. destruct (t_rows tbl) as [|r rows']; [congruence|].
  assert (Hr : ts_code r ∈ distinct_codes (r :: rows'))
    by (apply elem_of_distinct_codes; exists r; split; [left|reflexivity]).
  rewrite E in Hr. inversion Hr.
Qed.

(** X6.  The latest day of a table that has rows, as the suspension update
    asks for it, on duckdb and mongodb: the greatest date any row has. *)
Theorem X6_latest_table_date_is_maximum :
  forall self table_name s tbl,
    database self <> chdb ->
    db s !! table_name = Some tbl ->
    t_date_col tbl = date_column_of table_name ->
    t_rows tbl <> [] ->
    exists m,
      _get_table_date_latest self table_name s = (Ok (CTimestamp m), s)
      /\ latest_day (t_rows tbl) m.
Proof.
  intros self tn s tbl Hdb Ht Hcol Hne.
  destruct (column_max_latest (t_rows tbl) Hne) as (m & Hm & Hl).
  exists m. split; [|exact Hl].
  rewrite (get_table_date_latest_reads self tn s tbl Hdb Ht Hcol Hne), Hm. reflexivity.
Qed.

Lemma X6_latest_table_date_is_maximum_witness :
  exists m,
    _get_table_date_latest (manager mongodb [] (day 2023 1 10)) "stock_daily"
                           prices_to_jan5
    = (Ok (CTimestamp m), prices_to_jan5)
    /\ latest_day [Row "000001.SZ" (day 2023 1 4) [10];
                   Row "000001.SZ" (day 2023 1 5) [11]] m.
Proof.
  apply (X6_latest_table_date_is_maximum (manager mongodb [] (day 2023 1 10))
           "stock_daily" prices_to_jan5
           (Table "trade_date" [Row "000001.SZ" (day 2023 1 4) [10];
                                Row "000001.SZ" (day 2023 1 5) [11]])).
  - discriminate.
  - reflexivity.
  - reflexivity.
  - discriminate.
Defined.

End GroupedMaximum.

(** ** Building the feeds *)

Section LoadFeeds.
Import Manager Scenario.

(** X7.  The feeds of an incremental run, on duckdb and mongodb with the
    tushare source, for tickers that have rows: one feed for each ticker, in
    order, that ends today and starts two days after the latest day stored
    for its ticker.  Nothing is called or changed to build them. *)
Theorem X7_incremental_feeds_start_two_days_after_latest :
  forall w self table_name s tbl tickers,
    database self <> chdb ->
    table_name <> "" ->
    Manager.source self = "tushare" ->
    db s !! table_name = Some tbl ->
    t_date_col tbl = date_column_of table_name ->
    shiftable (t_rows tbl) ->
    (forall c, c ∈ tickers -> exists r, r ∈ t_rows tbl /\ ts_code r = c) ->
    exists feeds,
      _load_datafeed w self (Some tickers) None None true table_name [] s
      = (Ok feeds, s)
      /\ Forall2 (fun c feed =>
                    exists m,
                      latest_of c (t_rows tbl) m
                      /\ feed = {| Feed.ticker := Some c;
                                   Feed.START := Date.strftime (m + 2);
                                   Feed.END := TODAY self;
                                   Feed.TODAY := Date.strftime (today w) |})
                 tickers feeds.
Proof.
  intros w self tn s tbl tickers Hdb Hne Hsrc Ht Hcol Hs Hin.
  set (rows := t_rows tbl) in *.
  set (g := fun c => match max_date (rows_with_code c rows) with
                     | CTimestamp m => m
                     | _ => 0
                     end).
  set (mk := fun c => {| Feed.ticker := Some c;
                         Feed.START := Date.strftime (g c + 2);
                         Feed.END := TODAY self;
                         Feed.TODAY := Date.strftime (today w) |}).
  assert (Hg : forall c, c ∈ tickers ->
                 max_date (rows_with_code c rows) = CTimestamp (g c)
                 /\ latest_of c rows (g c)
                 /\ Date.in_bounds (g c + 1) = true).
  { intros c Hc.
    assert (Hmem : c ∈ map ts_code rows).
    { destruct (Hin c Hc) as (r & Hr & <-). apply list_elem_of_fmap. exists r. auto. }
    destruct (max_date_of_code c rows Hmem) as (m & Hm & Hl).
    destruct (max_date_shiftable (rows_with_code c rows)
                (rows_with_code_of_member c rows Hmem) (shiftable_filter c rows Hs))
      as (m' & Hm' & Hb).
    unfold g. rewrite Hm. rewrite Hm in Hm'. injection Hm' as <-. auto. }
  exists (map mk tickers). split.
  - unfold _load_datafeed. cbn [default].
    assert (E : String.eqb tn "" = false) by (apply String.eqb_neq; exact Hne).
    rewrite E. unfold bind at 1. unfold bind at 1.
    rewrite (get_table_date_reads self tn s tbl Hdb Ht Hcol). cbn [ret]. fold rows.
    apply map_M_pure. intros c Hc. destruct (Hg c Hc) as (Hm & _ & Hb).
    unfold bind, lift.
    rewrite (get_ticker_date_Timestamp self _ c 1 (g c) Hdb).
    + replace (g c + 1 + 1) with (g c + 2) by lia.
      unfold Feed.create_data_feed. rewrite Hsrc. reflexivity.
    + unfold lookup_code. rewrite (find_code _ _ c).
      * cbn [snd]. rewrite Hm. reflexivity.
      * apply elem_of_distinct_codes. apply Hin, Hc.
    + exact Hb.
    + apply in_bounds_days in Hb. change (Date._ymd2ord 9999 12 31) with 3652059. lia.
  - apply Forall2_fmap_r. apply Forall_Forall2_diag. apply Forall_forall.
    intros c Hc. exists (g c). split; [apply Hg, Hc|reflexivity].
Qed.

Lemma X7_incremental_feeds_start_two_days_after_latest_witness :
  exists feeds,
    _load_datafeed w_2023_01_10 (manager duckdb ["000001.SZ"] (day 2023 1 10))
                   (Some ["000001.SZ"]) None None true "stock_daily" [] prices_to_jan5
    = (Ok feeds, prices_to_jan5)
    /\ Forall2 (fun c feed =>
                  exists m,
                    latest_of c [Row "000001.SZ" (day 2023 1 4) [10];
                                 Row "000001.SZ" (day 2023 1 5) [11]] m
                    /\ feed = {| Feed.ticker := Some c;
                                 Feed.START := Date.strftime (m + 2);
                                 Feed.END := "20230110";
                                 Feed.TODAY := "20230110" |})
               ["000001.SZ"] feeds.
Proof.
  apply (X7_incremental_feeds_start_two_days_after_latest w_2023_01_10
           (manager duckdb ["000001.SZ"] (day 2023 1 10)) "stock_daily" prices_to_jan5
           (Table "trade_date" [Row "000001.SZ" (day 2023 1 4) [10];
                                Row "000001.SZ" (day 2023 1 5) [11]])
           ["000001.SZ"]).
  - discriminate.
  - discriminate.
  - reflexivity.
  - reflexivity.
  - reflexivity.
  - repeat constructor.
  - intros c Hc. apply list_elem_of_singleton in Hc. subst c.
    eexists. split; [left|reflexivity].
Defined.

End LoadFeeds.

(** ** Feeds of a full run *)

Section FullFeeds.
Import Manager Scenario.

(** X8.  [_load_datafeed] without [update].  Given days, it makes one feed
    for each day, without ticker and over the default range, and the tickers
    are not looked at; given none, it makes one feed for each ticker, over
    the range given or else the manager's.  The source is checked when a
    feed is made, not before: with a source other than tushare the result is
    a [ValueError] if there is a feed to make, and the empty list if there
    is none.  The state is not touched. *)
Theorem X8_load_datafeed_full_mode :
  forall w self ticker_list start_date end_date date_list s,
    let tickers := default (Manager.ticker_list self) ticker_list in
    let units := match date_list with [] => length tickers | _ => length date_list end in
    _load_datafeed w self ticker_list start_date end_date false "" date_list s
    = if String.eqb (Manager.source self) "tushare" || bool_decide (units = 0%nat)
      then
        (Ok match date_list with
            | [] =>
                map (fun t => {| Feed.ticker := Some t;
                                 Feed.START := default (Manager.start_date self) start_date;
                                 Feed.END := default (Manager.end_date self) end_date;
                                 Feed.TODAY := Date.strftime (today w) |})
                    tickers
            | _ =>
                map (fun _ => {| Feed.ticker := None;
                                 Feed.START := "20050101";
                                 Feed.END := "20231231";
                                 Feed.TODAY := Date.strftime (today w) |})
                    date_list
            end, s)
      else (Raise ValueError, s).
Proof.
  intros w self tl sd ed dl s tickers units.
  unfold _load_datafeed. fold tickers. unfold bind at 1. cbn [ret].
  unfold Feed.create_data_feed.
  destruct (String.eqb (Manager.source self) "tushare") eqn:Es; cbn [orb].
  - destruct dl as [|d dl].
    + apply map_M_pure. intros t _. reflexivity.
    + apply (map_M_pure _ (fun _ => _)). intros t _. reflexivity.
  - subst units. destruct dl as [|d dl].
    + destruct tickers as [|t tickers]; reflexivity.
    + reflexivity.
Qed.

End FullFeeds.

(** ** Inserting and reading back *)

Section InsertLookup.
Import Manager Scenario.

Lemma db_stored tn rows s tbl :
  db s !! tn = Some tbl ->
  db (stored tn rows s) !! tn = Some (Table (t_date_col tbl) (t_rows tbl ++ rows)).
Proof. intros H. unfold stored. rewrite H. cbn [db]. apply lookup_insert_eq. Qed.



End InsertLookup.

(** ** A full run over tickers that are stored *)

Section LoadedTickers.
Import Manager Scenario.

Lemma for_each_idle {U} (us : list U) (body : U -> M unit) s :
  (forall u, u ∈ us -> body u s = (Ok tt, s)) ->
  for_each us body s = (Ok tt, s).
Proof.
  induction us as [|u us IH]; intros Hb; simpl; [reflexivity|].
  unfold bind. rewrite (Hb u) by left. apply IH.
  intros v Hv. apply Hb. right. exact Hv.
Qed.

Lemma backfill_unit_found self tn t who fetch s tbl :
  database self <> chdb ->
  db s !! tn = Some tbl ->
  contains_char "."%char t = true ->
  (exists r, r ∈ t_rows tbl /\ ts_code r = t) ->
  backfill_unit self tn t who fetch s = (Ok tt, s).
Proof.
  intros Hdb Ht Hdot (r & Hr & Hc). unfold backfill_unit, bind.
  rewrite (check_data_exists_dotted self tn t s Hdot). rewrite Ht.
  assert (Hin : r ∈ rows_with_code t (t_rows tbl)) by (apply elem_of_rows_with_code; auto).
  destruct (rows_with_code t (t_rows tbl)) as [|x l]; [inversion Hin|].
  destruct (database self); [congruence|reflexivity|reflexivity].
Qed.

Lemma loaded_loop self tn s tbl (fetch : Feed.TSDataFeed -> M (option (list row))) col msg :
  database self <> chdb ->
  db s !! tn = Some tbl ->
  (forall t, t ∈ ticker_list self ->
     contains_char "."%char t = true /\ exists r, r ∈ t_rows tbl /\ ts_code r = t) ->
  (there <- _check_table_exists self tn ;;
   (if negb there then create_table tn col ;; logger INFO msg else ret tt) ;;
   for_each (zip (ticker_list self) (data_feeds self)) (fun '(ticker, feed) =>
     backfill_unit self tn ticker ticker (fetch feed)) ;;
   logger INFO (tn +:+ " data insertion completed.")) s
  = (Ok tt, logged INFO (tn +:+ " data insertion completed.") s).
Proof.
  intros Hdb Ht Hall.
  unfold bind at 1. unfold _check_table_exists, bind at 1, get_db, ret at 1.
  rewrite Ht. cbn [negb]. unfold bind at 1. unfold ret at 1. unfold bind at 1.
  rewrite for_each_idle; [reflexivity|].
  intros [t f] Hin. apply elem_of_zip_l in Hin. destruct (Hall t Hin) as [Hdot Hex].
  apply (backfill_unit_found self tn t t (fetch f) s tbl Hdb Ht Hdot Hex).
Qed.

(** X10.  The full mode of the four operations keyed by ticker, on duckdb
    and mongodb, when every ticker of the manager is written with a dot and
    has a row in the table: no unit is fetched, nothing is called, inserted
    or warned about, and the run ends with its line of completion in the
    log as the only change. *)
Theorem X10_full_run_skips_stored_tickers :
  forall w self table_name asset adj s tbl,
    database self <> chdb ->
    db s !! table_name = Some tbl ->
    (forall t, t ∈ ticker_list self ->
       contains_char "."%char t = true
       /\ exists r, r ∈ t_rows tbl /\ ts_code r = t) ->
    Forall (fun op : M unit =>
              op s = (Ok tt, logged INFO (table_name +:+ " data insertion completed.") s))
           [fetch_volumn_price_data w self table_name asset adj false;
            fetch_stock_limit_data w self table_name false;
            fetch_stock_fundamental_data w self table_name false;
            fetch_stock_dividend_data w self table_name false].
Proof.
  intros w self tn asset adj s tbl Hdb Ht Hall.
  repeat apply Forall_cons_2; [| | | |apply Forall_nil_2].
  - apply (loaded_loop self tn s tbl
             (fun feed => Feed.fetch_volumn_price w feed asset adj false)); assumption.
  - apply (loaded_loop self tn s tbl
             (fun feed => Feed.fetch_stock_limit w feed false)); assumption.
  - apply (loaded_loop self tn s tbl
             (fun feed => Feed.fetch_stock_fundamental w feed false)); assumption.
  - apply (loaded_loop self tn s tbl
             (fun feed => Feed.fetch_stock_dividend w feed false None)); assumption.
Qed.

Lemma X10_full_run_skips_stored_tickers_witness :
  Forall (fun op : M unit =>
            op prices_to_jan5
            = (Ok tt, logged INFO "stock_daily data insertion completed." prices_to_jan5))
         [fetch_volumn_price_data w_one_bar
            (manager duckdb ["000001.SZ"] (day 2023 1 10)) "stock_daily" "E" "" false;
          fetch_stock_limit_data w_one_bar
            (manager duckdb ["000001.SZ"] (day 2023 1 10)) "stock_daily" false;
          fetch_stock_fundamental_data w_one_bar
            (manager duckdb ["000001.SZ"] (day 2023 1 10)) "stock_daily" false;
          fetch_stock_dividend_data w_one_bar
            (manager duckdb ["000001.SZ"] (day 2023 1 10)) "stock_daily" false].
Proof.
  apply (X10_full_run_skips_stored_tickers w_one_bar
           (manager duckdb ["000001.SZ"] (day 2023 1 10)) "stock_daily" "E" ""
           prices_to_jan5
           (Table "trade_date" [Row "000001.SZ" (day 2023 1 4) [10];
                                Row "000001.SZ" (day 2023 1 5) [11]])).
  - discriminate.
  - reflexivity.
  - intros t Ht. apply list_elem_of_singleton in Ht. subst t.
    split; [reflexivity|]. eexists. split; [left|reflexivity].
Defined.

End LoadedTickers.

(** ** The suspension table, day by day *)

Section DashedDates.
Import Date.

Lemma md_all_dash : all_from 12 1 (fun m => all_from 31 1 (md_ok_dash m)) = true.
Proof. vm_compute. reflexivity. Qed.

(** Reading back what [strftime("%Y-%m-%d")] wrote gives the day again. *)
Lemma strptime_strftime_dash d :
  1 <= d <= _ymd2ord 9999 12 31 -> strptime_dash (strftime_dash d) = Some d.
Proof.
  intros Hd. pose proof (ord2ymd_date d Hd) as H.
  unfold strftime_dash. destruct (_ord2ymd d) as [[y m] dd].
  destruct H as (Hy & Hm & Hdd & Hdate).
  unfold strptime_dash, strptime_sep.
  destruct (year_digits y ltac:(lia)) as [-> ->].
  pose proof (all_from_spec _ _ _ md_all_dash m ltac:(lia)) as H1. cbv beta in H1.
  pose proof (all_from_spec _ _ _ H1 dd ltac:(lia)) as H2.
  unfold md_ok_dash, md_text_dash in H2.
  destruct (md_match (Some "-"%char) _) as [[[m' dd'] rest]|]; [|discriminate].
  destruct rest; [|discriminate].
  apply andb_true_iff in H2 as [E1 E2]. apply Z.eqb_eq in E1, E2. subst.
  replace (100 * (y / 100) + y mod 100) with y by (Z.div_mod_to_equations; lia).
  exact Hdate.
Qed.

Lemma digit_char_not_dot k : Ascii.eqb (digit_char k) "."%char = false.
Proof.
  unfold digit_char.
  assert (H : 0 <= k mod 10 < 10) by (apply Z.mod_pos_bound; lia).
  destruct (k mod 10) as [|p|p]; [reflexivity| |lia].
  do 4 (destruct p as [p|p|]; try lia; try reflexivity).
Qed.

Lemma strftime_dash_no_dot d : contains_char "."%char (strftime_dash d) = false.
Proof.
  unfold strftime_dash. destruct (_ord2ymd d) as [[y m] dd].
  cbn [contains_char]. rewrite !digit_char_not_dot. reflexivity.
Qed.

End DashedDates.

Section SuspensionDays.
Import Manager Scenario.

Lemma convert_bars_nonempty b bars rows :
  Feed.convert_bars (b :: bars) = Ok rows -> rows <> [].
Proof.
  simpl. destruct (Feed.to_datetime (bar_date b)); [|discriminate].
  destruct (Feed.convert_bars bars); [|discriminate]. intros [= <-]. discriminate.
Qed.

Lemma fetch_stock_suspend_reply w feed day s :
  Feed.fetch_stock_suspend w feed day s
  = match suspend_d (src w) day with
    | Raises e => (Raise e, called (Call_suspend_d day) s)
    | ReturnsNone => (Ok None, called (Call_suspend_d day) s)
    | Frame [] => (Ok None, called (Call_suspend_d day) s)
    | Frame (b :: bars) =>
        match Feed.convert_bars (b :: bars) with
        | Ok rows => (Ok (Some rows), called (Call_suspend_d day) s)
        | Raise e => (Raise e, called (Call_suspend_d day) s)
        end
    end.
Proof.
  unfold Feed.fetch_stock_suspend, call, bind, record_call, lift, ret, raise, called.
  destruct (suspend_d _ _) as [e| |[|b bars]]; reflexivity.
Qed.

(** A unit of the suspension loops whose fetch is made: one call, and the
    table is still there. *)
Lemma suspend_extend_unit w self tn feed day s :
  suspend_never_fails w -> is_Some (db s !! tn) ->
  exists s',
    extend_unit self tn day (Feed.fetch_stock_suspend w feed day) s = (Ok tt, s')
    /\ calls s' = calls s ++ [Call_suspend_d day]
    /\ is_Some (db s' !! tn).
Proof.
  intros Hnf [tbl Ht]. specialize (Hnf day).
  unfold extend_unit, bind. rewrite fetch_stock_suspend_reply.
  destruct (suspend_d (src w) day) as [e| |[|b bars]]; [destruct Hnf| | |].
  - eexists. split; [reflexivity|]. cbn. split; [reflexivity|]. rewrite Ht. eauto.
  - eexists. split; [reflexivity|]. cbn. split; [reflexivity|]. rewrite Ht. eauto.
  - destruct (Feed.convert_bars (b :: bars)) as [rows|e] eqn:E; [|discriminate Hnf].
    pose proof (convert_bars_nonempty _ _ _ E) as Hne.
    destruct rows as [|r rows]; [congruence|].
    unfold insert_or_skip. cbn [_check_validity negb].
    rewrite (insert_there self (r :: rows) tn (called (Call_suspend_d day) s) tbl Ht).
    eexists. split; [reflexivity|]. split.
    + unfold stored. cbn [db called]. rewrite Ht. reflexivity.
    + rewrite (db_stored tn _ (called (Call_suspend_d day) s) tbl Ht). eauto.
Qed.

(** The feeds of a list of days, and of no day, with the tushare source. *)
Lemma load_day_feeds w self (days : list string) s :
  Manager.source self = "tushare" ->
  exists feeds,
    _load_datafeed w self None None None false "" days s = (Ok feeds, s)
    /\ (days <> [] -> feeds = map (fun _ => Feed.__init__ w None None None) days).
Proof.
  intros Hsrc. unfold _load_datafeed. unfold bind at 1. cbn [ret default].
  unfold Feed.create_data_feed. rewrite Hsrc. cbn [String.eqb Ascii.eqb Bool.eqb].
  destruct days as [|d days].
  - eexists. split; [|congruence]. apply map_M_pure. intros t _. reflexivity.
  - eexists. split; [|reflexivity].
    apply (map_M_pure _ (fun _ => Feed.__init__ w None None None)). intros t _. reflexivity.
Qed.

(** The steps before the loops: the table is there afterwards. *)
Lemma prologue_runs self tn col msg s :
  exists s1,
    (there <- _check_table_exists self tn ;;
     if negb there then create_table tn col ;; logger INFO msg else ret tt) s
    = (Ok tt, s1)
    /\ calls s1 = calls s /\ inserts s1 = inserts s /\ is_Some (db s1 !! tn)
    /\ (forall tbl, db s !! tn = Some tbl -> s1 = s).
Proof.
  cbv beta iota zeta delta [bind _check_table_exists get_db ret create_table put_table
    logger logged].
  cbn [db log calls inserts fst snd].
  destruct (db s !! tn) as [tbl|] eqn:E; cbn [negb].
  - exists s. rewrite E. eauto 10.
  - eexists. split; [reflexivity|]. cbn [db log calls inserts].
    rewrite lookup_insert_eq. repeat split; eauto. intros tbl [=].
Qed.

Section Mongo.
Variables (w : World) (self : DataFeedManager) (tn : string).
Hypothesis Hdb : database self = mongodb.
Hypothesis Hnf : suspend_never_fails w.

Local Abbreviation body :=
  (fun '(date, (format_date, feed)) =>
     backfill_unit self tn format_date date (Feed.fetch_stock_suspend w feed date)).

Lemma mongo_day_is_fetched d feed s :
  Date.in_bounds d = true -> is_Some (db s !! tn) ->
  exists s',
    backfill_unit self tn (Date.strftime_dash d) (Date.strftime d)
                  (Feed.fetch_stock_suspend w feed (Date.strftime d)) s = (Ok tt, s')
    /\ calls s' = calls s ++ [Call_suspend_d (Date.strftime d)]
    /\ is_Some (db s' !! tn).
Proof.
  intros Hb Hs.
  assert (E : _check_data_exists self tn (Date.strftime_dash d) s = (Ok [], s)).
  { cbv beta iota zeta delta [_check_data_exists bind get_db ret raise].
    rewrite Hdb, strftime_dash_no_dot.
    rewrite (strptime_strftime_dash d (in_bounds_range d Hb)). reflexivity. }
  unfold backfill_unit. unfold bind at 1. rewrite E.
  apply suspend_extend_unit; assumption.
Qed.

Lemma mongo_loop (days : list Z) (f0 : Feed.TSDataFeed) :
  Forall (fun d => Date.in_bounds d = true) days ->
  forall s, is_Some (db s !! tn) ->
  exists s',
    for_each (zip (map Date.strftime days)
                  (zip (map Date.strftime_dash days)
                       (map (fun _ => f0) (map Date.strftime days)))) body s
    = (Ok tt, s')
    /\ calls s' = calls s ++ map (fun d => Call_suspend_d (Date.strftime d)) days.
Proof.
  induction 1 as [|d days Hd _ IH]; intros s Hs.
  - exists s. split; [reflexivity|]. cbn. rewrite app_nil_r. reflexivity.
  - destruct (mongo_day_is_fetched d f0 s Hd Hs) as (s1 & E1 & Hc1 & Hs1).
    destruct (IH s1 Hs1) as (s2 & E2 & Hc2).
    exists s2. split.
    + cbn [map zip zip_with for_each]. unfold bind at 1. rewrite E1. exact E2.
    + rewrite Hc2, Hc1, <- app_assoc. reflexivity.
Qed.

End Mongo.

(** X11.  On mongodb the full mode of the suspension operation fetches
    every trade day of the range, whatever the table holds: the existence
    check for a day compares the stored date with text, finds nothing, and
    no day is skipped.  With the tushare source, a suspension endpoint that
    does not fail, and the trade days [days] of the manager's range, the run
    succeeds and makes one call for each day, in order. *)
Theorem X11_mongodb_suspension_full_run_fetches_every_day :
  forall w self table_name s days,
    database self = mongodb ->
    Manager.source self = "tushare" ->
    suspend_never_fails w ->
    get_trade_day (cal w) (CStr (start_date self)) (CStr (end_date self)) = Ok days ->
    Forall (fun d => Date.in_bounds d = true) days ->
    outcome (fetch_stock_suspend_data w self table_name false) s = Ok tt
    /\ calls (final (fetch_stock_suspend_data w self table_name false) s)
       = calls s ++ map (fun d => Call_suspend_d (Date.strftime d)) days.
Proof.
  intros w self tn s days Hdb Hsrc Hnf Hcal Hdays.
  assert (E : exists s',
             fetch_stock_suspend_data w self tn false s = (Ok tt, s')
             /\ calls s' = calls s ++ map (fun d => Call_suspend_d (Date.strftime d)) days).
  { unfold fetch_stock_suspend_data. rewrite <- bind_assoc.
    destruct (prologue_runs self tn "trade_date"
                ("Created table " +:+ tn +:+ ", storing " +:+ spaced tn +:+ " data.") s)
      as (s1 & E1 & Hc1 & _ & Hs1 & _).
    unfold bind at 1. rewrite E1. cbv iota beta.
    unfold bind at 1. rewrite Hcal. unfold lift at 1. cbv iota beta zeta.
    destruct (load_day_feeds w self (map Date.strftime days) s1 Hsrc)
      as (feeds & Ef & Hfeeds).
    unfold bind at 1. rewrite Ef.
    destruct days as [|d days].
    - eexists. split; [reflexivity|]. cbn. rewrite Hc1, app_nil_r. reflexivity.
    - rewrite Hfeeds by discriminate.
      destruct (mongo_loop w self tn Hdb Hnf (d :: days) (Feed.__init__ w None None None)
                  Hdays s1 Hs1) as (s2 & E2 & Hc2).
      unfold bind at 1. rewrite E2. eexists. split; [reflexivity|].
      cbn [logger logged snd calls]. rewrite Hc2, Hc1. reflexivity. }
  destruct E as (s' & E & Hc). unfold outcome, final. rewrite E. auto.
Qed.

Import SuspendScenario.

Lemma X11_mongodb_suspension_full_run_fetches_every_day_witness :
  let m := manager mongodb ["000001.SZ"] (day 2023 1 10) in
  outcome (fetch_stock_suspend_data w_two_days m "stock_suspend_status" false)
          both_days_stored = Ok tt
  /\ calls (final (fetch_stock_suspend_data w_two_days m "stock_suspend_status" false)
                  both_days_stored)
     = [] ++ map (fun d => Call_suspend_d (Date.strftime d)) [day 2023 1 3; day 2023 1 4].
Proof.
  intros m.
  apply (X11_mongodb_suspension_full_run_fetches_every_day w_two_days m
           "stock_suspend_status" both_days_stored [day 2023 1 3; day 2023 1 4]).
  - reflexivity.
  - reflexivity.
  - intros d. reflexivity.
  - reflexivity.
  - repeat constructor.
Defined.

Lemma duckdb_day_is_found self tn d who fetch s tbl :
  database self = duckdb ->
  db s !! tn = Some tbl -> t_date_col tbl = "trade_date" ->
  Date.in_bounds d = true ->
  (exists r, r ∈ t_rows tbl /\ date r = d) ->
  backfill_unit self tn (Date.strftime_dash d) who fetch s = (Ok tt, s).
Proof.
  intros Hdb Ht Hcol Hb (r & Hr & Hd). unfold backfill_unit. unfold bind at 1.
  assert (E : _check_data_exists self tn (Date.strftime_dash d) s
              = (Ok (rows_with_date d (t_rows tbl)), s)).
  { cbv beta iota zeta delta [_check_data_exists bind get_db ret raise].
    rewrite Hdb, Ht, strftime_dash_no_dot, Hcol.
    rewrite (strptime_strftime_dash d (in_bounds_range d Hb)). reflexivity. }
  rewrite E.
  assert (Hin : In r (rows_with_date d (t_rows tbl))).
  { apply List.filter_In. split; [apply list_elem_of_In; exact Hr|apply Z.eqb_eq; exact Hd]. }
  destruct (rows_with_date d (t_rows tbl)); [destruct Hin|reflexivity].
Qed.

(** X12.  On duckdb the full mode of the suspension operation skips the
    trade days of which the table has a row.  When every trade day of the
    manager's range is stored, the run calls nothing and inserts nothing:
    its line of completion in the log is the only change. *)
Theorem X12_duckdb_suspension_full_run_skips_stored_days :
  forall w self table_name s tbl days,
    database self = duckdb ->
    Manager.source self = "tushare" ->
    db s !! table_name = Some tbl ->
    t_date_col tbl = "trade_date" ->
    get_trade_day (cal w) (CStr (start_date self)) (CStr (end_date self)) = Ok days ->
    Forall (fun d => Date.in_bounds d = true) days ->
    (forall d, d ∈ days -> exists r, r ∈ t_rows tbl /\ date r = d) ->
    fetch_stock_suspend_data w self table_name false s
    = (Ok tt, logged INFO (table_name +:+ " data insertion completed.") s).
Proof.
  intros w self tn s tbl days Hdb Hsrc Ht Hcol Hcal Hdays Hstored.
  unfold fetch_stock_suspend_data. rewrite <- bind_assoc.
  destruct (prologue_runs self tn "trade_date"
              ("Created table " +:+ tn +:+ ", storing " +:+ spaced tn +:+ " data.") s)
    as (s1 & E1 & _ & _ & _ & Hsame).
  rewrite (Hsame tbl Ht) in E1. clear s1 Hsame.
  unfold bind at 1. rewrite E1. cbv iota beta.
  unfold bind at 1. rewrite Hcal. unfold lift at 1. cbv iota beta zeta.
  destruct (load_day_feeds w self (map Date.strftime days) s Hsrc) as (feeds & Ef & _).
  unfold bind at 1. rewrite Ef. unfold bind at 1.
  rewrite for_each_idle; [reflexivity|].
  intros [day [fday feed]] Hin.
  apply elem_of_zip_r in Hin. apply elem_of_zip_l in Hin.
  apply list_elem_of_fmap in Hin as (d & -> & Hd).
  rewrite Forall_forall in Hdays.
  apply (duckdb_day_is_found self tn d day _ s tbl Hdb Ht Hcol (Hdays d Hd) (Hstored d Hd)).
Qed.

Lemma X12_duckdb_suspension_full_run_skips_stored_days_witness :
  fetch_stock_suspend_data w_two_days (manager duckdb ["000001.SZ"] (day 2023 1 10))
                           "stock_suspend_status" false both_days_stored
  = (Ok tt, logged INFO "stock_suspend_status data insertion completed." both_days_stored).
Proof.
  apply (X12_duckdb_suspension_full_run_skips_stored_days w_two_days
           (manager duckdb ["000001.SZ"] (day 2023 1 10)) "stock_suspend_status"
           both_days_stored
           (Table "trade_date" [Row "000001.SZ" (day 2023 1 3) [1];
                                Row "000002.SZ" (day 2023 1 4) [1]])
           [day 2023 1 3; day 2023 1 4]).
  - reflexivity.
  - reflexivity.
  - reflexivity.
  - reflexivity.
  - reflexivity.
  - repeat constructor.
  - intros d Hd. apply elem_of_cons in Hd as [->|Hd].
    + eexists. split; [left|reflexivity].
    + apply list_elem_of_singleton in Hd. subst d.
      eexists. split; [right; left|reflexivity].
Defined.

End SuspensionDays.

(** ** The dividend feed *)

Section DividendFeed.
Import Scenario.

Lemma convert_divs_rows (divs : list div) :
  ex_dates_readable divs ->
  exists rows,
    Feed.convert_divs divs = Ok rows
    /\ forall r, r ∈ rows <-> exists d e, d ∈ divs /\ row_of_dividend d e r.
Proof.
  induction divs as [|d divs IH]; intros Hr.
  - exists []. split; [reflexivity|]. intros r. split.
    + intros H. inversion H.
    + intros (d & e & H & _). inversion H.
  - destruct IH as (rows & E & Hrows).
    { intros d' e Hd' He. apply (Hr d' e); [right; exact Hd'|exact He]. }
    simpl. destruct (div_ex_date d) as [e|] eqn:Ed.
    + pose proof (Hr d e ltac:(left) Ed) as Hok.
      destruct (Feed.to_datetime e) as [day|err] eqn:Et; [|discriminate Hok].
      rewrite E. eexists. split; [reflexivity|]. intros r. rewrite elem_of_cons, Hrows.
      split.
      * intros [->|(d' & e' & Hd' & Hrow)].
        -- exists d, e. split; [left|]. repeat split; auto.
        -- exists d', e'. split; [right; exact Hd'|exact Hrow].
      * intros (d' & e' & Hd' & Hrow). apply elem_of_cons in Hd' as [->|Hd'].
        -- left. destruct Hrow as (He' & Ht & Hc & Hv). rewrite Ed in He'.
           injection He' as <-. rewrite Et in Ht. injection Ht as Ht.
           destruct r as [c dt v]. cbn in *. subst. reflexivity.
        -- right. exists d', e'. auto.
    + exists rows. split; [exact E|]. intros r. rewrite Hrows. split.
      * intros (d' & e' & Hd' & Hrow). exists d', e'. split; [right; exact Hd'|exact Hrow].
      * intros (d' & e' & Hd' & Hrow). apply elem_of_cons in Hd' as [->|Hd'].
        -- destruct Hrow as (He' & _). congruence.
        -- exists d', e'. auto.
Qed.

(** X13.  What the dividend fetch returns for a frame of the source that
    is not empty and whose ex-dates can be read.  One call is made.  The
    rows returned are those of the dividends that have an ex-date and, in
    incremental mode, an ex-date that comes strictly after the cutoff as
    text; dividends without ex-date are never returned, and outside
    incremental mode the cutoff is not looked at. *)
Theorem X13_dividend_fetch_keeps_dated_rows_after_cutoff :
  forall w feed (update : bool) cutoff divs s,
    divs <> [] ->
    dividend (src w) (Feed.ticker feed) = Frame divs ->
    ex_dates_readable divs ->
    exists rows,
      Feed.fetch_stock_dividend w feed update (Some cutoff) s
      = (Ok (Some rows), called (Call_dividend (Feed.ticker feed)) s)
      /\ forall r,
           r ∈ rows
           <-> exists d e,
                 d ∈ divs /\ row_of_dividend d e r
                 /\ (update = true -> String.ltb cutoff e = true).
Proof.
  intros w feed update cutoff divs s Hne Hreply Hread.
  unfold Feed.fetch_stock_dividend, call. rewrite Hreply.
  cbv beta iota zeta delta [bind record_call ret].
  destruct divs as [|d0 divs0]; [congruence|]. cbn [Feed._check_validity negb default].
  set (divs := d0 :: divs0) in *.
  set (kept := if update
               then List.filter (fun r => match div_ex_date r with
                                          | Some s => String.ltb cutoff s
                                          | None => false
                                          end) (Feed.notna (drop_duplicates divs))
               else Feed.notna (drop_duplicates divs)).
  assert (Hkept : forall d, d ∈ kept <->
             d ∈ divs /\ (exists e, div_ex_date d = Some e
                                    /\ (update = true -> String.ltb cutoff e = true))).
  { intros d. subst kept. unfold Feed.notna. destruct update.
    - rewrite !list_elem_of_In, !List.filter_In, <- !list_elem_of_In.
      rewrite (elem_of_drop_duplicates divs d).
      destruct (div_ex_date d) as [e|]; split.
      + intros [[H _] Hlt]. split; [exact H|]. exists e. auto.
      + intros [H (e' & [= <-] & Hlt)]. auto.
      + intros [_ H]. discriminate H.
      + intros [_ (e' & H & _)]. discriminate H.
    - rewrite !list_elem_of_In, !List.filter_In, <- !list_elem_of_In.
      rewrite (elem_of_drop_duplicates divs d).
      destruct (div_ex_date d) as [e|]; split.
      + intros [H _]. split; [exact H|]. exists e. split; [reflexivity|discriminate].
      + intros [H _]. auto.
      + intros [_ H]. discriminate H.
      + intros [_ (e' & H & _)]. discriminate H. }
  destruct (convert_divs_rows kept) as (rows & E & Hrows).
  { intros d e Hd He. apply (Hread d e); [apply Hkept in Hd as [Hd _]; exact Hd|exact He]. }
  exists rows. split.
  - subst kept. destruct update.
    + unfold Feed.after_cutoff, lift, id. rewrite E. reflexivity.
    + unfold lift, id. rewrite E. reflexivity.
  - intros r. rewrite Hrows. split.
    + intros (d & e & Hd & Hrow). apply Hkept in Hd as [Hd (e' & He' & Hlt)].
      exists d, e. split; [exact Hd|]. split; [exact Hrow|].
      destruct Hrow as (He & _). rewrite He in He'. injection He' as <-. exact Hlt.
    + intros (d & e & Hd & Hrow & Hlt). exists d, e. split; [|exact Hrow].
      apply Hkept. split; [exact Hd|]. exists e. split; [apply Hrow|exact Hlt].
Qed.

Lemma X13_dividend_fetch_keeps_dated_rows_after_cutoff_witness :
  exists rows,
    Feed.fetch_stock_dividend w_2023_03_10
      (Feed.__init__ w_2023_03_10 (Some "000001.SZ") None None) true (Some "20230302")
      no_state
    = (Ok (Some rows), called (Call_dividend (Some "000001.SZ")) no_state)
    /\ forall r,
         r ∈ rows
         <-> exists d e,
               d ∈ [Div "000001.SZ" (Some "20230301") [5];
                    Div "000001.SZ" (Some "20230302") [6];
                    Div "000001.SZ" (Some "20230303") [7];
                    Div "000001.SZ" (Some "20230304") [8]]
               /\ row_of_dividend d e r
               /\ (true = true -> String.ltb "20230302" e = true).
Proof.
  apply (X13_dividend_fetch_keeps_dated_rows_after_cutoff w_2023_03_10
           (Feed.__init__ w_2023_03_10 (Some "000001.SZ") None None) true "20230302"
           [Div "000001.SZ" (Some "20230301") [5];
            Div "000001.SZ" (Some "20230302") [6];
            Div "000001.SZ" (Some "20230303") [7];
            Div "000001.SZ" (Some "20230304") [8]]
           no_state).
  - discriminate.
  - reflexivity.
  - intros d e Hd He.
    repeat (apply elem_of_cons in Hd as [->|Hd]; [injection He as <-; reflexivity|]).
    inversion Hd.
Defined.

End DividendFeed.

(** ** The rate limiter: delays *)

Section LimiterDelays.
Import Limiter LimiterFacts.
Local Close Scope string_scope.

(** One pass: the call is let through no earlier than it came and no later
    than a minute and the overrun after; the new window starts no later than
    that. *)
Lemma wrapper_delay N c p :
  start_time c <= current_time p -> 0 <= lag p ->
  let '(c', t) := wrapper N c p in
  current_time p <= t <= current_time p + minute + lag p
  /\ start_time c' <= t.
Proof.
  intros Hst Hlag. unfold wrapper.
  destruct (current_time p - start_time c >? minute) eqn:Hreset.
  - destruct (0 >=? N); cbn [start_time].
    + replace (minute - (current_time p - current_time p)) with minute by lia.
      change (minute >? 0) with true. cbv iota. unfold minute. lia.
    + unfold minute. lia.
  - rewrite Z.gtb_ltb in Hreset. apply Z.ltb_ge in Hreset.
    destruct (calls c >=? N); cbn [start_time]; [|unfold minute; lia].
    destruct (minute - (current_time p - start_time c) >? 0) eqn:E.
    + unfold minute in *. lia.
    + rewrite Z.gtb_ltb in E. apply Z.ltb_ge in E. unfold minute in *. lia.
Qed.

Lemma run_delays N ps :
  forall c last,
    start_time c <= last -> clock_ok N c last ps = true ->
    Forall2 (fun p t => current_time p <= t <= current_time p + minute + lag p)
            ps (snd (run N c ps))
    /\ Forall (fun t => last <= t) (snd (run N c ps))
    /\ in_order (snd (run N c ps)).
Proof.
  induction ps as [|p ps IH]; intros c last Hst Hok; simpl.
  - split; [constructor|]. split; [constructor|].
    intros i j a b _ Hi. rewrite lookup_nil in Hi. discriminate.
  - simpl in Hok. apply andb_true_iff in Hok as [Hok Hrest].
    apply andb_true_iff in Hok as [H1 H2]. apply Z.leb_le in H1, H2.
    pose proof (wrapper_delay N c p ltac:(lia) H2) as Hw.
    destruct (wrapper N c p) as [c' t]. destruct Hw as [Ht Hst'].
    destruct (IH c' t Hst' Hrest) as (Hd & Hlast & Hord).
    destruct (run N c' ps) as [c'' ts]. cbn [snd] in *.
    split; [constructor; assumption|]. split.
    + constructor; [lia|]. eapply Forall_impl; [exact Hlast|]. cbv beta. intros x Hx. lia.
    + intros i j a b Hij Hi Hj. destruct i as [|i].
      * cbn in Hi. injection Hi as <-. destruct j as [|j].
        -- cbn in Hj. injection Hj as <-. lia.
        -- cbn in Hj. rewrite Forall_forall in Hlast. apply Hlast.
           eapply list_elem_of_lookup_2. exact Hj.
      * destruct j as [|j]; [lia|]. cbn in Hi, Hj.
        apply (Hord i j a b); [lia|assumption|assumption].
Qed.



(** Below the budget no pass sleeps. *)
Lemma run_under_budget N ps :
  forall c,
    0 <= calls c -> calls c + Z.of_nat (length ps) <= N ->
    snd (run N c ps) = map current_time ps.
Proof.
  induction ps as [|p ps IH]; intros c H0 Hn; [reflexivity|].
  cbn [run map]. cbn [length] in Hn.
  assert (Hw : exists c', wrapper N c p = (c', current_time p)
                          /\ 0 <= calls c' <= calls c + 1).
  { unfold wrapper. destruct (current_time p - start_time c >? minute).
    - destruct (0 >=? N) eqn:E; [apply Z.geb_le in E; lia|].
      eexists. split; [reflexivity|]. cbn. lia.
    - destruct (calls c >=? N) eqn:E; [apply Z.geb_le in E; lia|].
      eexists. split; [reflexivity|]. cbn. lia. }
  destruct Hw as (c' & -> & Hc').
  specialize (IH c' ltac:(lia) ltac:(lia)).
  destruct (run N c' ps) as [c'' ts]. cbn [snd] in *. rewrite IH. reflexivity.
Qed.

(** X16.  Up to [N] calls of a freshly decorated method are let through at
    once, each at the reading at which it came, whatever the clock says. *)
Theorem X16_limiter_lets_first_calls_through :
  forall N t0 ps,
    Z.of_nat (length ps) <= N ->
    snd (run N (decorator t0) ps) = map current_time ps.
Proof.
  intros N t0 ps Hn. apply run_under_budget; cbn; lia.
Qed.

Lemma X16_limiter_lets_first_calls_through_witness :
  snd (run 500 (decorator 0) (burst 500 59000)) = map current_time (burst 500 59000).
Proof.
  apply (X16_limiter_lets_first_calls_through 500 0 (burst 500 59000)).
  unfold burst. rewrite repeat_length. lia.
Defined.

(** X17.  Each decorated method has a limiter of its own.  In a run of
    calls of any of the five methods, the readings at which the calls of one
    method are let through, and the closure the method is left with, are
    those of a run of that method's calls alone: calls of the other methods
    neither delay them nor count against their budget. *)
Theorem X17_methods_are_limited_separately :
  forall N ps a m,
    fst (run_adapter N a ps) m = fst (run N (a m) (passes_of m ps))
    /\ readings_of m ps (snd (run_adapter N a ps)) = snd (run N (a m) (passes_of m ps)).
Proof.
  intros N ps. induction ps as [|[m0 p] ps IH]; intros a m; [split; reflexivity|].
  cbn [run_adapter]. destruct (wrapper N (a m0) p) as [c' t] eqn:Ew.
  specialize (IH (fun m' => if decide (m' = m0) then c' else a m') m).
  destruct (run_adapter N (fun m' => if decide (m' = m0) then c' else a m') ps)
    as [a'' ts]. cbn [fst snd] in *.
  unfold passes_of, readings_of in *. cbn [zip zip_with List.filter fst snd].
  destruct (decide (m = m0)) as [->|Hne].
  - rewrite bool_decide_eq_true_2 by reflexivity. cbn [map run snd].
    rewrite Ew. destruct IH as [IH1 IH2].
    destruct (run N c' (map snd (List.filter (fun x => bool_decide (x.1 = m0)) ps)))
      as [c2 ts2]. cbn [fst snd] in *. split; [exact IH1|]. rewrite IH2. reflexivity.
  - rewrite bool_decide_eq_false_2 by congruence. exact IH.
Qed.

End LimiterDelays.

(** ** The connection factory: when it fails, and how many objects *)

Section Factory.
Import Conn ConnFacts.

(** X18.  [connection_factory] returns a connection exactly when the
    backend asked for is one of the three it knows and has its entry in the
    configuration, with both paths for duckdb and chdb.  Otherwise it raises:
    a [KeyError] for a backend without entry or a path the entry lacks, a
    [NotImplementedError] for an entry of a backend it does not know; and
    then no object has been made or changed. *)
Theorem X18_connection_factory_succeeds_iff_configured :
  forall cfg db_type s,
    ((exists entry, cfg !! db_type = Some entry /\ configured db_type entry)
     <-> is_ok (fst (connection_factory cfg db_type s)) = true)
    /\ (forall e, fst (connection_factory cfg db_type s) = Raise e ->
          factory_error cfg db_type e /\ snd (connection_factory cfg db_type s) = s).
Proof.
  intros cfg db_type s. unfold factory_error.
  destruct (cfg !! db_type) as [entry|] eqn:Hc.
  - destruct (decide (configured db_type entry)) as [Hconf|Hnot].
    + destruct (factory_configured cfg db_type entry s Hc Hconf) as (obj & s' & E & _).
      rewrite E. cbn. split; [split; [reflexivity|eauto]|]. intros e [=].
    + unfold connection_factory. rewrite Hc.
      destruct (String.eqb db_type "mongodb") eqn:Em.
      { exfalso. apply Hnot. left. apply String.eqb_eq. exact Em. }
      assert (Hm : db_type <> "mongodb") by (apply String.eqb_neq; exact Em).
      destruct (String.eqb db_type "duckdb" || String.eqb db_type "chdb") eqn:Ed.
      * assert (Hd : db_type = "duckdb" \/ db_type = "chdb").
        { apply orb_true_iff in Ed as [Ed|Ed]; apply String.eqb_eq in Ed; auto. }
        destruct (entry !! "data_path") as [dp|] eqn:Edp.
        -- destruct (entry !! "factor_path") as [fp|] eqn:Efp.
           ++ exfalso. apply Hnot. right. rewrite Edp, Efp. eauto.
           ++ cbn. split.
              ** split; [intros (e' & [= <-] & Hconf); contradiction|discriminate].
              ** intros e [= <-]. split; [|reflexivity]. right. eauto.
        -- cbn. split.
           ++ split; [intros (e' & [= <-] & Hconf); contradiction|discriminate].
           ++ intros e [= <-]. split; [|reflexivity]. left. auto.
      * cbn. split.
        -- split; [intros (e' & [= <-] & Hconf); contradiction|discriminate].
        -- intros e [= <-]. auto.
  - unfold connection_factory. rewrite Hc. cbn. split.
    + split; [intros (e' & [=] & _)|discriminate].
    + intros e [= <-]. auto.
Qed.

Lemma constructor_one_object config s :
  one_object s -> one_object (snd (DatabaseConnection config s)).
Proof.
  unfold one_object, DatabaseConnection, __new__, __init__.
  destruct (_instance s) as [o|] eqn:E; cbn; rewrite ?E; cbn; intros Hs.
  - rewrite dom_insert_L, Hs. apply (idemp_L (∪)).
  - rewrite !dom_insert_L, Hs, dom_empty_L, (right_id_L ∅ (∪)). apply (idemp_L (∪)).
Qed.

(** X19.  The class never holds more than one connection: if no object
    has been made yet, or exactly the one the class attribute names, the
    same is true after any call of the factory, whether it succeeds or
    fails. *)
Theorem X19_connection_factory_keeps_one_object :
  forall cfg db_type s,
    one_object s ->
    one_object (snd (connection_factory cfg db_type s))
    /\ (size (heap (snd (connection_factory cfg db_type s))) <= 1)%nat.
Proof.
  intros cfg db_type s H.
  assert (H1 : one_object (snd (connection_factory cfg db_type s))).
  { unfold connection_factory.
    destruct (cfg !! db_type) as [entry|]; [|exact H].
    destruct (String.eqb db_type "mongodb"); [apply constructor_one_object, H|].
    destruct (String.eqb db_type "duckdb" || String.eqb db_type "chdb"); [|exact H].
    destruct (entry !! "data_path"); [|exact H].
    destruct (entry !! "factor_path"); [|exact H].
    apply constructor_one_object, H. }
  split; [exact H1|].
  unfold one_object in H1.
  destruct (_instance (snd (connection_factory cfg db_type s))).
  - rewrite <- size_dom, H1, size_singleton. lia.
  - rewrite H1, map_size_empty. lia.
Qed.

Lemma X19_connection_factory_keeps_one_object_witness :
  one_object (snd (connection_factory sample_cfg "duckdb" fresh_process))
  /\ (size (heap (snd (connection_factory sample_cfg "duckdb" fresh_process))) <= 1)%nat.
Proof.
  apply (X19_connection_factory_keeps_one_object sample_cfg "duckdb" fresh_process).
  reflexivity.
Defined.

End Factory.

(** ** The trading calendar *)

Section CalendarFacts.
Variable is_holiday : Z -> result bool.

Local Abbreviation closed := (Cal.closed is_holiday).
Local Abbreviation is_tradeday := (Cal.is_tradeday is_holiday).

Lemma in_bounds_between a b d :
  Date.in_bounds a = true -> Date.in_bounds b = true -> a <= d <= b ->
  Date.in_bounds d = true.
Proof.
  unfold Date.in_bounds. rewrite !andb_true_iff, !Z.leb_le. lia.
Qed.

(** The scan finds the first day that is not closed. *)
Lemma scan_finds t :
  Date.in_bounds t = true -> closed t = Ok false ->
  forall fuel day,
    Date.in_bounds day = true -> day <= t -> (Z.to_nat (t - day) <= fuel)%nat ->
    (forall d, day <= d < t -> closed d = Ok true) ->
    Cal.scan is_holiday fuel day = Ok t.
Proof.
  intros Ht Hopen. induction fuel as [|fuel IH]; intros day Hday Hle Hfuel Hclosed.
  - assert (day = t) by lia. subst day. simpl. rewrite Hopen. reflexivity.
  - destruct (Z.eq_dec day t) as [->|Hne].
    + simpl. rewrite Hopen. reflexivity.
    + cbn [Cal.scan]. rewrite (Hclosed day) by lia.
      assert (Hb : Date.in_bounds (day + 1) = true)
        by (apply (in_bounds_between day t); [assumption|assumption|lia]).
      unfold Manager.Timestamp_add. rewrite Hb.
      apply IH; [exact Hb|lia|lia|]. intros d Hd. apply Hclosed. lia.
Qed.

(** What the scan returns is the first day that is not closed. *)
Lemma scan_found fuel :
  forall day t,
    Date.in_bounds day = true ->
    Cal.scan is_holiday fuel day = Ok t ->
    day <= t /\ Date.in_bounds t = true /\ closed t = Ok false
    /\ (forall d, day <= d < t -> closed d = Ok true).
Proof.
  induction fuel as [|fuel IH]; intros day t Hday H; cbn [Cal.scan] in H.
  - destruct (closed day) as [[|]|e] eqn:E; [| |discriminate].
    + destruct (Manager.Timestamp_add day 1); discriminate.
    + injection H as <-. repeat split; try lia; try assumption.
  - destruct (closed day) as [[|]|e] eqn:E; [| |discriminate].
    + unfold Manager.Timestamp_add in H.
      destruct (Date.in_bounds (day + 1)) eqn:Hb; [|discriminate].
      destruct (IH (day + 1) t Hb H) as (Hle & Ht & Hopen & Hcl).
      repeat split; try lia; try assumption.
      intros d Hd. destruct (Z.eq_dec d day) as [->|Hne]; [exact E|]. apply Hcl. lia.
    + injection H as <-. repeat split; try lia; try assumption.
Qed.

(** X20.  [Calendar.next_trade_day] of a [pd.Timestamp] returns the first
    day after it that is neither a Saturday or Sunday nor a holiday, and
    only that: the day itself is never returned, and no trade day is passed
    over. *)
Theorem X20_next_trade_day_is_first_open_day :
  forall date t,
    Date.in_bounds date = true ->
    Cal.next_trade_day is_holiday date = Ok t
    <-> date < t /\ Date.in_bounds t = true /\ closed t = Ok false
        /\ (forall d, date < d < t -> closed d = Ok true).
Proof.
  intros date t Hdate. unfold Cal.next_trade_day, Manager.Timestamp_add. split.
  - destruct (Date.in_bounds (date + 1)) eqn:Hb; [|discriminate].
    intros H. destruct (scan_found _ _ _ Hb H) as (Hle & Ht & Hopen & Hcl).
    repeat split; try lia; try assumption. intros d Hd. apply Hcl. lia.
  - intros (Hlt & Ht & Hopen & Hcl).
    assert (Hb : Date.in_bounds (date + 1) = true)
      by (apply (in_bounds_between date t); [assumption|assumption|lia]).
    rewrite Hb. apply (scan_finds t Ht Hopen); [exact Hb|lia| |].
    + apply in_bounds_days in Ht. change Date.Timestamp_max with 825914. lia.
    + intros d Hd. apply Hcl. lia.
Qed.

(** The list comprehension: the days kept are those that are trade days,
    in the order they came. *)
Lemma tradedays_of_filter (dates : list Z) :
  (forall d, d ∈ dates -> is_ok (is_tradeday d) = true) ->
  Cal.tradedays_of is_holiday dates
  = Ok (List.filter (fun d => match is_tradeday d with Ok true => true | _ => false end)
                    dates).
Proof.
  induction dates as [|d dates IH]; intros Hok; [reflexivity|].
  cbn [Cal.tradedays_of List.filter].
  pose proof (Hok d ltac:(left)) as Hd.
  destruct (is_tradeday d) as [[|]|e]; [| |discriminate Hd];
    rewrite IH by (intros d' Hd'; apply Hok; right; exact Hd'); reflexivity.
Qed.

Lemma ascending_cons x (l : list Z) :
  Forall (fun y => x < y) l -> Cal.ascending l -> Cal.ascending (x :: l).
Proof.
  intros Hx Hl i j a b Hij Hi Hj. destruct j as [|j]; [lia|]. cbn in Hj.
  destruct i as [|i].
  - cbn in Hi. injection Hi as <-. rewrite Forall_forall in Hx. apply Hx.
    eapply list_elem_of_lookup_2. exact Hj.
  - cbn in Hi. apply (Hl i j a b); [lia|assumption|assumption].
Qed.

Lemma ascending_filter (P : Z -> bool) (l : list Z) lo :
  Forall (fun y => lo < y) l -> Cal.ascending l ->
  Forall (fun y => lo < y) (List.filter P l) /\ Cal.ascending (List.filter P l).
Proof.
  revert lo. induction l as [|x l IH]; intros lo Hlo Hasc.
  - cbn [List.filter]. split; [constructor|].
    intros i j a b _ Hi. rewrite lookup_nil in Hi. discriminate.
  - inversion Hlo as [|? ? Hx Hrest]; subst.
    assert (Hxl : Forall (fun y => x < y) l).
    { apply Forall_forall. intros y Hy.
      apply list_elem_of_lookup_1 in Hy as [k Hk].
      apply (Hasc 0%nat (S k) x y); [lia|reflexivity|exact Hk]. }
    assert (Hl : Cal.ascending l).
    { intros i j a b Hij Hi Hj. apply (Hasc (S i) (S j) a b); [lia|exact Hi|exact Hj]. }
    destruct (IH lo Hrest Hl) as [H1 H2]. destruct (IH x Hxl Hl) as [H3 _].
    cbn [List.filter]. destruct (P x).
    + split; [constructor; assumption|]. apply ascending_cons; assumption.
    + split; assumption.
Qed.

Lemma date_range_ascending a b : Cal.ascending (Cal.date_range a b).
Proof.
  unfold Cal.date_range. intros i j x y Hij Hi Hj.
  apply lookup_seqZ in Hi as [-> _]. apply lookup_seqZ in Hj as [-> _]. lia.
Qed.

(** X21.  [Calendar.get_trade_day] over two days, when the holiday table
    covers the range: the days returned are exactly the days of the range,
    ends included, that are neither a Saturday or Sunday nor a holiday, in
    ascending order; a range whose end is before its start has none. *)
Theorem X21_get_trade_day_lists_open_days_in_order :
  forall start_date end_date,
    (forall d, start_date <= d <= end_date -> is_ok (is_tradeday d) = true) ->
    exists days,
      Cal.get_trade_day is_holiday start_date end_date = Ok days
      /\ (forall d, d ∈ days
                    <-> start_date <= d <= end_date /\ is_tradeday d = Ok true)
      /\ Cal.ascending days
      /\ (end_date < start_date -> days = []).
Proof.
  intros a b Hok. unfold Cal.get_trade_day.
  rewrite tradedays_of_filter.
  2:{ intros d Hd. apply Hok. unfold Cal.date_range in Hd.
      apply elem_of_seqZ in Hd. lia. }
  eexists. split; [reflexivity|]. split; [|split].
  - intros d. rewrite list_elem_of_In, List.filter_In, <- list_elem_of_In.
    unfold Cal.date_range. rewrite elem_of_seqZ.
    split; intros [H1 H2]; (split; [lia|]).
    + destruct (is_tradeday d) as [[|]|e]; [reflexivity|discriminate|discriminate].
    + rewrite H2. reflexivity.
  - apply (ascending_filter _ _ (a - 1)); [|apply date_range_ascending].
    apply Forall_forall. intros d Hd. unfold Cal.date_range in Hd.
    apply elem_of_seqZ in Hd. lia.
  - intros Hlt. unfold Cal.date_range. rewrite seqZ_nil by lia. reflexivity.
Qed.

End CalendarFacts.

Section CalendarWitness.
Import Scenario.

Lemma X20_next_trade_day_is_first_open_day_witness :
  Cal.next_trade_day (fun _ => Ok false) (day 2023 1 6) = Ok (day 2023 1 9)
  <-> day 2023 1 6 < day 2023 1 9 /\ Date.in_bounds (day 2023 1 9) = true
      /\ Cal.closed (fun _ => Ok false) (day 2023 1 9) = Ok false
      /\ (forall d, day 2023 1 6 < d < day 2023 1 9 ->
            Cal.closed (fun _ => Ok false) d = Ok true).
Proof.
  apply (X20_next_trade_day_is_first_open_day (fun _ => Ok false)
           (day 2023 1 6) (day 2023 1 9)).
  reflexivity.
Defined.

Lemma X21_get_trade_day_lists_open_days_in_order_witness :
  exists days,
    Cal.get_trade_day (fun _ => Ok false) (day 2023 1 6) (day 2023 1 10) = Ok days
    /\ (forall d, d ∈ days
                  <-> day 2023 1 6 <= d <= day 2023 1 10
                      /\ Cal.is_tradeday (fun _ => Ok false) d = Ok true)
    /\ Cal.ascending days
    /\ (day 2023 1 10 < day 2023 1 6 -> days = []).
Proof.
  apply (X21_get_trade_day_lists_open_days_in_order (fun _ => Ok false)
           (day 2023 1 6) (day 2023 1 10)).
  intros d _. unfold Cal.is_tradeday, Cal.closed.
  destruct (bool_decide _); reflexivity.
Defined.

End CalendarWitness.

(** ** The suspension update and the calendar *)

Section SuspensionUpdate.
Import Manager Scenario.

Lemma tradedays_of_sound h (dates days : list Z) :
  Cal.tradedays_of h dates = Ok days ->
  forall d, d ∈ days -> d ∈ dates /\ Cal.is_tradeday h d = Ok true.
Proof.
  revert days. induction dates as [|x dates IH]; intros days H d Hd; cbn in H.
  - injection H as <-. inversion Hd.
  - destruct (Cal.is_tradeday h x) as [keep|e] eqn:Ex; [|discriminate].
    destruct (Cal.tradedays_of h dates) as [rest|e]; [|discriminate].
    injection H as <-. destruct keep.
    + apply elem_of_cons in Hd as [->|Hd]; [split; [left|exact Ex]|].
      destruct (IH rest eq_refl d Hd). split; [right|]; assumption.
    + destruct (IH rest eq_refl d Hd). split; [right|]; assumption.
Qed.

Lemma next_trade_day_later h date t :
  Cal.next_trade_day h date = Ok t -> date < t.
Proof.
  unfold Cal.next_trade_day, Manager.Timestamp_add.
  destruct (Date.in_bounds (date + 1)) eqn:Hb; [|discriminate].
  intros H. destruct (scan_found h _ _ _ Hb H) as [Hle _]. lia.
Qed.

Lemma map_M_state {A B} (f : A -> M B) (l : list A) :
  (forall x s, snd (f x s) = s) -> forall s, snd (map_M f l s) = s.
Proof.
  intros Hf. induction l as [|x l IH]; intros s; [reflexivity|].
  cbn [map_M]. unfold bind. pose proof (Hf x s) as Hx.
  destruct (f x s) as [[y|e] s1]; cbn in Hx; subst s1; [|reflexivity].
  pose proof (IH s) as Hl. destruct (map_M f l s) as [[ys|e] s2]; cbn in *; auto.
Qed.

Lemma get_table_date_state self tn s : snd (_get_table_date self tn s) = s.
Proof.
  cbv beta iota zeta delta [_get_table_date bind get_db ret raise].
  destruct (database self); [reflexivity| |]; destruct (db s !! tn); try reflexivity.
  destruct (negb _); reflexivity.
Qed.

Lemma bind_state {A B} (m : M A) (k : A -> M B) :
  (forall s, snd (m s) = s) -> (forall a s, snd (k a s) = s) ->
  forall s, snd (bind m k s) = s.
Proof.
  intros Hm Hk s. unfold bind. specialize (Hm s).
  destruct (m s) as [[a|e] s1]; cbn in Hm; subst s1; [apply Hk|reflexivity].
Qed.

(** Building feeds reads the database and changes nothing. *)
Lemma load_datafeed_state w self tl sd ed (update : bool) tn dl s :
  snd (_load_datafeed w self tl sd ed update tn dl s) = s.
Proof.
  revert s. unfold _load_datafeed. apply bind_state.
  - intros s. destruct update; [|reflexivity]. destruct (String.eqb tn ""); [reflexivity|].
    revert s. apply bind_state; [apply get_table_date_state|reflexivity].
  - intros [td e] s. destruct dl.
    + apply map_M_state. intros x. apply bind_state; [|reflexivity].
      intros s'. destruct update; reflexivity.
    + apply map_M_state. reflexivity.
Qed.

Lemma latest_day_unique (rows : list row) m m' :
  latest_day rows m -> latest_day rows m' -> m = m'.
Proof.
  intros [(r & Hr & <-) Hub] [(r' & Hr' & <-) Hub'].
  specialize (Hub r' Hr'). specialize (Hub' r Hr). lia.
Qed.

(** X22.  The incremental mode of the suspension operation, on duckdb and
    mongodb, with the calendar of [utils/calendar.py] over any holiday
    table, on a table that has rows: every call it makes of the source is
    for a trade day that is strictly after the latest day stored and, when
    today's date can be read, not after today.  No stored day is fetched
    again. *)
Theorem X22_suspension_update_asks_for_later_trade_days :
  forall w is_holiday self table_name s tbl m c,
    database self <> chdb ->
    db s !! table_name = Some tbl ->
    t_date_col tbl = date_column_of table_name ->
    latest_day (t_rows tbl) m ->
    follows_calendar w is_holiday ->
    c ∈ calls (final (fetch_stock_suspend_data w self table_name true) s) ->
    c ∈ calls s
    \/ exists d,
         c = Call_suspend_d (Date.strftime d)
         /\ m < d
         /\ Cal.is_tradeday is_holiday d = Ok true
         /\ (forall e, Feed.to_datetime (TODAY self) = Ok e -> d <= e).
Proof.
  intros w h self tn s tbl m c Hdb Ht Hcol Hlatest [Hnext Hrange].
  set (good := fun c : api_call =>
         exists d, c = Call_suspend_d (Date.strftime d) /\ m < d
                   /\ Cal.is_tradeday h d = Ok true
                   /\ (forall e, Feed.to_datetime (TODAY self) = Ok e -> d <= e)).
  set (P := fun l : list api_call => forall c, c ∈ l -> c ∈ calls s \/ good c).
  assert (HP : P (calls s)) by (intros c' Hc'; left; exact Hc').
  assert (Hne : t_rows tbl <> []).
  { destruct Hlatest as [(r & Hr & _) _]. intros E. rewrite E in Hr. inversion Hr. }
  enough (Hfin : P (calls (final (fetch_stock_suspend_data w self tn true) s)))
    by (intros Hc; apply (Hfin c Hc)).
  unfold final, fetch_stock_suspend_data. rewrite <- bind_assoc.
  destruct (prologue_runs self tn "trade_date"
              ("Created table " +:+ tn +:+ ", storing " +:+ spaced tn +:+ " data.") s)
    as (s1 & E1 & _ & _ & _ & Hsame).
  rewrite (Hsame tbl Ht) in E1. clear s1 Hsame.
  unfold bind at 1. rewrite E1. cbv iota beta.
  unfold bind at 1.
  rewrite (get_table_date_latest_reads self tn s tbl Hdb Ht Hcol Hne).
  destruct (column_max_latest (t_rows tbl) Hne) as (m' & Hm' & Hl').
  rewrite Hm'. rewrite (latest_day_unique _ _ _ Hl' Hlatest).
  unfold bind at 1. unfold lift at 1.
  rewrite (Hnext (CTimestamp m) (Ok m) eq_refl).
  destruct (Cal.next_trade_day h m) as [n|e] eqn:En; [|exact HP].
  pose proof (next_trade_day_later h m n En) as Hmn.
  unfold bind at 1. unfold lift at 1.
  rewrite (Hrange (CTimestamp n) (CStr (TODAY self)) (Ok n)
                  (Feed.to_datetime (TODAY self)) eq_refl eq_refl).
  destruct (Feed.to_datetime (TODAY self)) as [e|err] eqn:Etoday; [|exact HP].
  destruct (Cal.get_trade_day h n e) as [days|err] eqn:Edays; [|exact HP].
  assert (Hdays : forall d, d ∈ days -> good (Call_suspend_d (Date.strftime d))).
  { intros d Hd. destruct (tradedays_of_sound h _ _ Edays d Hd) as [Hin Hopen].
    unfold Cal.date_range in Hin. apply elem_of_seqZ in Hin.
    exists d. split; [reflexivity|]. split; [lia|]. split; [exact Hopen|].
    intros e' [= <-]. lia. }
  cbv zeta.
  pose proof (load_datafeed_state w self None None None false ""
                (map Date.strftime days) s) as Hload.
  unfold bind at 1.
  destruct (_load_datafeed w self None None None false "" (map Date.strftime days) s)
    as [[feeds|err] s1]; cbn in Hload; subst s1; [|exact HP].
  match goal with
  | |- P (calls (snd (?m s))) =>
      enough (Hpres : preserves (fun s' => P (calls s')) m) by exact (Hpres s HP)
  end.
  apply preserves_bind.
  - apply preserves_for_each. intros [date [fdate feed]] Hin.
    apply elem_of_zip_l in Hin. apply list_elem_of_fmap in Hin as (d & -> & Hd).
    apply extend_unit_preserves. unfold Feed.fetch_stock_suspend.
    apply preserves_bind.
    + apply call_preserves. intros l Hl c' Hc'. apply elem_of_app in Hc' as [Hc'|Hc'].
      * apply Hl, Hc'.
      * apply list_elem_of_singleton in Hc'. subst c'. right. apply Hdays, Hd.
    + intros q. destruct (negb (Feed._check_validity q)); [apply preserves_ret|].
      apply preserves_bind; [apply preserves_lift|intros; apply preserves_ret].
  - intros _. apply silent_preserves, silent_logger.
Qed.

Import CalendarScenario.

Lemma weekdays_follow : follows_calendar w_weekdays no_holidays.
Proof.
  split.
  - intros c r H. cbn. rewrite H. destruct r; reflexivity.
  - intros c1 c2 r1 r2 H1 H2. cbn. rewrite H1, H2.
    destruct r1, r2; reflexivity.
Qed.

Lemma X22_suspension_update_asks_for_later_trade_days_witness :
  Call_suspend_d "20230109" ∈ calls suspended_to_jan6
  \/ exists d,
       Call_suspend_d "20230109" = Call_suspend_d (Date.strftime d)
       /\ day 2023 1 6 < d
       /\ Cal.is_tradeday no_holidays d = Ok true
       /\ (forall e, Feed.to_datetime "20230110" = Ok e -> d <= e).
Proof.
  apply (X22_suspension_update_asks_for_later_trade_days w_weekdays no_holidays
           (manager duckdb ["000001.SZ"] (day 2023 1 10)) "stock_suspend_status"
           suspended_to_jan6
           (Table "trade_date" [Row "000001.SZ" (day 2023 1 5) [1];
                                Row "000002.SZ" (day 2023 1 6) [1]])
           (day 2023 1 6) (Call_suspend_d "20230109")).
  - discriminate.
  - reflexivity.
  - reflexivity.
  - split.
    + eexists. split; [right; left|reflexivity].
    + intros r Hr. apply elem_of_cons in Hr as [->|Hr]; [vm_compute; discriminate|].
      apply list_elem_of_singleton in Hr. subst r. vm_compute. discriminate.
  - exact weekdays_follow.
  - apply list_elem_of_In. vm_compute. left. reflexivity.
Defined.

End SuspensionUpdate.

(** ** The configuration *)

Section Configuration.
Import Config.

(** Induction on a configuration, through its mappings and sequences. *)
Lemma config_induction (P : config -> Prop) :
  (forall items, Forall (fun kv => P (snd kv)) items -> P (CDict items)) ->
  (forall items, Forall P items -> P (CList items)) ->
  (forall s, P (CText s)) ->
  (forall v, P (COther v)) ->
  forall c, P c.
Proof.
  intros Hd Hl Ht Ho. fix IH 1. intros [items|items|s|v].
  - apply Hd. induction items as [|[k v] items IHitems]; constructor; [apply IH|exact IHitems].
  - apply Hl. induction items as [|v items IHitems]; constructor; [apply IH|exact IHitems].
  - apply Ht.
  - apply Ho.
Qed.

Lemma prefix_first_char old c rest a :
  String.prefix (String a old) (String c rest) = true -> a = c.
Proof.
  cbn. destruct (Ascii.ascii_dec a c) as [->|Hne]; [reflexivity|discriminate].
Qed.

(** A text without the first character of [old] has no place where [old]
    starts, and stays as it is. *)
Lemma replace_without_first a old new s :
  contains_char a s = false -> replace (String a old) new s = s.
Proof.
  unfold replace. induction s as [|c rest IH]; intros Hc; [reflexivity|].
  cbn [contains_char] in Hc. apply orb_false_iff in Hc as [Hca Hrest].
  cbn [replace_from].
  destruct (String.prefix (String a old) (String c rest)) eqn:E.
  - apply prefix_first_char in E. subst c.
    rewrite (proj2 (Ascii.eqb_eq a a) eq_refl) in Hca. discriminate.
  - rewrite IH by exact Hrest. reflexivity.
Qed.

Lemma forallb_elem {A} (f : A -> bool) (l : list A) x :
  forallb f l = true -> x ∈ l -> f x = true.
Proof.
  intros H Hx. rewrite forallb_forall in H. apply H, list_elem_of_In, Hx.
Qed.

(** X23.  [replace_proj_path] touches the texts of a configuration and
    nothing else: the keys of its mappings (also a key that has the
    placeholder in it), the order and the nesting, and the scalars that are
    not text are those of the configuration it was given; and a
    configuration none of whose texts has a dollar sign is returned as it
    is. *)
Theorem X23_replace_proj_path_keeps_shape :
  forall proj_path c,
    skeleton (replace_proj_path proj_path c) = skeleton c
    /\ (dollar_free c = true -> replace_proj_path proj_path c = c).
Proof.
  intros p. apply config_induction.
  - intros items IH. cbn [replace_proj_path skeleton dollar_free]. split.
    + f_equal. rewrite map_map. apply map_ext_in. intros [k v] Hin.
      rewrite Forall_forall in IH. apply list_elem_of_In in Hin.
      destruct (IH (k, v) Hin) as [H1 _]. cbn [snd] in H1. rewrite H1. reflexivity.
    + intros Hfree. f_equal. rewrite <- (map_id items) at 2.
      apply map_ext_in. intros [k v] Hin.
      rewrite Forall_forall in IH. apply list_elem_of_In in Hin.
      destruct (IH (k, v) Hin) as [_ H2]. cbn [snd] in H2. rewrite H2; [reflexivity|].
      apply (forallb_elem _ _ (k, v) Hfree Hin).
  - intros items IH. cbn [replace_proj_path skeleton dollar_free]. split.
    + f_equal. rewrite map_map. apply map_ext_in. intros v Hin.
      rewrite Forall_forall in IH. apply list_elem_of_In in Hin.
      apply (IH v Hin).
    + intros Hfree. f_equal. rewrite <- (map_id items) at 2.
      apply map_ext_in. intros v Hin.
      rewrite Forall_forall in IH. apply list_elem_of_In in Hin.
      apply (IH v Hin). apply (forallb_elem _ _ v Hfree Hin).
  - intros s. cbn. split; [reflexivity|]. intros Hfree.
    apply negb_true_iff in Hfree. unfold placeholder.
    rewrite replace_without_first by exact Hfree. reflexivity.
  - intros v. split; reflexivity.
Qed.

Lemma prefix_append (s t : string) : String.prefix s (s +:+ t) = true.
Proof.
  induction s as [|c s IH]; simpl; [destruct t; reflexivity|].
  destruct (Ascii.ascii_dec c c); [exact IH|congruence].
Qed.

(** X24.  A text that starts with the placeholder gets the project path in
    its place: [format_config_str] of ["$proj_path$"] followed by [rest] is
    the project path followed by what [format_config_str] makes of [rest],
    which is [rest] itself when it has no dollar sign. *)
Theorem X24_format_config_str_replaces_leading_placeholder :
  forall proj_path rest,
    format_config_str proj_path (placeholder +:+ rest)
    = proj_path +:+ format_config_str proj_path rest
    /\ (contains_char "$"%char rest = false ->
        format_config_str proj_path (placeholder +:+ rest) = proj_path +:+ rest).
Proof.
  intros p rest.
  assert (E : format_config_str p (placeholder +:+ rest)
              = p +:+ format_config_str p rest).
  { unfold format_config_str, replace.
    change (placeholder +:+ rest) with (String "$" ("proj_path$" +:+ rest)).
    cbn [replace_from].
    change (String "$" ("proj_path$" +:+ rest)) with (placeholder +:+ rest).
    rewrite prefix_append. reflexivity. }
  split; [exact E|]. intros Hfree. rewrite E. f_equal.
  unfold format_config_str, placeholder. apply replace_without_first, Hfree.
Qed.

End Configuration.

(** ** Dispatching tasks *)

Section Dispatching.
Import Dispatch.

Lemma fetch_methods_sorted :
  fetch_methods
  = ["fetch_stock_basic_data"; "fetch_stock_dividend_data";
     "fetch_stock_fundamental_data"; "fetch_stock_limit_data";
     "fetch_stock_suspend_data"; "fetch_volumn_price_data"].
Proof. vm_compute. reflexivity. Qed.

Lemma split_nonempty sep s : split sep s <> [].
Proof.
  destruct s as [|c rest]; cbn; [discriminate|].
  destruct (Ascii.eqb c sep); [discriminate|]. destruct (split sep rest); discriminate.
Qed.

(** A text without separator is one piece. *)
Lemma split_one_piece sep s :
  contains_char sep s = false -> split sep s = [s].
Proof.
  induction s as [|c rest IH]; intros H; [reflexivity|].
  cbn in *. apply orb_false_iff in H as [Hc Hrest].
  rewrite Hc, (IH Hrest). reflexivity.
Qed.

(** The pieces of two texts joined by the separator: those of the first,
    then those of the second. *)
Lemma split_joined sep (a b : string) :
  split sep (a +:+ String sep b) = split sep a ++ split sep b.
Proof.
  induction a as [|c a IH]; simpl.
  - rewrite (proj2 (Ascii.eqb_eq sep sep) eq_refl). reflexivity.
  - destruct (Ascii.eqb c sep); [rewrite IH; reflexivity|].
    rewrite IH. pose proof (split_nonempty sep a) as Hne.
    destruct (split sep a) as [|p ps]; [congruence|reflexivity].
Qed.

Lemma second_to_last_app (l : list string) piece last :
  second_to_last (l ++ [piece; last]) = Ok piece.
Proof.
  unfold second_to_last. rewrite rev_app_distr. reflexivity.
Qed.

Lemma next_match_routed table_name piece :
  second_to_last (split "_"%char table_name) = Ok piece ->
  fetch_func table_name = Ok (routed piece).
Proof.
  intros Hp. unfold fetch_func. rewrite fetch_methods_sorted.
  cbn [next_match]. rewrite Hp. clear Hp. unfold routed.
  destruct (decide (piece ∈ ["fetch"; "stock"; "data"; "basic"; "dividend";
                             "fundamental"; "limit"; "suspend"; "volumn"; "price"]))
    as [Hin|Hout].
  - repeat (apply elem_of_cons in Hin as [->|Hin]; [vm_compute; reflexivity|]).
    inversion Hin.
  - assert (Hno : forall l : list string,
              l ⊆ ["fetch"; "stock"; "data"; "basic"; "dividend";
                   "fundamental"; "limit"; "suspend"; "volumn"; "price"] ->
              bool_decide (piece ∈ l) = false).
    { intros l Hl. apply bool_decide_eq_false_2. intros H. apply Hout, Hl, H. }
    assert (Hne : forall word,
              word ∈ ["fetch"; "stock"; "data"; "basic"; "dividend";
                      "fundamental"; "limit"; "suspend"; "volumn"; "price"] ->
              String.eqb piece word = false).
    { intros word Hw. apply String.eqb_neq. intros ->. apply Hout, Hw. }
    repeat match goal with
           | |- context [split "_"%char ?m] =>
               let l := eval vm_compute in (split "_"%char m) in
               change (split "_"%char m) with l
           end.
    rewrite !Hno, !Hne;
      lazymatch goal with
      | |- _ ⊆ _ =>
          intros x Hx;
          repeat (apply elem_of_cons in Hx as [->|Hx]; [repeat first [left|right]|]);
          inversion Hx
      | |- _ ∈ _ => repeat first [left|right]
      | |- _ => reflexivity
      end.
Qed.

(** X25.  The method [parallel_task] queues for a task is chosen by one
    word of the table name, the piece before the last underscore-separated
    piece, looked for among the words of the names of the public methods in
    alphabetical order, the price operation being the default.  So a name
    routes to the operation of the category only if that word is
    [basic], [dividend], [fundamental], [limit] or [suspend]; the words
    [fetch], [stock] and [data] route to the reference operation, and every
    other word to the price operation.  A name without underscore has no
    such piece, and choosing is an [IndexError]. *)
Theorem X25_task_is_routed_by_second_to_last_piece :
  forall prefix piece last name,
    contains_char "_"%char piece = false ->
    contains_char "_"%char last = false ->
    contains_char "_"%char name = false ->
    fetch_func (piece +:+ "_" +:+ last) = Ok (routed piece)
    /\ fetch_func (prefix +:+ "_" +:+ piece +:+ "_" +:+ last) = Ok (routed piece)
    /\ fetch_func name = Raise IndexError.
Proof.
  intros prefix piece last name Hp Hl Hn. split; [|split].
  - apply next_match_routed.
    change (piece +:+ "_" +:+ last) with (piece +:+ String "_" last).
    rewrite split_joined, (split_one_piece _ _ Hp), (split_one_piece _ _ Hl).
    reflexivity.
  - apply next_match_routed.
    change (prefix +:+ "_" +:+ piece +:+ "_" +:+ last)
      with (prefix +:+ String "_" (piece +:+ String "_" last)).
    rewrite !split_joined, (split_one_piece _ _ Hp), (split_one_piece _ _ Hl).
    apply second_to_last_app.
  - unfold fetch_func. rewrite fetch_methods_sorted. cbn [next_match].
    rewrite (split_one_piece _ _ Hn). reflexivity.
Qed.

Lemma X25_task_is_routed_by_second_to_last_piece_witness :
  fetch_func "stock_dividend" = Ok "fetch_stock_basic_data"
  /\ fetch_func "stock_daily_limit" = Ok "fetch_volumn_price_data"
  /\ fetch_func "prices" = Raise IndexError.
Proof.
  destruct (X25_task_is_routed_by_second_to_last_piece "x" "stock" "dividend" "prices"
              eq_refl eq_refl eq_refl) as (H1 & _ & H3).
  destruct (X25_task_is_routed_by_second_to_last_piece "stock" "daily" "limit" "prices"
              eq_refl eq_refl eq_refl) as (_ & H2 & _).
  split; [exact H1|]. split; [exact H2|exact H3].
Defined.

End Dispatching.

(* ===================================================================== *)
(** ** The worker threads *)
(* ===================================================================== *)

Section WorkerThreads.

Import Pool.

#[local] Arguments queued : simpl never.
#[local] Arguments stops : simpl never.

Lemma queued_nil : queued [] = [].
Proof. reflexivity. Qed.

Lemma queued_task m t q : queued (Task m t :: q) = t :: queued q.
Proof. reflexivity. Qed.

Lemma queued_stop q : queued (Stop :: q) = queued q.
Proof. reflexivity. Qed.

Lemma queued_app q q' : queued (q ++ q') = queued q ++ queued q'.
Proof. unfold queued. apply flat_map_app. Qed.

Lemma stops_nil : stops [] = O.
Proof. reflexivity. Qed.

Lemma stops_task m t q : stops (Task m t :: q) = stops q.
Proof. reflexivity. Qed.

Lemma stops_stop q : stops (Stop :: q) = S (stops q).
Proof. reflexivity. Qed.

Lemma stops_app q q' : stops (q ++ q') = (stops q + stops q')%nat.
Proof. unfold stops. rewrite List.filter_app, length_app. reflexivity. Qed.

Create Rewrite HintDb pool.
#[local] Hint Rewrite queued_nil queued_task queued_stop queued_app
  stops_nil stops_task stops_stop stops_app @length_app : pool.

Lemma fetch_func_raises table_name e :
  Dispatch.fetch_func table_name = Raise e -> e = IndexError.
Proof.
  unfold Dispatch.fetch_func.
  induction Dispatch.fetch_methods as [|m ms IH]; cbn [Dispatch.next_match];
    [discriminate|].
  destruct (Dispatch.second_to_last _) as [piece|e'] eqn:E.
  - destruct (bool_decide _); [discriminate|exact IH].
  - unfold Dispatch.second_to_last in E.
    destruct (rev _) as [|? [|? ?]]; inversion E; intros [= <-]; reflexivity.
Qed.

Lemma start_consistent tasks : consistent tasks (start tasks).
Proof.
  unfold consistent, placed, start; cbn. repeat split; try lia.
  rewrite app_nil_r. reflexivity.
Qed.

Ltac place Hp :=
  rewrite Hp; rewrite <- ?app_assoc; cbn [app];
  rewrite <- ?Permutation_middle; reflexivity.

Ltac count_up :=
  repeat match goal with |- _ /\ _ => split end;
  try lia; try assumption; try reflexivity.

Lemma step_consistent tasks s s' :
  consistent tasks s -> step s s' -> consistent tasks s'.
Proof.
  intros (Ht & Hn & Hm) Hstep.
  destruct Hstep as
    [s t rest m Hmain Hf | s t rest e Hmain Hf | s Hmain | s Hmain Hu
    | s todo Hmain | s Hmain | s Hmain Hj
    | s m t q n Hq Hi | s q n Hq Hi | s b1 t b2 Hb | s b1 t b2 Hb];
    try (pose proof (fetch_func_raises _ _ Hf); subst e);
    unfold consistent, placed in *;
    cbn [threads queue unfinished idle busy failed gone finished main pending].
  all: try rewrite Hmain in Hm; try rewrite Hq in Hm; try rewrite Hb in Hm, Hn.
  all: autorewrite with pool in *; cbn in *.
  - destruct Hm as (Hp & H1 & H2 & H3). count_up. place Hp.
  - destruct Hm as (Hp & _). count_up. exists t. split; [|exact Hf].
    rewrite Hp. left.
  - destruct Hm as (Hp & H1 & H2 & H3). count_up.
  - destruct Hm as (Hp & H1 & H2 & H3).
    assert (Hq : queued (queue s) = []) by (apply length_zero_iff_nil; lia).
    assert (Hb : busy s = []) by (apply length_zero_iff_nil; lia).
    assert (Hfl : failed s = []) by (apply length_zero_iff_nil; lia).
    count_up.
  - destruct Hm as (Hp & H1 & H2 & H3 & H4).
    rewrite H1 in *. count_up.
  - destruct Hm as (Hp & H1 & H2 & H3 & H4). count_up.
  - destruct Hm as (Hp & H1 & H2 & H3 & H4).
    rewrite H3 in Hj. cbn in Hj. count_up.
  - destruct (main s) eqn:Hmain; cbn in *; try (split; [lia|split; [lia|exact Hm]]);
      try (destruct Hm as (Hp & H1 & H2 & H3 & H4); discriminate);
      try (destruct Hm as (Hp & H1 & H2 & H3)); count_up; try place Hp.
  - destruct (main s) eqn:Hmain; cbn in *; try (split; [lia|split; [lia|exact Hm]]);
      try (destruct Hm as (Hp & H1 & H2 & H3 & H4 & H5); lia);
      try (destruct Hm as (Hp & H1 & H2 & H3 & H4); count_up);
      try (destruct Hm as (Hp & H1 & H2 & H3); lia);
      count_up.
  - destruct (main s) eqn:Hmain; cbn in *; try (split; [lia|split; [lia|exact Hm]]);
      try (destruct Hm as (Hp & H1 & H2 & H3 & H4);
           apply (f_equal (@length string)) in H2;
           rewrite length_app in H2; cbn in H2; lia);
      try (destruct Hm as (Hp & H1 & H2 & H3)); count_up; try place Hp.
  - destruct (main s) eqn:Hmain; cbn in *; try (split; [lia|split; [lia|exact Hm]]);
      try (destruct Hm as (Hp & H1 & H2 & H3 & H4);
           apply (f_equal (@length string)) in H2;
           rewrite length_app in H2; cbn in H2; lia);
      try (destruct Hm as (Hp & H1 & H2 & H3)); count_up; try place Hp.
Qed.

Lemma run_consistent tasks n s :
  run n (start tasks) s -> consistent tasks s.
Proof.
  remember (start tasks) as s0 eqn:E.
  induction 1 as [s|n s s' s'' _ IH Hstep]; subst.
  - apply start_consistent.
  - eapply step_consistent; [apply IH; reflexivity|exact Hstep].
Qed.

Lemma run_app n m s s' s'' : run n s s' -> run m s' s'' -> run (n + m) s s''.
Proof.
  intros Hn Hm. induction Hm as [s'|m s' t t' _ IH Hstep].
  - rewrite Nat.add_0_r. exact Hn.
  - rewrite Nat.add_succ_r. eapply run_more; [apply IH; exact Hn|exact Hstep].
Qed.

Lemma step_failed s s' : step s s' -> failed s <> [] -> failed s' <> [].
Proof. destruct 1; cbn; try tauto; discriminate. Qed.

Lemma run_failed n s s' : run n s s' -> failed s <> [] -> failed s' <> [].
Proof.
  induction 1 as [s|n s s' s'' _ IH Hstep]; [tauto|].
  intros H. eapply step_failed; [exact Hstep|apply IH; exact H].
Qed.

(** X26. A task that raises in its worker hangs [parallel_task]: the worker
    ends before [queue.task_done()], so after any run of the threads in
    which the call of some task has raised, and however the threads go on
    from there, [parallel_task] has not returned, and when it is in
    [task_queue.join()] the count of unfinished tasks it waits for is not
    zero. *)
Theorem X26_raising_task_hangs_parallel_task :
  forall tasks n s m s',
    run n (start tasks) s ->
    failed s <> [] ->
    run m s s' ->
    main s' <> Returned
    /\ main s' <> Waiting
    /\ (forall todo, main s' <> Stopping todo)
    /\ (main s' = Joining -> (0 < unfinished s')%nat).
Proof.
  intros tasks n s m s' Hs Hf Hs'.
  pose proof (run_failed _ _ _ Hs' Hf) as Hf'.
  pose proof (run_consistent _ _ _ (run_app _ _ _ _ _ Hs Hs')) as (_ & _ & Hm).
  destruct (main s') eqn:Hmain.
  - repeat split; try discriminate.
  - destruct Hm as (_ & _ & _ & Hu).
    repeat split; try discriminate. intros _.
    destruct (failed s'); [contradiction|]. cbn in Hu. lia.
  - destruct Hm as (_ & _ & _ & H & _). contradiction.
  - destruct Hm as (_ & _ & _ & H & _). contradiction.
  - destruct Hm as (_ & _ & _ & H & _). contradiction.
  - repeat split; discriminate.
Qed.

Lemma queue_drained q : queued q = [] -> stops q = O -> q = [].
Proof. destruct q as [|[m t|] q]; autorewrite with pool; [reflexivity|discriminate..]. Qed.

Lemma queue_of_stops q :
  queued q = [] -> stops q <> O -> exists q', q = Stop :: q'.
Proof.
  destruct q as [|[m t|] q]; autorewrite with pool;
    [contradiction|discriminate|]. intros _ _. exists q. reflexivity.
Qed.

Lemma queue_of_tasks q :
  stops q = O -> queued q <> [] -> exists m t q', q = Task m t :: q'.
Proof.
  destruct q as [|[m t|] q]; autorewrite with pool;
    [contradiction| |discriminate]. intros _ _. exists m, t, q. reflexivity.
Qed.

(** The pool never stops short: as long as no call has raised and
    [parallel_task] has neither returned nor raised, some thread can take a
    step. *)
Lemma step_ahead tasks s :
  consistent tasks s -> failed s = [] ->
  main s = Returned \/ (exists e, main s = Failed e) \/ exists s', step s s'.
Proof.
  intros (Ht & Hn & Hm) Hf.
  destruct (main s) as [[|t rest]| |[|todo]| | |e] eqn:Hmain.
  - right; right. eexists. apply all_queued. exact Hmain.
  - right; right.
    destruct (Dispatch.fetch_func t) as [m|e] eqn:E; eexists.
    + eapply put_task; eassumption.
    + eapply dispatch_raises; eassumption.
  - right; right. destruct Hm as (Hp & H1 & H2 & H3).
    destruct (busy s) as [|t b] eqn:Hb.
    + destruct (queued (queue s)) as [|t ts] eqn:Hq.
      * eexists. apply queue_joined; [exact Hmain|].
        rewrite H3, Hf. reflexivity.
      * destruct (queue_of_tasks (queue s) H1) as (m & t' & q' & Eq);
          [rewrite Hq; discriminate|].
        apply Permutation_length in Hp. unfold placed in Hp.
        rewrite Hmain, Hq, Hb, Hf in Hp. cbn in Hp, Hn. rewrite Hf in Hn. cbn in Hn.
        destruct (idle s) as [|k] eqn:Hi; [lia|].
        eexists. eapply get_task; eassumption.
    + eexists. apply (task_done s [] t b). exact Hb.
  - right; right. eexists. apply all_stopped. exact Hmain.
  - right; right. eexists. eapply put_stop. exact Hmain.
  - right; right. destruct Hm as (Hp & H1 & H2 & H3 & H4).
    destruct (stops (queue s)) as [|k] eqn:Hs.
    + eexists. apply threads_joined; [exact Hmain|]. rewrite H3. cbn. lia.
    + destruct (queue_of_stops (queue s) H1) as (q' & Eq); [lia|].
      rewrite H2, H3 in Hn. cbn in Hn.
      destruct (idle s) as [|i] eqn:Hi; [lia|].
      eexists. eapply get_stop; eassumption.
  - left. reflexivity.
  - right; left. exists e. reflexivity.
Qed.

(** X27. When no call raises, [parallel_task] comes to its end and runs
    every task once: if the threads have come to rest (none of them can take
    a step) after a run in which no task's call has raised, then either
    [parallel_task] has returned, the tasks run to their end are the tasks
    given, each as often as it was given, every worker has left its loop
    and the queue is empty; or [parallel_task] has itself raised
    [IndexError], on a task whose table name has no second-to-last piece. *)
Theorem X27_without_raising_call_every_task_is_run_once :
  forall tasks n s,
    run n (start tasks) s ->
    failed s = [] ->
    (forall s', ~ step s s') ->
    (main s = Returned
     /\ finished s ≡ₚ tasks
     /\ gone s = length tasks
     /\ busy s = []
     /\ queue s = [])
    \/ (main s = Failed IndexError
        /\ exists table_name,
             table_name ∈ tasks
             /\ Dispatch.fetch_func table_name = Raise IndexError).
Proof.
  intros tasks n s Hrun Hf Hrest.
  pose proof (run_consistent _ _ _ Hrun) as Hc.
  destruct (step_ahead _ _ Hc Hf) as [Hmain|[[e Hmain]|[s' Hstep]]].
  - left. destruct Hc as (Ht & Hn & Hm). rewrite Hmain in Hm.
    destruct Hm as (Hp & H1 & H2 & H3 & H4 & H5). unfold placed in Hp.
    rewrite Hmain, H1, H2, H3 in Hp. cbn in Hp.
    repeat split; try assumption; try congruence.
    + symmetry. exact Hp.
    + apply queue_drained; assumption.
  - right. destruct Hc as (Ht & Hn & Hm). rewrite Hmain in Hm.
    destruct Hm as (-> & Hm). split; [exact Hmain|exact Hm].
  - destruct (Hrest s' Hstep).
Qed.

Lemma step_weight s s' : step s s' -> (weight s' < weight s)%nat.
Proof.
  destruct 1 as
    [s t rest m Hmain Hf | s t rest e Hmain Hf | s Hmain | s Hmain Hu
    | s todo Hmain | s Hmain | s Hmain Hj
    | s m t q n Hq Hi | s q n Hq Hi | s b1 t b2 Hb | s b1 t b2 Hb];
    unfold weight;
    cbn [threads queue unfinished idle busy failed gone finished main];
    try rewrite Hmain; try rewrite Hq; try rewrite Hb;
    autorewrite with pool; cbn [ahead length]; lia.
Qed.

Lemma run_weight n s s' : run n s s' -> (weight s' + n <= weight s)%nat.
Proof.
  induction 1 as [s|n s s' s'' _ IH Hstep]; [lia|].
  apply step_weight in Hstep. lia.
Qed.

(** X28. [parallel_task] on [n] tasks is over after at most [5 * n + 4]
    steps of its threads (a put, a get, the end of a call, a join let
    through), whatever their order and whether calls raise or not: no run
    goes on for ever. *)
Theorem X28_parallel_task_takes_boundedly_many_steps :
  forall tasks n s,
    run n (start tasks) s ->
    (n <= 5 * length tasks + 4)%nat.
Proof.
  intros tasks n s Hrun. apply run_weight in Hrun.
  assert (E : weight (start tasks) = (5 * length tasks + 4)%nat)
    by (unfold weight, start; cbn [threads queue busy main ahead];
        autorewrite with pool; cbn [length]; lia).
  lia.
Qed.

Lemma run_first n s s' s'' : step s s' -> run n s' s'' -> run (S n) s s''.
Proof.
  intros Hstep Hrun. apply (run_app 1 n s s' s''); [|exact Hrun].
  eapply run_more; [apply run_none|exact Hstep].
Qed.

Lemma dispatch_stock_daily :
  Dispatch.fetch_func "stock_daily" = Ok "fetch_stock_basic_data".
Proof. vm_compute. reflexivity. Qed.

Lemma put_stock_daily s rest :
  main s = Queueing ("stock_daily" :: rest) ->
  step s {| threads := threads s;
            queue := queue s ++ [Task "fetch_stock_basic_data" "stock_daily"];
            unfinished := S (unfinished s); idle := idle s; busy := busy s;
            failed := failed s; gone := gone s; finished := finished s;
            main := Queueing rest |}.
Proof. intros H. eapply put_task; [exact H|exact dispatch_stock_daily]. Qed.

Lemma run_raised : run 3 (start PoolScenario.one_task) PoolScenario.raised.
Proof.
  eapply run_first; [eapply put_stock_daily; reflexivity|cbn].
  eapply run_first; [eapply get_task; reflexivity|cbn].
  eapply run_first; [eapply (task_raises _ [] _ []); reflexivity|cbn].
  apply run_none.
Qed.

Lemma run_returned : run 9 (start PoolScenario.one_task) PoolScenario.returned.
Proof.
  eapply run_first; [eapply put_stock_daily; reflexivity|cbn].
  eapply run_first; [eapply get_task; reflexivity|cbn].
  eapply run_first; [eapply (task_done _ [] _ []); reflexivity|cbn].
  eapply run_first; [eapply all_queued; reflexivity|cbn].
  eapply run_first; [eapply queue_joined; reflexivity|cbn].
  eapply run_first; [eapply put_stop; reflexivity|cbn].
  eapply run_first; [eapply get_stop; reflexivity|cbn].
  eapply run_first; [eapply all_stopped; reflexivity|cbn].
  eapply run_first; [eapply threads_joined; reflexivity|cbn].
  apply run_none.
Qed.

Lemma returned_at_rest s' : ~ step PoolScenario.returned s'.
Proof. intros H. inversion H; try discriminate. all: destruct b1; discriminate. Qed.

Lemma X26_raising_task_hangs_parallel_task_witness :
  main PoolScenario.raised <> Returned
  /\ main PoolScenario.raised <> Waiting
  /\ (forall todo, main PoolScenario.raised <> Stopping todo)
  /\ (main PoolScenario.raised = Joining -> (0 < unfinished PoolScenario.raised)%nat).
Proof.
  apply (X26_raising_task_hangs_parallel_task PoolScenario.one_task
           3 PoolScenario.raised 0 PoolScenario.raised).
  - exact run_raised.
  - discriminate.
  - apply run_none.
Defined.

Lemma X27_without_raising_call_every_task_is_run_once_witness :
  (main PoolScenario.returned = Returned
   /\ finished PoolScenario.returned ≡ₚ PoolScenario.one_task
   /\ gone PoolScenario.returned = length PoolScenario.one_task
   /\ busy PoolScenario.returned = []
   /\ queue PoolScenario.returned = [])
  \/ (main PoolScenario.returned = Failed IndexError
      /\ exists table_name,
           table_name ∈ PoolScenario.one_task
           /\ Dispatch.fetch_func table_name = Raise IndexError).
Proof.
  apply (X27_without_raising_call_every_task_is_run_once PoolScenario.one_task
           9 PoolScenario.returned).
  - exact run_returned.
  - reflexivity.
  - exact returned_at_rest.
Defined.

Lemma X28_parallel_task_takes_boundedly_many_steps_witness :
  (9 <= 5 * length PoolScenario.one_task + 4)%nat.
Proof.
  apply (X28_parallel_task_takes_boundedly_many_steps PoolScenario.one_task
           9 PoolScenario.returned).
  exact run_returned.
Defined.

End WorkerThreads.
